(** * tools/isobuild/meteor-npm.js

    A shallow embedding of Meteor's manager of a package's [.npm]
    directory, and the properties of it that the design document states.

    Conventions of the embedding.
    - JavaScript strings are [string]s (sequences of 8-bit characters).
    - A JavaScript object used as a map is the association list of its
      own properties in enumeration order; a JavaScript object has each
      key once. An assignment [obj[name] = value] with a computed name
      adds no property when the name is [__proto__] (it reaches the
      accessor of [Object.prototype]), and a name that is no own property
      reads as no string.
    - [undefined] (an absent property) is [None].
    - A path is the list of its components, so that
      [files.pathJoin(p, 'x')] is [p ++ ["x"]].
    - Code that touches the disk or runs other programs is written in a
      state-and-exception monad over a [world]: the file system and the
      log of the calls made on the outside world. *)

From Stdlib Require Import String Ascii List Bool Arith Lia DecimalString.
Import ListNotations.
#[local] Set Warnings "-register-all".
Local Open Scope string_scope.
Local Open Scope list_scope.

(** ** Strings and the regular expressions of the source *)

Module Str.

(** [s.match(/^pat/)] where every [.] of [pat] is the wildcard of the
    regular expression (any character but a line terminator) and every
    other character of [pat] stands for itself. *)
Definition isLineTerminator (c : ascii) : bool :=
  (Ascii.eqb c "010" || Ascii.eqb c "013")%char.

Fixpoint matchPrefixWithDots (pat s : string) : bool :=
  match pat with
  | EmptyString => true
  | String c pat' =>
      match s with
      | EmptyString => false
      | String d s' =>
          (if Ascii.eqb c "."%char then negb (isLineTerminator d)
           else Ascii.eqb c d)
          && matchPrefixWithDots pat' s'
      end
  end.

(** [s.match(/suf$/)] for a literal [suf]: [s] ends with [suf]. *)
Fixpoint endsWith (suf s : string) : bool :=
  String.eqb s suf
  || match s with
     | EmptyString => false
     | String _ s' => endsWith suf s'
     end.

(** [s.match(/c/)] for one literal character. *)
Fixpoint contains (c : ascii) (s : string) : bool :=
  match s with
  | EmptyString => false
  | String d s' => Ascii.eqb c d || contains c s'
  end.

Definition isDigit (c : ascii) : bool :=
  let n := nat_of_ascii c in Nat.leb 48 n && Nat.leb n 57.

Fixpoint allDigits (s : string) : bool :=
  match s with
  | EmptyString => true
  | String c s' => isDigit c && allDigits s'
  end.

(** [s.replace(/\.(\d+)$/, '.*')]: the leftmost dot that is followed by
    one digit or more up to the end of the string is replaced, with these
    digits, by [".*"]. *)
Fixpoint replaceLastNumber (s : string) : string :=
  match s with
  | EmptyString => EmptyString
  | String c s' =>
      if Ascii.eqb c "."%char && negb (String.eqb s' "") && allDigits s'
      then ".*"
      else String c (replaceLastNumber s')
  end.

Definition isSpace (c : ascii) : bool :=
  let n := nat_of_ascii c in
  (Nat.leb 9 n && Nat.leb n 13) || Nat.eqb n 32 || Nat.eqb n 160.

Fixpoint startsWith (lit s : string) : bool :=
  match lit with
  | EmptyString => true
  | String c lit' =>
      match s with
      | EmptyString => false
      | String d s' => Ascii.eqb c d && startsWith lit' s'
      end
  end.

Fixpoint drop (n : nat) (s : string) : string :=
  match n, s with
  | S n', String _ s' => drop n' s'
  | _, _ => s
  end.

Fixpoint takeWhile (f : ascii -> bool) (s : string) : string :=
  match s with
  | EmptyString => EmptyString
  | String c s' => if f c then String c (takeWhile f s') else EmptyString
  end.

Fixpoint dropWhile (f : ascii -> bool) (s : string) : string :=
  match s with
  | EmptyString => EmptyString
  | String c s' => if f c then dropWhile f s' else s
  end.

(** [\S+?] followed by the literal [lit], from the second character of
    the group on: the shortest run of characters that are not white space
    after which [lit] stands. *)
Fixpoint lazyMore (lit s : string) : option string :=
  if startsWith lit s then Some EmptyString
  else
    match s with
    | EmptyString => None
    | String c s' =>
        if isSpace c then None
        else option_map (String c) (lazyMore lit s')
    end.

Definition lazyNonSpace (lit s : string) : option string :=
  match s with
  | EmptyString => None
  | String c s' =>
      if isSpace c then None else option_map (String c) (lazyMore lit s')
  end.

(** [/404 '(\S+?)' is not in the npm registry/.exec(s)]: the group of the
    leftmost match. *)
Fixpoint execMissingPattern (s : string) : option string :=
  match (if startsWith "404 '" s
         then lazyNonSpace "' is not in the npm registry" (drop 5 s)
         else None) with
  | Some name => Some name
  | None =>
      match s with
      | EmptyString => None
      | String _ s' => execMissingPattern s'
      end
  end.

Definition notAt (c : ascii) : bool := negb (Ascii.eqb c "@"%char).
Definition notSpace (c : ascii) : bool := negb (isSpace c).

(** [([^@]+)@(\S+)] at the start of [s]: both groups are greedy, and a
    shorter first group is never followed by [@]. *)
Definition versionGroups (s : string) : option (string * string) :=
  let g1 := takeWhile notAt s in
  match g1, dropWhile notAt s with
  | String _ _, String _ rest =>
      match takeWhile notSpace rest with
      | EmptyString => None
      | g2 => Some (g1, g2)
      end
  | _, _ => None
  end.

(** [/No compatible version found: ([^@]+)@(\S+)/.exec(s)]: the two groups
    of the leftmost match. *)
Fixpoint execBadVersionPattern (s : string) : option (string * string) :=
  match (if startsWith "No compatible version found: " s
         then versionGroups (drop 29 s)
         else None) with
  | Some groups => Some groups
  | None =>
      match s with
      | EmptyString => None
      | String _ s' => execBadVersionPattern s'
      end
  end.

(** The line feed. *)
Definition nl : string := String "010"%char EmptyString.

(** [Array.prototype.join]. *)
Definition join (sep : string) (l : list string) : string :=
  String.concat sep l.

(** The decimal notation of a natural number ([String(n)]). *)
Definition ofNat (n : nat) : string :=
  NilZero.string_of_uint (Nat.to_uint n).

End Str.

(** ** JavaScript objects as association lists *)

Module Obj.

Section Assoc.
Context {A : Type}.

(** [obj[k]] *)
Fixpoint get (k : string) (o : list (string * A)) : option A :=
  match o with
  | [] => None
  | (k', v) :: o' => if String.eqb k k' then Some v else get k o'
  end.

(** [obj[k] = v]: an existing key keeps its place. *)
Fixpoint set (k : string) (v : A) (o : list (string * A))
  : list (string * A) :=
  match o with
  | [] => [(k, v)]
  | (k', v') :: o' =>
      if String.eqb k k' then (k, v) :: o' else (k', v') :: set k v o'
  end.

(** [delete obj[k]] *)
Fixpoint remove (k : string) (o : list (string * A)) : list (string * A) :=
  match o with
  | [] => []
  | (k', v') :: o' =>
      if String.eqb k k' then remove k o' else (k', v') :: remove k o'
  end.

(** [obj[k] = f(obj[k])] when [k] is there. *)
Fixpoint update (k : string) (f : A -> A) (o : list (string * A))
  : list (string * A) :=
  match o with
  | [] => []
  | (k', v') :: o' =>
      if String.eqb k k' then (k, f v') :: o' else (k', v') :: update k f o'
  end.

Definition keys (o : list (string * A)) : list string := map fst o.

(** The name [__proto__], which an object made by [{}] inherits as an
    accessor from [Object.prototype]. *)
Definition isProto (k : string) : bool := String.eqb k "__proto__".

(** [obj[k] = v] for a computed name [k], on an object made by [{}]. The
    assignment to [__proto__] calls the setter of the accessor: it changes
    the prototype of the object when [v] is an object and does nothing
    otherwise, and in both cases the object gets no property of its own.
    Every other name becomes (or stays) a property of the object. *)
Definition assign (k : string) (v : A) (o : list (string * A))
  : list (string * A) :=
  if isProto k then o else set k v o.

(** The properties of [o] under a name that [assign] stores. *)
Definition assignable (o : list (string * A)) : list (string * A) :=
  filter (fun kv => negb (isProto (fst kv))) o.
End Assoc.

End Obj.

(** ** The file system *)

(** Modelled from the spec: [tools/fs/files.js] is not among the sources.
    The design document names the operations (existence test, recursive
    deletion, rename, reading and writing a file, listing a directory);
    they are given here the usual meaning of the [fs] calls they wrap, on
    a tree of regular files and directories. *)
Module Files.

Definition path := list string.

Inductive node :=
| File (data : string)
| Dir (entries : list (string * node)).

Inductive errno := ENOENT | ENOTDIR | EISDIR | ENOTEMPTY | EINVAL.

(** What [stat] tells of a path: a file and its contents, or a directory. *)
Inductive stats := IsFile (data : string) | IsDirectory.

Definition statsOf (n : node) : stats :=
  match n with
  | File d => IsFile d
  | Dir _ => IsDirectory
  end.

(** Modelled from the spec: the look-up of a path that the calls of the
    missing [files.js] start with; ENOENT when a name is not there, ENOTDIR
    when the path goes through a file. *)
Fixpoint find (p : path) (n : node) : errno + node :=
  match p with
  | [] => inr n
  | c :: p' =>
      match n with
      | File _ => inl ENOTDIR
      | Dir es =>
          match Obj.get c es with
          | None => inl ENOENT
          | Some m => find p' m
          end
      end
  end.

(** Modelled from the spec: [files.stat] and [files.lstat] of the missing
    [files.js]. *)
Definition stat (p : path) (n : node) : errno + stats :=
  match find p n with
  | inl e => inl e
  | inr m => inr (statsOf m)
  end.

(** Modelled from the spec: [files.exists] of the missing [files.js], the
    existence test. *)
Definition exists_ (p : path) (n : node) : bool :=
  match find p n with
  | inl _ => false
  | inr _ => true
  end.

(** Modelled from the spec: [files.readFile] of the missing [files.js]. *)
Definition readFile (p : path) (n : node) : errno + string :=
  match find p n with
  | inl e => inl e
  | inr (File d) => inr d
  | inr (Dir _) => inl EISDIR
  end.

(** Modelled from the spec: [files.readdir] of the missing [files.js]. *)
Definition readdir (p : path) (n : node) : errno + list string :=
  match find p n with
  | inl e => inl e
  | inr (File _) => inl ENOTDIR
  | inr (Dir es) => inr (Obj.keys es)
  end.

(** Modelled from the spec: [files.rm_recursive] of the missing
    [files.js], the recursive deletion: [rm -rf], no error when the path is
    not there; the root stays. *)
Fixpoint rm_recursive (p : path) (n : node) : node :=
  match p with
  | [] => n
  | c :: p' =>
      match n with
      | File _ => n
      | Dir es =>
          match p' with
          | [] => Dir (Obj.remove c es)
          | _ :: _ => Dir (Obj.update c (rm_recursive p') es)
          end
      end
  end.

(** Puts node [x] at path [p], whose parent has to be a directory. *)
Fixpoint put (p : path) (x : node) (n : node) : errno + node :=
  match p with
  | [] => inr x
  | c :: p' =>
      match n with
      | File _ => inl ENOTDIR
      | Dir es =>
          match Obj.get c es with
          | Some m =>
              match put p' x m with
              | inl e => inl e
              | inr m' => inr (Dir (Obj.set c m' es))
              end
          | None =>
              match p' with
              | [] => inr (Dir (Obj.set c x es))
              | _ :: _ => inl ENOENT
              end
          end
      end
  end.

(** Modelled from the spec: [files.writeFile] of the missing [files.js]. *)
Definition writeFile (p : path) (data : string) (n : node) : errno + node :=
  match find p n with
  | inr (Dir _) => inl EISDIR
  | _ => put p (File data) n
  end.

(** Modelled from the spec: [files.mkdir_p] of the missing [files.js]:
    [mkdir -p], which creates the missing directories of [p] and changes
    nothing (and answers [false]) when a file is in the way. *)
Fixpoint mkdir_p (p : path) (n : node) : node :=
  match p with
  | [] => n
  | c :: p' =>
      match n with
      | File _ => n
      | Dir es =>
          match Obj.get c es with
          | Some m => Dir (Obj.set c (mkdir_p p' m) es)
          | None => Dir (Obj.set c (mkdir_p p' (Dir [])) es)
          end
      end
  end.

Fixpoint isPrefix (p q : path) : bool :=
  match p with
  | [] => true
  | c :: p' =>
      match q with
      | [] => false
      | d :: q' => String.eqb c d && isPrefix p' q'
      end
  end.

(** Modelled from the spec: [files.rename] of the missing [files.js], with
    the errors of [rename(2)]. *)
Definition rename (a b : path) (n : node) : errno + node :=
  match find a n with
  | inl e => inl e
  | inr src =>
      if isPrefix a b then
        (if isPrefix b a then inr n else inl EINVAL)
      else
        match find b n, src with
        | inr (Dir (_ :: _)), Dir _ => inl ENOTEMPTY
        | inr (Dir _), File _ => inl EISDIR
        | inr (File _), Dir _ => inl ENOTDIR
        | inl ENOTDIR, _ => inl ENOTDIR
        | _, _ => put b src (rm_recursive a n)
        end
  end.

(** Modelled from the spec: [files.copyFile] of the missing [files.js]. *)
Definition copyFile (a b : path) (n : node) : errno + node :=
  match readFile a n with
  | inl e => inl e
  | inr d => writeFile b d n
  end.

(** [p + suffix], for a path given as a string: the suffix goes to the
    last component. *)
Fixpoint addSuffix (p : path) (suffix : string) : path :=
  match p with
  | [] => [suffix]
  | [c] => [(c ++ suffix)%string]
  | c :: p' => c :: addSuffix p' suffix
  end.

Definition toString (p : path) : string := Str.join "/" p.

(** Modelled from the spec: [files.getPathsInDir(".", {cwd})] of the
    missing [files.js], the scan of all paths under the subtree: every path
    below [cwd], relative to it, a directory before what it holds. *)
Fixpoint pathsBelow (prefix : string) (n : node) : list string :=
  match n with
  | File _ => []
  | Dir es =>
      (fix go (es : list (string * node)) : list string :=
         match es with
         | [] => []
         | (name, item) :: rest =>
             let newPath := (prefix ++ name)%string in
             newPath :: pathsBelow (newPath ++ "/")%string item ++ go rest
         end) es
  end.

(** Modelled from the spec: [files.findPathsWithRegex(".", /:/, {cwd})] of
    the missing [files.js]: the paths under the subtree that hold a
    colon. *)
Definition findPathsWithColon (cwd : path) (n : node) : errno + list string :=
  match find cwd n with
  | inl e => inl e
  | inr m => inr (filter (Str.contains ":"%char) (pathsBelow "" m))
  end.

End Files.

(** ** Values *)

(** The JavaScript values written to disk: the minimized tree and
    [package.json]. An object is the list of its own properties, which
    are the ones that [JSON.stringify] writes and [_.each] visits. *)
Inductive jsval :=
| JUndefined
| JString (s : string)
| JObject (props : list (string * jsval)).

Definition ofOption (v : option string) : jsval :=
  match v with
  | None => JUndefined
  | Some s => JString s
  end.

(** A node of the tree that [npm ls --json] prints and that
    [npm-shrinkwrap.json] holds: the fields the code reads, the other
    fields of the node, and the sub-dependencies when the node has a
    [dependencies] field. *)
Inductive npmModule :=
| mkModule (version from resolved : option string)
           (other : list (string * string))
           (dependencies : option (list (string * npmModule))).

Definition version (m : npmModule) : option string :=
  let (v, _, _, _, _) := m in v.
Definition from (m : npmModule) : option string :=
  let (_, f, _, _, _) := m in f.
Definition resolved (m : npmModule) : option string :=
  let (_, _, r, _, _) := m in r.
Definition other (m : npmModule) : list (string * string) :=
  let (_, _, _, o, _) := m in o.
Definition dependencies (m : npmModule) : option (list (string * npmModule)) :=
  let (_, _, _, _, d) := m in d.

(** A string is truthy when it is there and not empty. *)
Definition truthy (v : option string) : bool :=
  match v with
  | None => false
  | Some s => negb (String.eqb s "")
  end.

(** [a === b] on values that are strings or [undefined]. *)
Definition strictEq (a b : option string) : bool :=
  match a, b with
  | None, None => true
  | Some x, Some y => String.eqb x y
  | _, _ => false
  end.

(** [Npm.depends]: package name to version specifier. *)
Definition manifest := list (string * string).

(** ** The outside world *)

(** What [child_process.execFile] hands to its callback. *)
Record execResult := {
  err : option string;
  exec_stdout : string;
  exec_stderr : string
}.

(** What [runNpmCommand] returns. *)
Record npmResult := {
  success : bool;
  error : string;
  stdout : string;
  stderr : string
}.

(** The collaborators of the module that are not among the sources, and
    the process the code runs in. *)
Record env := {
  (** [utils.isUrlWithSha] *)
  isUrlWithSha : option string -> bool;
  (** [utils.randomToken()] *)
  randomToken : string;
  (** [colonConverter.convert] *)
  colonConvert : string -> string;
  (** [process.version], [process.platform], [os.platform()] *)
  processVersion : string;
  processPlatform : string;
  osPlatform : string;
  (** [meteorNpm._printNpmCalls] *)
  printNpmCalls : bool;
  (** [files.getCurrentNodeBinDir()] *)
  getCurrentNodeBinDir : Files.path;
  (** [httpHelpers.getUrl] returns (and does not throw) *)
  getUrl : string -> bool;
  (** [child_process.execFile] of a program with arguments in a working
      directory: what it reports, and what it does to the disk *)
  execFile : Files.path -> list string -> Files.path -> Files.node ->
             execResult * Files.node;
  (** [JSON.parse] of a dependency tree ([None]: a [SyntaxError]) *)
  JSON_parse : string -> option npmModule;
  (** [JSON.stringify(v, null, 2)] *)
  JSON_stringify : jsval -> string
}.

(** The argument of [buildmessage.error]. *)
Inductive message :=
| Text (s : string)
| Result (r : npmResult).

(** The calls that change the disk or talk to the outside, in the order
    they are made. *)
Inductive event :=
| Rename (a b : Files.path)
| RmRecursive (p : Files.path)
| MkdirP (p : Files.path)
| WriteFile (p : Files.path) (data : string)
| CopyFile (a b : Files.path)
| ExecFile (program : Files.path) (args : list string) (cwd : Files.path)
| GetUrl (url : string)
| BuildmessageError (m : message)
| RunLog (line : string)
| ProcessStdout (s : string).

Record world := {
  fs : Files.node;
  trace : list event
}.

Inductive exn :=
| NpmFailure
| FsError (code : Files.errno)
| Error (msg : string)
| SyntaxError.

(** ** The monad of the effectful code *)

Definition M (A : Type) : Type := world -> (exn + A) * world.

Definition ret {A} (a : A) : M A := fun w => (inr a, w).

Definition bind {A B} (m : M A) (k : A -> M B) : M B :=
  fun w =>
    match m w with
    | (inl e, w') => (inl e, w')
    | (inr a, w') => k a w'
    end.

Definition throw {A} (e : exn) : M A := fun w => (inl e, w).

(** [try { m } catch (e) { h(e) }] *)
Definition tryCatch {A} (m : M A) (h : exn -> M A) : M A :=
  fun w =>
    match m w with
    | (inl e, w') => h e w'
    | (inr a, w') => (inr a, w')
    end.

Definition emit (e : event) : M unit :=
  fun w => (inr tt, {| fs := fs w; trace := trace w ++ [e] |}).

Definition getFs : M Files.node := fun w => (inr (fs w), w).

Definition setFs (n : Files.node) : M unit :=
  fun w => (inr tt, {| fs := n; trace := trace w |}).

Definition liftErrno {A} (r : Files.errno + A) : M A :=
  match r with
  | inl code => throw (FsError code)
  | inr a => ret a
  end.

Declare Scope monad_scope.
Delimit Scope monad_scope with monad.
Notation "x <- c1 ;; c2" := (bind c1 (fun x => c2))
  (at level 100, c1 at next level, right associativity) : monad_scope.
Notation "c1 ;; c2" := (bind c1 (fun _ => c2))
  (at level 100, right associativity) : monad_scope.
Local Open Scope monad_scope.

(** When [b], do [m]. *)
Definition when (b : bool) (m : M unit) : M unit :=
  if b then m else ret tt.

(** [a && b], [a || b] and [! a] on computations: the second operand runs
    only when the first does not decide. *)
Definition andM (a b : M bool) : M bool :=
  x <- a ;; if x then b else ret false.

Definition orM (a b : M bool) : M bool :=
  x <- a ;; if x then ret true else b.

Definition notM (a : M bool) : M bool :=
  x <- a ;; ret (negb x).

(** *** The calls on [files] *)

Definition files_exists (p : Files.path) : M bool :=
  n <- getFs ;; ret (Files.exists_ p n).

(** [files.stat(p).isDirectory()] and [files.lstat(p).isDirectory()] *)
Definition files_stat_isDirectory (p : Files.path) : M bool :=
  n <- getFs ;;
  s <- liftErrno (Files.stat p n) ;;
  ret (match s with Files.IsDirectory => true | Files.IsFile _ => false end).

Definition files_readFile (p : Files.path) : M string :=
  n <- getFs ;; liftErrno (Files.readFile p n).

Definition files_rm_recursive (p : Files.path) : M unit :=
  emit (RmRecursive p) ;;
  n <- getFs ;; setFs (Files.rm_recursive p n).

Definition files_rename (a b : Files.path) : M unit :=
  emit (Rename a b) ;;
  n <- getFs ;; n' <- liftErrno (Files.rename a b n) ;; setFs n'.

Definition files_mkdir_p (p : Files.path) : M unit :=
  emit (MkdirP p) ;;
  n <- getFs ;; setFs (Files.mkdir_p p n).

Definition files_writeFile (p : Files.path) (data : string) : M unit :=
  emit (WriteFile p data) ;;
  n <- getFs ;; n' <- liftErrno (Files.writeFile p data n) ;; setFs n'.

Definition files_copyFile (a b : Files.path) : M unit :=
  emit (CopyFile a b) ;;
  n <- getFs ;; n' <- liftErrno (Files.copyFile a b n) ;; setFs n'.

Definition files_findPathsWithColon (cwd : Files.path) : M (list string) :=
  n <- getFs ;; liftErrno (Files.findPathsWithColon cwd n).

Definition buildmessage_error (m : message) : M unit :=
  emit (BuildmessageError m).

(** *** underscore *)

(** [_.isEmpty] on an object. *)
Definition _isEmpty {A} (o : list (string * A)) : bool :=
  match o with
  | [] => true
  | _ :: _ => false
  end.

(** [_.map(obj, f)], where [f] takes the value and then the key; the empty
    array when [obj] is [undefined]. *)
Definition _map {A B} (obj : option (list (string * A)))
    (f : A -> string -> B) : list B :=
  match obj with
  | None => []
  | Some o => map (fun kv => f (snd kv) (fst kv)) o
  end.

(** [_.object(pairs)]: [result[pair[0]] = pair[1]] for each pair, on a
    [result] that starts as [{}]. *)
Definition _object {A} (pairs : list (string * A)) : list (string * A) :=
  fold_left (fun result kv => Obj.assign (fst kv) (snd kv) result) pairs [].

(** ** meteor-npm.js *)

Section MeteorNpm.

Variable E : env.

(** *** The pure part: canonical versions, the install arguments and the
    minimized tree *)

Definition canonicalVersion (depObj : npmModule) : option string :=
  if isUrlWithSha E (from depObj)
  then from depObj
  else version depObj.

Definition treeToDependencies (tree : npmModule)
  : list (string * option string) :=
  _object
    (_map (dependencies tree)
       (fun properties name => (name, canonicalVersion properties))).

(** [installed[name]], as far as [installed[name] !== version] tells for a
    string [version]: the string under [name] when [installed] has this
    property, and [None] for every value that is no string: [undefined],
    and what [Object.prototype] holds under a name that [installed] has
    not ([__proto__], [constructor], ...). *)
Definition lookupInstalled (installed : list (string * option string))
    (name : string) : option string :=
  match Obj.get name installed with
  | Some v => v
  | None => None
  end.

(** Lines 425-433 of [installNpmModules]: the arguments of [npm install]. *)
Definition installArgs (npmDependencies : manifest)
    (installed : list (string * option string)) : list string :=
  fold_left
    (fun args kv =>
       let name := fst kv in
       let version := snd kv in
       if negb (strictEq (lookupInstalled installed name) (Some version))
       then
         let installArg :=
           if isUrlWithSha E (Some version)
           then version else (name ++ "@" ++ version)%string in
         args ++ [installArg]
       else args)
    npmDependencies ["install"].

(** [module.resolved.match(/^https:\/\/registry.npmjs.org\//)] *)
Definition matchesRegistry (s : string) : bool :=
  Str.matchPrefixWithDots "https://registry.npmjs.org/" s.

Fixpoint minimizeModule (module : npmModule) : jsval :=
  let version :=
    if truthy (resolved module)
       && negb (match resolved module with
                | Some r => matchesRegistry r
                | None => false
                end)
    then resolved module
    else if isUrlWithSha E (from module)
    then from module
    else version module in
  let minimized := [("version", ofOption version)] in
  match dependencies module with
  | Some deps =>
      JObject
        (Obj.set "dependencies"
           (JObject
              (fold_left
                 (fun result kv =>
                    Obj.assign (fst kv) (minimizeModule (snd kv)) result)
                 deps []))
           minimized)
  | None => JObject minimized
  end.

Definition minimizeDependencyTree (tree : npmModule) : jsval :=
  let newTopLevelDependencies :=
    match dependencies tree with
    | None => []
    | Some deps =>
        fold_left
          (fun result kv =>
             Obj.assign (fst kv) (minimizeModule (snd kv)) result)
          deps []
    end in
  JObject [("dependencies", JObject newTopLevelDependencies)].

(** *** The temporary directories *)

(** Nothing in the module adds to [tmpDirs]. *)
Definition tmpDirs : list Files.path := [].

(** The function given to [cleanup.onExit]. *)
Definition onExit : M unit :=
  fold_left
    (fun done dir =>
       done ;;
       there <- files_exists dir ;;
       when there (files_rm_recursive dir))
    tmpDirs (ret tt).

(** *** Running npm *)

Definition currentNodeCompatibilityVersion : string :=
  let version := processVersion E in
  let version := Str.replaceLastNumber version in
  (version ++ Str.nl)%string.

(** A path is the list of its components, which
    [files.convertToOSPath] keeps. The calls of
    [files.getCurrentNodeBinDir], [files.convertToOSPath] and
    [files.currentEnvWithPathsAdded] are taken to return, and the child
    process to be started and to end: what [execFile E] reports is what
    the callback gets, the environment given to the child included. *)
Definition runNpmCommand (args : list string) (cwd : Files.path)
  : M npmResult :=
  let nodeBinDir := getCurrentNodeBinDir E in
  let npmPath :=
    if String.eqb (osPlatform E) "win32"
    then nodeBinDir ++ ["npm.cmd"]
    else nodeBinDir ++ ["npm"] in
  when (printNpmCalls E)
    (emit (ProcessStdout
             ("cd " ++ Files.toString cwd ++ " && " ++ Files.toString npmPath
              ++ " " ++ Str.join " " args ++ " ..." ++ Str.nl)%string)) ;;
  emit (ExecFile npmPath args cwd) ;;
  n <- getFs ;;
  let r := execFile E npmPath args cwd n in
  setFs (snd r) ;;
  when (printNpmCalls E)
    (emit (ProcessStdout
             (match err (fst r) with
              | Some _ => "failed" ++ Str.nl
              | None => "done" ++ Str.nl
              end)%string)) ;;
  ret {| success := match err (fst r) with Some _ => false | None => true end;
         error := match err (fst r) with
                  | Some msg => (msg ++ exec_stderr (fst r))%string
                  | None => exec_stderr (fst r)
                  end;
         stdout := exec_stdout (fst r);
         stderr := exec_stderr (fst r) |}.

Definition constructPackageJson (packageName : string)
    (packageNpmDir : Files.path) (npmDependencies : manifest) : M unit :=
  let packageJsonContents :=
    (JSON_stringify E
       (JObject
          [("name",
            JString ("packages-for-meteor-" ++ colonConvert E packageName));
           ("version", JString "0.0.0");
           ("dependencies",
            JObject (map (fun kv => (fst kv, JString (snd kv)))
                       npmDependencies))])
     ++ Str.nl)%string in
  let packageJsonPath := packageNpmDir ++ ["package.json"] in
  files_writeFile packageJsonPath packageJsonContents.

Definition getInstalledDependenciesTree (dir : Files.path) : M npmModule :=
  result <- runNpmCommand ["ls"; "--json"] dir ;;
  match JSON_parse E (stdout result) with
  | Some tree => ret tree
  | None =>
      if negb (success result) then
        buildmessage_error
          (Text ("couldn't read npm version lock information: "
                 ++ error result)%string) ;;
        throw NpmFailure
      else throw SyntaxError
  end.

Definition getShrinkwrappedDependenciesTree (dir : Files.path)
  : M npmModule :=
  shrinkwrapFile <- files_readFile (dir ++ ["npm-shrinkwrap.json"]) ;;
  match JSON_parse E shrinkwrapFile with
  | Some tree => ret tree
  | None => throw SyntaxError
  end.

Definition getInstalledDependencies (dir : Files.path)
  : M (list (string * option string)) :=
  tree <- getInstalledDependenciesTree dir ;;
  ret (treeToDependencies tree).

Definition ensureConnected : M unit :=
  emit (GetUrl "http://registry.npmjs.org") ;;
  if getUrl E "http://registry.npmjs.org" then ret tt
  else
    buildmessage_error
      (Text ("Can't install npm dependencies. "
             ++ "Are you connected to the internet?")%string) ;;
    throw NpmFailure.

(** Lines 414-453 of [installNpmModules]: up to the end of [npm install]. *)
Definition installNpmModules_install (npmDependencies : manifest)
    (packageName : string) (packageNpmDir : Files.path) : M unit :=
  files_mkdir_p (packageNpmDir ++ ["node_modules"]) ;;
  constructPackageJson packageName packageNpmDir npmDependencies ;;
  ensureConnected ;;
  installed <- getInstalledDependencies packageNpmDir ;;
  let args := installArgs npmDependencies installed in
  result <- runNpmCommand args packageNpmDir ;;
  if negb (success result) then
    match Str.execMissingPattern (stderr result) with
    | Some name =>
        buildmessage_error
          (Text ("there is no npm package named '" ++ name ++ "'")%string)
    | None =>
        match Str.execBadVersionPattern (stderr result) with
        | Some (name, vers) =>
            buildmessage_error
              (Text (name ++ " version " ++ vers
                     ++ " is not available in the npm registry")%string)
        | None => buildmessage_error (Text (error result))
        end
    end ;;
    throw NpmFailure
  else ret tt.

Definition colonReportHeader : string :=
  ("Some filenames in your package have invalid characters." ++ Str.nl
   ++ "The following file paths have colons, ':', which won't work on Windows:"
   ++ Str.nl)%string.

(** Lines 464-473 of [installNpmModules]: the text of the report on file
    names with colons. *)
Definition colonReport (pathsWithColons : list string) : string :=
  let firstTen := firstn 10 pathsWithColons in
  let firstTen :=
    if Nat.ltb 10 (length pathsWithColons)
    then firstTen ++ [("... " ++ Str.ofNat (length pathsWithColons - 10)
                       ++ " paths omitted.")%string]
    else firstTen in
  (colonReportHeader ++ Str.join Str.nl firstTen)%string.

(** Lines 455-477 of [installNpmModules]: no file name with a colon, unless
    on Windows. *)
Definition installNpmModules_checkColons (packageNpmDir : Files.path)
  : M unit :=
  if negb (String.eqb (processPlatform E) "win32") then
    pathsWithColons <-
      files_findPathsWithColon (packageNpmDir ++ ["node_modules"]) ;;
    if negb (Nat.eqb (length pathsWithColons) 0) then
      buildmessage_error (Text (colonReport pathsWithColons)) ;;
      throw NpmFailure
    else ret tt
  else ret tt.

Definition installNpmModules (npmDependencies : manifest)
    (packageName : string) (packageNpmDir : Files.path) : M unit :=
  installNpmModules_install npmDependencies packageName packageNpmDir ;;
  installNpmModules_checkColons packageNpmDir.

Definition minimizeShrinkwrap (dir : Files.path) : M unit :=
  topLevel <- getShrinkwrappedDependenciesTree dir ;;
  let minimized := minimizeDependencyTree topLevel in
  files_writeFile (dir ++ ["npm-shrinkwrap.json"])
    (JSON_stringify E minimized ++ Str.nl)%string.

Definition shrinkwrap (dir : Files.path) : M unit :=
  result <- runNpmCommand ["shrinkwrap"] dir ;;
  if negb (success result) then
    buildmessage_error
      (Text ("couldn't run `npm shrinkwrap`: " ++ error result)%string) ;;
    throw NpmFailure
  else minimizeShrinkwrap dir.

(** *** The files of the directory *)

Definition readmeText : string :=
  ("This directory and the files immediately inside it are automatically generated"
   ++ Str.nl ++
   "when you change this package's NPM dependencies. Commit the files in this"
   ++ Str.nl ++
   "directory (npm-shrinkwrap.json, .gitignore, and this README) to source control"
   ++ Str.nl ++
   "so that others run the same versions of sub-dependencies."
   ++ Str.nl ++ Str.nl ++
   "You should NOT check in the node_modules directory that Meteor automatically"
   ++ Str.nl ++
   "creates; if you are using git, the .gitignore file tells git to ignore it."
   ++ Str.nl)%string.

Definition createReadme (packageNpmDir : Files.path) : M unit :=
  files_writeFile (packageNpmDir ++ ["README"]) readmeText.

Definition createNodeVersion (packageNpmDir : Files.path) : M unit :=
  files_writeFile (packageNpmDir ++ ["node_modules"; ".node_version"])
    currentNodeCompatibilityVersion.

Definition createGitIgnore (packageNpmDir : Files.path) : M unit :=
  files_writeFile (packageNpmDir ++ [".gitignore"])
    (Str.join Str.nl ["node_modules"; ""]).

Definition completeNpmDirectory (packageName : string)
    (packageNpmDir : Files.path) (npmDependencies : manifest) : M unit :=
  shrinkwrap packageNpmDir ;;
  files_rename (packageNpmDir ++ ["package.json"])
    (packageNpmDir ++ ["node_modules"; ".package.json"]) ;;
  files_copyFile (packageNpmDir ++ ["npm-shrinkwrap.json"])
    (packageNpmDir ++ ["node_modules"; ".npm-shrinkwrap.json"]) ;;
  createReadme packageNpmDir ;;
  createNodeVersion packageNpmDir ;;
  createGitIgnore packageNpmDir.

Definition logUpdateDependencies (packageName : string)
    (npmDependencies : manifest) : M unit :=
  emit (RunLog (packageName ++ ": updating npm dependencies -- "
                ++ Str.join ", " (Obj.keys npmDependencies) ++ "...")%string).

Definition createFreshNpmDirectory (packageName : string)
    (packageNpmDir : Files.path) (npmDependencies : manifest) (quiet : bool)
  : M unit :=
  when (negb quiet) (logUpdateDependencies packageName npmDependencies) ;;
  installNpmModules npmDependencies packageName packageNpmDir ;;
  completeNpmDirectory packageName packageNpmDir npmDependencies.

(** *** Updating a directory that is there *)

(** Lines 137-144 of [updateExistingNpmDirectory]. *)
Definition updateExisting_sanity (packageNpmDir : Files.path) : M unit :=
  isDir <- files_stat_isDirectory packageNpmDir ;;
  (if negb isDir then
     throw (Error ("Corrupted .npm directory -- should be a directory: "
                   ++ Files.toString packageNpmDir)%string)
   else ret tt) ;;
  hasShrinkwrap <- files_exists (packageNpmDir ++ ["npm-shrinkwrap.json"]) ;;
  if negb hasShrinkwrap then
    throw (Error ("Corrupted .npm directory -- can't find npm-shrinkwrap.json in "
                  ++ Files.toString packageNpmDir)%string)
  else ret tt.

(** Lines 146-165 of [updateExistingNpmDirectory]: the modules are built
    again when the version of Node changed. *)
Definition updateExisting_nodeVersion (packageNpmDir : Files.path) : M unit :=
  let nodeModulesDir := packageNpmDir ++ ["node_modules"] in
  nodeModulesExists <- files_exists nodeModulesDir ;;
  if nodeModulesExists then
    oldNodeVersion <-
      tryCatch
        (files_readFile (packageNpmDir ++ ["node_modules"; ".node_version"]))
        (fun e =>
           match e with
           | FsError Files.ENOENT => ret "v0.8.24"
           | _ => throw e
           end) ;;
    if negb (String.eqb oldNodeVersion currentNodeCompatibilityVersion)
    then files_rm_recursive nodeModulesDir
    else ret tt
  else ret tt.

(** Lines 167-174 of [updateExistingNpmDirectory]. *)
Definition updateExisting_hiddenCopies (packageNpmDir : Files.path)
  : M unit :=
  let nodeModulesDir := packageNpmDir ++ ["node_modules"] in
  incomplete <-
    andM (files_exists nodeModulesDir)
      (orM (notM (files_exists (nodeModulesDir ++ [".package.json"])))
           (notM (files_exists (nodeModulesDir ++ [".npm-shrinkwrap.json"])))) ;;
  when incomplete (files_rm_recursive nodeModulesDir).

Definition updateExistingNpmDirectory (packageName : string)
    (packageNpmDir : Files.path) (npmDependencies : manifest) (quiet : bool)
  : M unit :=
  updateExisting_sanity packageNpmDir ;;
  updateExisting_nodeVersion packageNpmDir ;;
  updateExisting_hiddenCopies packageNpmDir ;;
  nodeModulesDirExisted <- files_exists (packageNpmDir ++ ["node_modules"]) ;;
  installNpmModules npmDependencies packageName packageNpmDir ;;
  (if nodeModulesDirExisted then
     pruneResult <- runNpmCommand ["prune"] packageNpmDir ;;
     when (negb (success pruneResult))
       (buildmessage_error (Result pruneResult)) ;;
     dedupeResult <- runNpmCommand ["dedupe"] packageNpmDir ;;
     when (negb (success dedupeResult))
       (buildmessage_error (Result dedupeResult))
   else ret tt) ;;
  completeNpmDirectory packageName packageNpmDir npmDependencies.

(** *** The two entry points *)

(** The body of the [try] of [updateDependencies] (lines 65-89). *)
Definition updateDependencies_body (packageName : string)
    (packageNpmDir : Files.path) (npmDependencies : manifest) (quiet : bool)
  : M unit :=
  corrupted <-
    andM (files_exists packageNpmDir)
      (notM (files_exists (packageNpmDir ++ ["npm-shrinkwrap.json"]))) ;;
  when corrupted (files_rm_recursive packageNpmDir) ;;
  dirExists <- files_exists packageNpmDir ;;
  if dirExists then
    updateExistingNpmDirectory packageName packageNpmDir npmDependencies quiet
  else
    createFreshNpmDirectory packageName packageNpmDir npmDependencies quiet.

(** The [catch] of [updateDependencies] (lines 90-100). *)
Definition updateDependencies_catch (e : exn) : M bool :=
  match e with
  | NpmFailure => ret false
  | _ => throw e
  end.

(** [npmDependencies] is [None] when the caller passes a falsey value. *)
Definition updateDependencies (packageName : string)
    (packageNpmDir : Files.path) (npmDependencies : option manifest)
    (quiet : bool) : M bool :=
  let falsey := match npmDependencies with None => true | Some _ => false end in
  let dependencies := match npmDependencies with None => [] | Some d => d end in
  if falsey || _isEmpty dependencies then
    let tempPackageNpmDir :=
      Files.addSuffix packageNpmDir ("-temp-" ++ randomToken E)%string in
    renamed <-
      tryCatch
        (files_rename packageNpmDir tempPackageNpmDir ;; ret true)
        (fun e =>
           match e with
           | FsError Files.ENOENT => ret false
           | _ => throw e
           end) ;;
    if renamed then
      files_rm_recursive tempPackageNpmDir ;;
      ret false
    else ret false
  else
    tryCatch
      (updateDependencies_body packageName packageNpmDir dependencies quiet ;;
       ret true)
      updateDependencies_catch.

(** The search of [dependenciesArePortable] in the directory [dir], whose
    node is [n]: what [_.find(...) || false] gives ([None] for [false]),
    and the items the callback of [_.find] was called on, in order. *)
Fixpoint search (dir : Files.path) (n : Files.node)
  : option string * list Files.path :=
  match n with
  | Files.File _ => (None, [])
  | Files.Dir es =>
      let found :=
        (fix find (es : list (string * Files.node))
           : option string * list Files.path :=
           match es with
           | [] => (None, [])
           | (itemName, itemNode) :: rest =>
               let item := dir ++ [itemName] in
               if Str.endsWith ".node" itemName then (Some itemName, [item])
               else
                 match itemNode with
                 | Files.Dir _ =>
                     let sub := search item itemNode in
                     if truthy (fst sub)
                     then (Some itemName, item :: snd sub)
                     else
                       let r := find rest in (fst r, item :: snd sub ++ snd r)
                 | Files.File _ =>
                     let r := find rest in (fst r, item :: snd r)
                 end
           end) es in
      (if truthy (fst found) then fst found else None, snd found)
  end.

Definition dependenciesArePortable (packageNpmDir : Files.path) : M bool :=
  root <- getFs ;;
  let nodeModulesDir := packageNpmDir ++ ["node_modules"] in
  n <- liftErrno (Files.find nodeModulesDir root) ;;
  match n with
  | Files.File _ => throw (FsError Files.ENOTDIR)
  | Files.Dir _ => ret (negb (truthy (fst (search nodeModulesDir n))))
  end.

Definition getShrinkwrappedDependencies (dir : Files.path)
  : M (list (string * option string)) :=
  tree <- getShrinkwrappedDependenciesTree dir ;;
  ret (treeToDependencies tree).

End MeteorNpm.

(** ** A sample environment *)

Module Sample.

Definition isHex (c : ascii) : bool :=
  let n := nat_of_ascii c in
  (Nat.leb 48 n && Nat.leb n 57) || (Nat.leb 97 n && Nat.leb n 102).

(** [run] hexadecimal digits are still to be seen in a row, out of
    [total]. *)
Fixpoint hasHexRun (total run : nat) (s : string) : bool :=
  match run with
  | 0 => true
  | S run' =>
      match s with
      | EmptyString => false
      | String c s' =>
          if isHex c then hasHexRun total run' s'
          else hasHexRun total total s'
      end
  end.

(** Modelled from the spec: [utils.isUrlWithSha] is in
    [tools/utils/utils.js], which is not among the sources. The design
    document speaks of a content-addressed remote-archive URL with an
    embedded integrity hash: here, an http or https URL that holds forty
    hexadecimal digits in a row. The theorems hold for every such test;
    this one serves the examples. *)
Definition urlWithSha (x : option string) : bool :=
  match x with
  | None => false
  | Some s =>
      (Str.startsWith "http://" s || Str.startsWith "https://" s)
      && hasHexRun 40 40 s
  end.

(** A run of npm that does nothing and reports success with an empty
    tree. *)
Definition quietExec (program : Files.path) (args : list string)
    (cwd : Files.path) (n : Files.node) : execResult * Files.node :=
  ({| err := None; exec_stdout := "{}"; exec_stderr := "" |}, n).

Definition emptyTree : npmModule := mkModule None None None [] None.

Definition orUnchanged (n : Files.node) (r : Files.errno + Files.node)
  : Files.node :=
  match r with
  | inl _ => n
  | inr n' => n'
  end.

(** A run of npm that always succeeds: [install] puts a package [gcd]
    under [node_modules], [shrinkwrap] writes [npm-shrinkwrap.json], the
    other commands leave the disk alone. *)
Definition workingExec (program : Files.path) (args : list string)
    (cwd : Files.path) (n : Files.node) : execResult * Files.node :=
  ({| err := None; exec_stdout := "{}"; exec_stderr := "" |},
   match args with
   | "install" :: _ =>
       orUnchanged n
         (Files.writeFile (cwd ++ ["node_modules"; "gcd"; "package.json"])
            "{}" (Files.mkdir_p (cwd ++ ["node_modules"; "gcd"]) n))
   | "shrinkwrap" :: _ =>
       orUnchanged n (Files.writeFile (cwd ++ ["npm-shrinkwrap.json"]) "{}" n)
   | _ => n
   end).

Definition sampleEnv : env := {|
  isUrlWithSha := urlWithSha;
  randomToken := "x1y2z3";
  colonConvert := fun s => s;
  processVersion := "v4.4.7";
  processPlatform := "freebsd";
  osPlatform := "freebsd";
  printNpmCalls := false;
  getCurrentNodeBinDir := ["usr"; "local"; "bin"];
  getUrl := fun _ => true;
  execFile := workingExec;
  JSON_parse := fun _ => Some emptyTree;
  JSON_stringify := fun _ => "{}"
|}.

(** A run of npm whose [install] leaves a file with a colon in its name. *)
Definition colonExec (program : Files.path) (args : list string)
    (cwd : Files.path) (n : Files.node) : execResult * Files.node :=
  ({| err := None; exec_stdout := "{}"; exec_stderr := "" |},
   match args with
   | "install" :: _ =>
       orUnchanged n
         (Files.writeFile (cwd ++ ["node_modules"; "gcd"; "a:b.js"])
            "" (Files.mkdir_p (cwd ++ ["node_modules"; "gcd"]) n))
   | "shrinkwrap" :: _ =>
       orUnchanged n (Files.writeFile (cwd ++ ["npm-shrinkwrap.json"]) "{}" n)
   | _ => n
   end).

Definition colonEnv (platform : string) : env := {|
  isUrlWithSha := urlWithSha;
  randomToken := "x1y2z3";
  colonConvert := fun s => s;
  processVersion := "v4.4.7";
  processPlatform := platform;
  osPlatform := platform;
  printNpmCalls := false;
  getCurrentNodeBinDir := ["usr"; "local"; "bin"];
  getUrl := fun _ => true;
  execFile := colonExec;
  JSON_parse := fun _ => Some emptyTree;
  JSON_stringify := fun _ => "{}"
|}.

(** The same without a network. *)
Definition offlineEnv : env := {|
  isUrlWithSha := urlWithSha;
  randomToken := "x1y2z3";
  colonConvert := fun s => s;
  processVersion := "v4.4.7";
  processPlatform := "freebsd";
  osPlatform := "freebsd";
  printNpmCalls := false;
  getCurrentNodeBinDir := ["usr"; "local"; "bin"];
  getUrl := fun _ => false;
  execFile := workingExec;
  JSON_parse := fun _ => Some emptyTree;
  JSON_stringify := fun _ => "{}"
|}.

Definition stamp : string := ("v4.4.*" ++ Str.nl)%string.

(** The stamp file that an older Node left. *)
Definition olderStamp : list (string * Files.node) :=
  [(".node_version", Files.File ("v0.10.*" ++ Str.nl))].

(** A package with its [.npm] directory as a run of [updateDependencies]
    leaves it, but for the stamp of the version of Node, which is
    [nodeVersion]. *)
Definition installedDisk (nodeVersion : list (string * Files.node))
  : Files.node :=
  Files.Dir
    [("pkg",
      Files.Dir
        [("package.js", Files.File "Npm.depends({gcd: '0.0.0'});");
         (".npm",
          Files.Dir
            [("npm-shrinkwrap.json", Files.File "{}");
             ("README", Files.File "This directory");
             (".gitignore", Files.File "node_modules");
             ("node_modules",
              Files.Dir
                (nodeVersion
                 ++ [(".package.json", Files.File "{}");
                     (".npm-shrinkwrap.json", Files.File "{}");
                     ("gcd",
                      Files.Dir [("package.json", Files.File "{}")])]))])])].

(** The package before its first build, and with a [.npm] directory that
    lacks [npm-shrinkwrap.json]. *)
Definition freshDisk : Files.node :=
  Files.Dir
    [("pkg",
      Files.Dir [("package.js", Files.File "Npm.depends({gcd: '0.0.0'});")])].

Definition corruptedDisk : Files.node :=
  Files.Dir
    [("pkg",
      Files.Dir
        [("package.js", Files.File "Npm.depends({gcd: '0.0.0'});");
         (".npm", Files.Dir [("node_modules", Files.Dir [])])])].

Definition npmDir : Files.path := ["pkg"; ".npm"].

Definition gcdManifest : manifest := [("gcd", "0.0.0")].

Definition start (disk : Files.node) : world :=
  {| fs := disk; trace := [] |}.

End Sample.

(** ** The regular expressions on examples *)

Example registry_pattern :
  matchesRegistry "https://registry.npmjs.org/sockjs/-/sockjs-0.3.4.tgz" = true
  /\ matchesRegistry "https://registryXnpmjs.org/sockjs" = true
  /\ matchesRegistry "http://registry.npmjs.org/sockjs" = false
  /\ matchesRegistry "https://github.com/meteor/gcd/tarball/master" = false.
Proof. repeat split. Qed.

Example node_extension :
  Str.endsWith ".node" "fibers.node" = true
  /\ Str.endsWith ".node" ".node" = true
  /\ Str.endsWith ".node" ".node_version" = false
  /\ Str.endsWith ".node" "node" = false.
Proof. repeat split. Qed.

Example compatibility_versions :
  Str.replaceLastNumber "v0.10.29" = "v0.10.*"
  /\ Str.replaceLastNumber "v4.4.7" = "v4.4.*"
  /\ Str.replaceLastNumber "v5.0.0-rc.1" = "v5.0.0-rc.*"
  /\ Str.replaceLastNumber "v6.0.0-pre" = "v6.0.0-pre"
  /\ currentNodeCompatibilityVersion Sample.sampleEnv = Sample.stamp.
Proof. repeat split. Qed.

Example npm_errors :
  Str.execMissingPattern
    "npm ERR! 404 'no-such-pkg' is not in the npm registry."
  = Some "no-such-pkg"
  /\ Str.execMissingPattern "npm ERR! 404 '' is not in the npm registry."
     = None
  /\ Str.execBadVersionPattern
       "npm ERR! No compatible version found: gcd@'>=9.0.0' and more"
     = Some ("gcd", "'>=9.0.0'")
  /\ Str.execBadVersionPattern "npm ERR! No compatible version found: gcd"
     = None.
Proof. repeat split. Qed.

Example url_with_sha :
  Sample.urlWithSha
    (Some "https://github.com/npm/node-tar/tarball/0123456789abcdef0123456789abcdef01234567")
  = true
  /\ Sample.urlWithSha (Some "https://github.com/npm/node-tar/tarball/master")
     = false
  /\ Sample.urlWithSha (Some "1.0.0") = false
  /\ Sample.urlWithSha None = false.
Proof. repeat split. Qed.

Example decimal : Str.ofNat 0 = "0" /\ Str.ofNat 12 = "12".
Proof. split; reflexivity. Qed.

(** ** Canonical versions and the minimized tree *)

(** The [version] property of a minimized node. *)
Definition lockedVersion (v : jsval) : jsval :=
  match v with
  | JObject props =>
      match Obj.get "version" props with
      | Some x => x
      | None => JUndefined
      end
  | _ => JUndefined
  end.

(** The resolved location of the node is there and not on the default
    registry. *)
Definition nonDefaultResolved (m : npmModule) : bool :=
  match resolved m with
  | Some r => negb (String.eqb r "") && negb (matchesRegistry r)
  | None => false
  end.

(** The Canonical Version in the words of the design document: (1) the
    resolved location when it is there and not on the default registry,
    (2) the [from] specifier when it is a URL with a hash, (3) the plain
    version. *)
Definition specCanonicalVersion (E : env) (m : npmModule) : option string :=
  if nonDefaultResolved m then resolved m
  else if isUrlWithSha E (from m) then from m
  else version m.

Definition dropResolved (m : npmModule) : npmModule :=
  mkModule (version m) (from m) None (other m) (dependencies m).

Lemma get_set_other {A} (k k' : string) (v : A) (o : list (string * A)) :
  String.eqb k k' = false -> Obj.get k (Obj.set k' v o) = Obj.get k o.
Proof.
  intros Hk. induction o as [|[k0 v0] o IH]; simpl.
  - now rewrite Hk.
  - destruct (String.eqb k' k0) eqn:E0; simpl.
    + apply String.eqb_eq in E0. subst k0. now rewrite Hk.
    + destruct (String.eqb k k0); [reflexivity | exact IH].
Qed.

Lemma get_set_same {A} (k : string) (v : A) (o : list (string * A)) :
  Obj.get k (Obj.set k v o) = Some v.
Proof.
  induction o as [|[k0 v0] o IH]; simpl.
  - now rewrite String.eqb_refl.
  - destruct (String.eqb k k0) eqn:E0; simpl.
    + now rewrite String.eqb_refl.
    + now rewrite E0.
Qed.

Lemma lockedVersion_minimizeModule (E : env) (m : npmModule) :
  lockedVersion (minimizeModule E m) = ofOption (specCanonicalVersion E m).
Proof.
  destruct m as [v f r o d]. unfold specCanonicalVersion, nonDefaultResolved.
  destruct d as [deps|]; simpl.
  - destruct r as [r|]; simpl; reflexivity.
  - destruct r as [r|]; simpl; reflexivity.
Qed.

Definition gitNode : npmModule :=
  mkModule (Some "1.0.0") None
    (Some "https://github.com/meteor/gcd/tarball/master") [] None.

(** C1 fails as stated: [canonicalVersion], which is what the installed
    tree is diffed with, does not look at the resolved location. For a node
    with version 1.0.0 that was resolved outside the default registry it
    gives the plain version, where [minimizeModule] writes the resolved
    location. *)
Lemma canonicalVersion_ignores_resolved :
  nonDefaultResolved gitNode = true
  /\ canonicalVersion Sample.sampleEnv gitNode = Some "1.0.0"
  /\ lockedVersion (minimizeModule Sample.sampleEnv gitNode)
     = JString "https://github.com/meteor/gcd/tarball/master"
  /\ ofOption (canonicalVersion Sample.sampleEnv gitNode)
     <> lockedVersion (minimizeModule Sample.sampleEnv gitNode).
Proof.
  repeat split; try reflexivity. vm_compute. discriminate.
Qed.

(** C1, amended: the version that [minimizeModule] writes to the lock tree
    follows the three steps of the precedence; [canonicalVersion] follows
    steps (2) and (3) only, as if the node had no resolved location, so the
    two agree on every node whose resolved location is absent, empty or on
    the default registry; and for a node with a resolved location outside
    the default registry the version written to the lock tree is that
    location. *)
Theorem canonical_version_precedence (E : env) (m : npmModule) :
  lockedVersion (minimizeModule E m) = ofOption (specCanonicalVersion E m)
  /\ canonicalVersion E m = specCanonicalVersion E (dropResolved m)
  /\ (nonDefaultResolved m = false ->
      canonicalVersion E m = specCanonicalVersion E m)
  /\ (nonDefaultResolved m = true ->
      lockedVersion (minimizeModule E m) = ofOption (resolved m)).
Proof.
  split; [apply lockedVersion_minimizeModule|].
  split; [destruct m; reflexivity|].
  split.
  - intros H. unfold specCanonicalVersion. rewrite H. reflexivity.
  - intros H. rewrite lockedVersion_minimizeModule.
    unfold specCanonicalVersion. rewrite H. reflexivity.
Qed.

Definition registryNode : npmModule :=
  mkModule (Some "0.3.4") (Some "sockjs@0.3.4")
    (Some "https://registry.npmjs.org/sockjs/-/sockjs-0.3.4.tgz") [] None.

Lemma canonical_version_precedence_witness :
  canonicalVersion Sample.sampleEnv registryNode
  = specCanonicalVersion Sample.sampleEnv registryNode
  /\ lockedVersion (minimizeModule Sample.sampleEnv gitNode)
     = ofOption (resolved gitNode).
Proof.
  split.
  - apply (canonical_version_precedence Sample.sampleEnv registryNode).
    reflexivity.
  - apply (canonical_version_precedence Sample.sampleEnv gitNode).
    reflexivity.
Defined.

(** *** Objects have each key once *)

Fixpoint distinct (ks : list string) : bool :=
  match ks with
  | [] => true
  | k :: ks' => negb (existsb (String.eqb k) ks') && distinct ks'
  end.

(** Every object of the tree has each key once. *)
Fixpoint wellFormed (m : npmModule) : bool :=
  match dependencies m with
  | None => true
  | Some deps =>
      distinct (Obj.keys deps)
      && forallb (fun kv => wellFormed (snd kv)) deps
  end.

(** The tree without the fields that the code does not read. *)
Fixpoint eraseOther (m : npmModule) : npmModule :=
  mkModule (version m) (from m) (resolved m) []
    (match dependencies m with
     | None => None
     | Some deps => Some (map (fun kv => (fst kv, eraseOther (snd kv))) deps)
     end).

Section ModuleInduction.
Variable P : npmModule -> Prop.

Definition allDependencies (d : option (list (string * npmModule))) : Prop :=
  match d with
  | None => True
  | Some deps => Forall (fun kv => P (snd kv)) deps
  end.

Hypothesis step :
  forall v f r o d, allDependencies d -> P (mkModule v f r o d).

Fixpoint npmModule_induction (m : npmModule) : P m :=
  match m with
  | mkModule v f r o d =>
      step v f r o d
        (match d return allDependencies d with
         | None => I
         | Some deps =>
             (fix all (l : list (string * npmModule))
                : Forall (fun kv => P (snd kv)) l :=
                match l with
                | [] => Forall_nil _
                | kv :: l' =>
                    Forall_cons kv (npmModule_induction (snd kv)) (all l')
                end) deps
         end)
  end.
End ModuleInduction.

Lemma get_keys_absent {A} (k : string) (o : list (string * A)) :
  existsb (String.eqb k) (Obj.keys o) = false -> Obj.get k o = None.
Proof.
  induction o as [|[k0 v0] o IH]; simpl; [reflexivity|].
  intros H. apply orb_false_iff in H. destruct H as [H0 H1].
  rewrite H0. auto.
Qed.

Lemma set_absent {A} (k : string) (v : A) (o : list (string * A)) :
  existsb (String.eqb k) (Obj.keys o) = false -> Obj.set k v o = o ++ [(k, v)].
Proof.
  induction o as [|[k0 v0] o IH]; simpl; [reflexivity|].
  intros H. apply orb_false_iff in H. destruct H as [H0 H1].
  rewrite H0. now rewrite IH.
Qed.

Lemma existsb_eqb_app (k : string) (l1 l2 : list string) :
  existsb (String.eqb k) (l1 ++ l2)
  = existsb (String.eqb k) l1 || existsb (String.eqb k) l2.
Proof. apply existsb_app. Qed.

(** Assigning the properties one by one to an object that has none of
    them lists them in order. *)
Lemma fold_set_distinct {A B} (g : A -> B) (l : list (string * A)) :
  forall acc,
    distinct (Obj.keys acc ++ Obj.keys l) = true ->
    fold_left (fun result kv => Obj.set (fst kv) (g (snd kv)) result) l acc
    = acc ++ map (fun kv => (fst kv, g (snd kv))) l.
Proof.
  induction l as [|[k v] l IH]; intros acc H; simpl.
  - now rewrite app_nil_r.
  - assert (Hk : existsb (String.eqb k) (Obj.keys acc) = false).
    { clear IH. induction acc as [|[k0 v0] acc IHa]; simpl in *;
        [reflexivity|].
      apply andb_true_iff in H. destruct H as [H0 H1].
      apply negb_true_iff in H0. rewrite existsb_app in H0.
      apply orb_false_iff in H0. destruct H0 as [_ H0]. simpl in H0.
      apply orb_false_iff in H0. destruct H0 as [H0 _].
      rewrite String.eqb_sym, H0. simpl. auto. }
    rewrite set_absent by exact Hk.
    rewrite IH.
    + now rewrite <- app_assoc.
    + unfold Obj.keys in *. rewrite map_app. simpl.
      rewrite <- app_assoc. exact H.
Qed.

Lemma distinct_app_r (l1 l2 : list string) :
  distinct (l1 ++ l2) = true -> distinct l2 = true.
Proof.
  induction l1 as [|k l1 IH]; simpl; [auto|].
  intros H. apply andb_true_iff in H. tauto.
Qed.

Lemma fold_set_map {A B} (g : A -> B) (l : list (string * A)) :
  distinct (Obj.keys l) = true ->
  fold_left (fun result kv => Obj.set (fst kv) (g (snd kv)) result) l []
  = map (fun kv => (fst kv, g (snd kv))) l.
Proof. intros H. now rewrite fold_set_distinct. Qed.

(** *** Assignments under computed names *)

Lemma existsb_keys_filter {A} (p : string * A -> bool) (k : string)
    (l : list (string * A)) :
  existsb (String.eqb k) (Obj.keys l) = false ->
  existsb (String.eqb k) (Obj.keys (filter p l)) = false.
Proof.
  unfold Obj.keys. induction l as [|kv l IH]; [reflexivity|].
  cbn [map existsb filter]. intros H.
  apply orb_false_iff in H. destruct H as [H0 H1].
  destruct (p kv); cbn [map existsb].
  - rewrite H0. now apply IH.
  - now apply IH.
Qed.

Lemma distinct_filter {A} (p : string * A -> bool) (l : list (string * A)) :
  distinct (Obj.keys l) = true -> distinct (Obj.keys (filter p l)) = true.
Proof.
  induction l as [|kv l IH]; [reflexivity|].
  unfold Obj.keys in *. cbn [map distinct filter]. intros H.
  apply andb_true_iff in H. destruct H as [H0 H1].
  destruct (p kv); cbn [map distinct].
  - apply negb_true_iff in H0.
    pose proof (existsb_keys_filter p _ l H0) as Hk. unfold Obj.keys in Hk.
    rewrite Hk. now apply IH.
  - now apply IH.
Qed.

Lemma distinct_assignable {A} (o : list (string * A)) :
  distinct (Obj.keys o) = true ->
  distinct (Obj.keys (Obj.assignable o)) = true.
Proof. apply distinct_filter. Qed.

(** Assigning the properties one by one stores those whose name is not
    [__proto__]. *)
Lemma fold_assign_set {A B} (g : A -> B) (l : list (string * A)) :
  forall acc,
    fold_left (fun result kv => Obj.assign (fst kv) (g (snd kv)) result) l acc
    = fold_left (fun result kv => Obj.set (fst kv) (g (snd kv)) result)
        (Obj.assignable l) acc.
Proof.
  induction l as [|[k v] l IH]; intros acc; [reflexivity|].
  cbn [fold_left Obj.assignable filter fst snd]. unfold Obj.assign at 2.
  cbn [fst snd].
  destruct (Obj.isProto k); cbn [negb fold_left fst snd]; apply IH.
Qed.

Lemma fold_assign_map {A B} (g : A -> B) (l : list (string * A)) :
  distinct (Obj.keys l) = true ->
  fold_left (fun result kv => Obj.assign (fst kv) (g (snd kv)) result) l []
  = map (fun kv => (fst kv, g (snd kv))) (Obj.assignable l).
Proof.
  intros H. rewrite fold_assign_set.
  apply fold_set_map, distinct_assignable, H.
Qed.

Lemma assignable_map {A B} (g : A -> B) (l : list (string * A)) :
  Obj.assignable (map (fun kv => (fst kv, g (snd kv))) l)
  = map (fun kv => (fst kv, g (snd kv))) (Obj.assignable l).
Proof.
  induction l as [|[k v] l IH]; [reflexivity|].
  cbn [map Obj.assignable filter fst snd].
  destruct (Obj.isProto k); cbn [negb map fst snd]; [exact IH|].
  f_equal. exact IH.
Qed.

Lemma assignable_idempotent {A} (l : list (string * A)) :
  Obj.assignable (Obj.assignable l) = Obj.assignable l.
Proof.
  induction l as [|[k v] l IH]; [reflexivity|].
  cbn [Obj.assignable filter fst snd].
  destruct (Obj.isProto k) eqn:Hk; cbn [negb]; [exact IH|].
  cbn [filter fst snd]. rewrite Hk. cbn [negb]. f_equal. exact IH.
Qed.

Lemma get_assignable {A} (k : string) (o : list (string * A)) :
  Obj.get k (Obj.assignable o)
  = if Obj.isProto k then None else Obj.get k o.
Proof.
  induction o as [|[k0 v0] o IH]; cbn [Obj.assignable filter Obj.get fst snd].
  - now destruct (Obj.isProto k).
  - destruct (Obj.isProto k0) eqn:H0; cbn [negb Obj.get].
    + fold (Obj.assignable o). rewrite IH.
      destruct (Obj.isProto k) eqn:Hk; [reflexivity|].
      destruct (String.eqb k k0) eqn:Hkk; [|reflexivity].
      apply String.eqb_eq in Hkk. subst k0. congruence.
    + fold (Obj.assignable o). rewrite IH.
      destruct (String.eqb k k0) eqn:Hkk; [|reflexivity].
      apply String.eqb_eq in Hkk. subst k0. now rewrite H0.
Qed.

(** The minimized node, written out. *)
Definition minimizedNode (E : env) (m : npmModule) : jsval :=
  JObject
    (("version", ofOption (specCanonicalVersion E m))
     :: match dependencies m with
        | None => []
        | Some deps =>
            [("dependencies",
              JObject (map (fun kv => (fst kv, minimizeModule E (snd kv)))
                         (Obj.assignable deps)))]
        end).

Lemma minimizeModule_unfold (E : env) (m : npmModule) :
  wellFormed m = true -> minimizeModule E m = minimizedNode E m.
Proof.
  destruct m as [v f r o d]. unfold minimizedNode, specCanonicalVersion,
    nonDefaultResolved.
  destruct d as [deps|]; cbn [minimizeModule dependencies wellFormed].
  - intros H. apply andb_true_iff in H. destruct H as [H _].
    rewrite (fold_assign_map (minimizeModule E) deps H).
    destruct r as [r|]; reflexivity.
  - intros _. destruct r as [r|]; reflexivity.
Qed.

Lemma minimizeModule_eraseOther (E : env) (m : npmModule) :
  minimizeModule E (eraseOther m) = minimizeModule E m.
Proof.
  induction m as [v f r o d IH] using npmModule_induction.
  destruct d as [deps|]; simpl in *; [|reflexivity].
  assert (forall acc,
    fold_left
      (fun result kv =>
         Obj.assign (fst kv) (minimizeModule E (snd kv)) result)
      (map (fun kv => (fst kv, eraseOther (snd kv))) deps) acc
    = fold_left
      (fun result kv =>
         Obj.assign (fst kv) (minimizeModule E (snd kv)) result)
      deps acc) as Hfold.
  { induction IH as [|[k x] l Hx Hl IHl]; intros acc; [reflexivity|].
    cbn [map fold_left fst snd] in *. rewrite Hx. apply IHl. }
  rewrite Hfold. reflexivity.
Qed.

(** The minimized tree in the words of the design document, with the
    [dependencies] field kept for every node that has the field, and
    with the sub-dependencies that an assignment stores, which are all
    but one named [__proto__]: a [version], which is the Canonical
    Version, and the minimized sub-dependencies under their names. *)
Fixpoint specMinimize (E : env) (m : npmModule) : jsval :=
  JObject
    (("version", ofOption (specCanonicalVersion E m))
     :: match dependencies m with
        | None => []
        | Some deps =>
            [("dependencies",
              JObject
                (Obj.assignable
                   (map (fun kv => (fst kv, specMinimize E (snd kv))) deps)))]
        end).

Lemma minimizeModule_specMinimize (E : env) (m : npmModule) :
  wellFormed m = true -> minimizeModule E m = specMinimize E m.
Proof.
  induction m as [v f r o d IH] using npmModule_induction.
  intros Hwf. rewrite minimizeModule_unfold by exact Hwf.
  unfold minimizedNode. destruct d as [deps|]; simpl in *; [|reflexivity].
  apply andb_true_iff in Hwf. destruct Hwf as [_ Hwf].
  assert (map (fun kv => (fst kv, minimizeModule E (snd kv))) deps
          = map (fun kv => (fst kv, specMinimize E (snd kv))) deps) as Hmap.
  { induction IH as [|kv l Hkv Hl IHl]; simpl in *; [reflexivity|].
    apply andb_true_iff in Hwf. destruct Hwf as [H1 H2].
    rewrite Hkv by exact H1. rewrite IHl by exact H2. reflexivity. }
  fold (Obj.assignable deps).
  rewrite <- (assignable_map (minimizeModule E)), Hmap. reflexivity.
Qed.

Lemma minimizeDependencyTree_spec (E : env) (tree : npmModule) :
  wellFormed tree = true ->
  minimizeDependencyTree E tree
  = JObject
      [("dependencies",
        JObject
          (map (fun kv => (fst kv, specMinimize E (snd kv)))
             (Obj.assignable
                (match dependencies tree with
                 | None => []
                 | Some deps => deps
                 end))))].
Proof.
  intros Hwf. unfold minimizeDependencyTree. destruct tree as [v f r o d].
  destruct d as [deps|]; cbn [dependencies wellFormed] in *; [|reflexivity].
  apply andb_true_iff in Hwf. destruct Hwf as [Hd Hwf].
  rewrite (fold_assign_map (minimizeModule E) deps Hd). clear Hd.
  assert (map (fun kv => (fst kv, minimizeModule E (snd kv))) deps
          = map (fun kv => (fst kv, specMinimize E (snd kv))) deps) as Hmap.
  { induction deps as [|kv l IHl]; [reflexivity|].
    cbn [map forallb] in *.
    apply andb_true_iff in Hwf. destruct Hwf as [H1 H2].
    rewrite minimizeModule_specMinimize by exact H1.
    now rewrite IHl. }
  rewrite <- (assignable_map (minimizeModule E)), Hmap.
  now rewrite assignable_map.
Qed.

Definition emptyDependenciesNode : npmModule :=
  mkModule (Some "1.0.0") None None [] (Some []).

(** C2 fails as stated: a node whose [dependencies] field is there and
    empty has no sub-dependency, and its minimized node has a
    [dependencies] field all the same. *)
Lemma minimizeModule_keeps_empty_dependencies :
  dependencies emptyDependenciesNode = Some []
  /\ minimizeModule Sample.sampleEnv emptyDependenciesNode
     = JObject [("version", JString "1.0.0"); ("dependencies", JObject [])].
Proof. split; reflexivity. Qed.

(** C2, amended: [minimizeDependencyTree] is a total function of the tree.
    Each node of its result holds a [version] field, the Canonical
    Version of the node as [minimizeModule] computes it, and, exactly when
    the node of the input has a [dependencies] field (be it empty), a
    [dependencies] field that maps each name to the minimized
    sub-dependency, but for the name [__proto__], whose assignment adds
    no property; a node without that field omits it. No other field of
    the input is read: the result is that of the tree with the other
    fields erased. *)
Theorem minimizeDependencyTree_shape (E : env) (tree : npmModule) :
  wellFormed tree = true ->
  minimizeDependencyTree E tree
  = JObject
      [("dependencies",
        JObject
          (map (fun kv => (fst kv, specMinimize E (snd kv)))
             (Obj.assignable
                (match dependencies tree with
                 | None => []
                 | Some deps => deps
                 end))))]
  /\ minimizeModule E tree = specMinimize E tree
  /\ minimizeDependencyTree E (eraseOther tree) = minimizeDependencyTree E tree.
Proof.
  intros Hwf. split; [|split].
  - apply minimizeDependencyTree_spec, Hwf.
  - apply minimizeModule_specMinimize, Hwf.
  - pose proof (minimizeModule_eraseOther E tree) as H.
    destruct tree as [v f r o d]. unfold minimizeDependencyTree.
    destruct d as [deps|]; simpl in *; [|reflexivity].
    injection H as H. rewrite H. reflexivity.
Qed.

(** The tree of the comment on [getInstalledDependenciesTree]. *)
Definition sockjsTree : npmModule :=
  mkModule (Some "0.0.0") None None [("name", "packages")]
    (Some
       [("sockjs",
         mkModule (Some "0.3.4") (Some "sockjs@0.3.4")
           (Some "https://registry.npmjs.org/sockjs/-/sockjs-0.3.4.tgz") []
           (Some
              [("node-uuid",
                mkModule (Some "1.3.3") None None [] None)]))]).

Lemma minimizeDependencyTree_shape_witness :
  minimizeDependencyTree Sample.sampleEnv sockjsTree
  = JObject
      [("dependencies",
        JObject
          [("sockjs",
            JObject
              [("version", JString "0.3.4");
               ("dependencies",
                JObject
                  [("node-uuid", JObject [("version", JString "1.3.3")])])])])].
Proof.
  destruct (minimizeDependencyTree_shape Sample.sampleEnv sockjsTree)
    as [H _]; [reflexivity|].
  rewrite H. reflexivity.
Defined.

(** A tree as [JSON.parse] makes it of a text with a key [__proto__] at
    two levels. *)
Definition protoTree : npmModule :=
  mkModule (Some "0.0.0") None None []
    (Some
       [("__proto__", mkModule (Some "1.0.0") None None [] None);
        ("gcd",
         mkModule (Some "0.0.0") None None []
           (Some [("__proto__", mkModule (Some "2.0.0") None None [] None)]))]).

(** The sub-dependencies named [__proto__] are not in the minimized
    tree. *)
Lemma minimizeDependencyTree_protoTree :
  wellFormed protoTree = true
  /\ minimizeDependencyTree Sample.sampleEnv protoTree
     = JObject
         [("dependencies",
           JObject
             [("gcd",
               JObject
                 [("version", JString "0.0.0");
                  ("dependencies", JObject [])])])].
Proof. split; reflexivity. Qed.

(** ** The arguments of [npm install] *)

(** The canonical version that [installed[name]] holds for the package
    [name]: that of the installed node, and none when the package is not
    installed; none either under the name [__proto__], for which
    [_.object] stores nothing. *)
Definition installedCanonicalVersion (E : env) (tree : npmModule)
    (name : string) : option string :=
  if Obj.isProto name then None
  else
    match dependencies tree with
    | None => None
    | Some deps =>
        match Obj.get name deps with
        | None => None
        | Some node => canonicalVersion E node
        end
    end.

(** The installed canonical version of the package is not the specifier of
    the manifest. *)
Definition differs (E : env) (tree : npmModule) (kv : string * string)
  : bool :=
  negb (strictEq (installedCanonicalVersion E tree (fst kv)) (Some (snd kv))).

(** The raw specifier when it is a URL with a hash, [name@specifier]
    otherwise. *)
Definition specInstallArg (E : env) (kv : string * string) : string :=
  if isUrlWithSha E (Some (snd kv)) then snd kv
  else (fst kv ++ "@" ++ snd kv)%string.

(** The command line of [npm install]: one argument for each package of
    the manifest that differs, in the order of the manifest. *)
Definition installCommand (E : env) (tree : npmModule)
    (npmDependencies : manifest) : list string :=
  "install" :: map (specInstallArg E) (filter (differs E tree) npmDependencies).

(** The same with the Canonical Version of the design document, which
    looks at the resolved location first. *)
Definition specDiffers (E : env) (tree : npmModule) (kv : string * string)
  : bool :=
  negb (strictEq
          (match dependencies tree with
           | None => None
           | Some deps =>
               match Obj.get (fst kv) deps with
               | None => None
               | Some node => specCanonicalVersion E node
               end
           end)
          (Some (snd kv))).

Lemma map_pair_id {A} (l : list (string * A)) :
  map (fun kv => (fst kv, snd kv)) l = l.
Proof.
  induction l as [|[k v] l IH]; [reflexivity|].
  cbn [map fst snd]. now rewrite IH.
Qed.

Lemma _object_distinct {A} (pairs : list (string * A)) :
  distinct (Obj.keys pairs) = true -> _object pairs = Obj.assignable pairs.
Proof.
  intros H. unfold _object.
  rewrite (fold_assign_map (fun x : A => x) pairs H).
  apply map_pair_id.
Qed.

Lemma get_map_values {A B} (g : A -> B) (k : string) (o : list (string * A)) :
  Obj.get k (map (fun kv => (fst kv, g (snd kv))) o)
  = option_map g (Obj.get k o).
Proof.
  induction o as [|[k0 v0] o IH]; simpl; [reflexivity|].
  destruct (String.eqb k k0); [reflexivity | exact IH].
Qed.

Lemma keys_map_values {A B} (g : A -> B) (o : list (string * A)) :
  Obj.keys (map (fun kv => (fst kv, g (snd kv))) o) = Obj.keys o.
Proof.
  unfold Obj.keys. rewrite map_map. reflexivity.
Qed.

Lemma lookupInstalled_treeToDependencies (E : env) (tree : npmModule)
    (name : string) :
  distinct (Obj.keys (match dependencies tree with
                      | None => []
                      | Some deps => deps
                      end)) = true ->
  lookupInstalled (treeToDependencies E tree) name
  = installedCanonicalVersion E tree name.
Proof.
  unfold lookupInstalled, treeToDependencies, installedCanonicalVersion, _map.
  destruct (dependencies tree) as [deps|]; intros H.
  - rewrite _object_distinct.
    + rewrite get_assignable.
      destruct (Obj.isProto name); [reflexivity|].
      rewrite (get_map_values (canonicalVersion E)).
      destruct (Obj.get name deps); reflexivity.
    + rewrite (keys_map_values (canonicalVersion E)). exact H.
  - now destruct (Obj.isProto name).
Qed.

Lemma fold_push {A} (c : A -> bool) (a : A -> string) (l : list A) :
  forall args,
    fold_left (fun args x => if c x then args ++ [a x] else args) l args
    = args ++ map a (filter c l).
Proof.
  induction l as [|x l IH]; intros args; simpl.
  - now rewrite app_nil_r.
  - rewrite IH. destruct (c x); simpl; [|reflexivity].
    now rewrite <- app_assoc.
Qed.

(** Lines 425-433 with the tree that [npm ls] printed. *)
Lemma installArgs_filter (E : env) (npmDependencies : manifest)
    (tree : npmModule) :
  distinct (Obj.keys (match dependencies tree with
                      | None => []
                      | Some deps => deps
                      end)) = true ->
  installArgs E npmDependencies (treeToDependencies E tree)
  = installCommand E tree npmDependencies.
Proof.
  intros Hd. unfold installArgs, installCommand.
  change ("install" :: map (specInstallArg E)
                         (filter (differs E tree) npmDependencies))
    with (["install"] ++ map (specInstallArg E)
                         (filter (differs E tree) npmDependencies)).
  rewrite <- (fold_push (differs E tree) (specInstallArg E)).
  generalize ["install"].
  induction npmDependencies as [|[name v] l IH]; intros args;
    [reflexivity|].
  cbn [fold_left fst snd]. unfold differs at 2. cbn [fst snd].
  rewrite lookupInstalled_treeToDependencies by exact Hd.
  rewrite IH. reflexivity.
Qed.

(** A package named [__proto__] is passed to [npm install] although the
    tree holds it with the version of the manifest. *)
Lemma installArgs_protoTree :
  installArgs Sample.sampleEnv [("__proto__", "1.0.0"); ("gcd", "0.0.0")]
    (treeToDependencies Sample.sampleEnv protoTree)
  = ["install"; "__proto__@1.0.0"].
Proof. reflexivity. Qed.

Definition installedA : npmModule :=
  mkModule (Some "0.0.0") None None []
    (Some [("a", mkModule (Some "1.0.0") (Some "a@1.0.0")
                   (Some "https://registry.npmjs.org/a/-/a-1.0.0.tgz") []
                   None)]).

(** ** The file system: what deleting and renaming leave alone *)

Lemma get_remove_same {A} (k : string) (o : list (string * A)) :
  Obj.get k (Obj.remove k o) = None.
Proof.
  induction o as [|[k0 v0] o IH]; simpl; [reflexivity|].
  destruct (String.eqb k k0) eqn:E0; simpl; [exact IH|].
  now rewrite E0.
Qed.

Lemma get_remove_other {A} (k k' : string) (o : list (string * A)) :
  String.eqb k k' = false -> Obj.get k (Obj.remove k' o) = Obj.get k o.
Proof.
  intros Hk. induction o as [|[k0 v0] o IH]; simpl; [reflexivity|].
  destruct (String.eqb k' k0) eqn:E0; simpl.
  - apply String.eqb_eq in E0. subst k0. now rewrite Hk.
  - destruct (String.eqb k k0); [reflexivity | exact IH].
Qed.

Lemma get_update_same {A} (k : string) (f : A -> A) (o : list (string * A)) :
  Obj.get k (Obj.update k f o) = option_map f (Obj.get k o).
Proof.
  induction o as [|[k0 v0] o IH]; simpl; [reflexivity|].
  destruct (String.eqb k k0) eqn:E0; simpl.
  - now rewrite String.eqb_refl.
  - now rewrite E0.
Qed.

Lemma get_update_other {A} (k k' : string) (f : A -> A)
    (o : list (string * A)) :
  String.eqb k k' = false -> Obj.get k (Obj.update k' f o) = Obj.get k o.
Proof.
  intros Hk. induction o as [|[k0 v0] o IH]; simpl; [reflexivity|].
  destruct (String.eqb k' k0) eqn:E0; simpl.
  - apply String.eqb_eq in E0. subst k0. now rewrite Hk.
  - destruct (String.eqb k k0); [reflexivity | exact IH].
Qed.

Lemma rm_recursive_keeps_kind (p : Files.path) (n : Files.node) :
  Files.statsOf (Files.rm_recursive p n) = Files.statsOf n
  \/ p = [].
Proof.
  destruct p as [|c p]; [now right|left].
  destruct n as [d|es]; simpl; [reflexivity|].
  destruct p; reflexivity.
Qed.

(** Deleting [p] changes nothing of what [stat] tells of a path that is
    not [p] or below it. *)
Lemma stat_rm_recursive_other (p : Files.path) :
  forall (q : Files.path) (n : Files.node),
    Files.isPrefix p q = false ->
    Files.stat q (Files.rm_recursive p n) = Files.stat q n.
Proof.
  induction p as [|c p IH]; intros q n Hpq; [discriminate|].
  destruct n as [d|es]; [reflexivity|].
  destruct q as [|d q].
  - simpl. destruct p; reflexivity.
  - simpl in Hpq.
    assert (Files.stat (d :: q) (Files.Dir
              (match p with
               | [] => Obj.remove c es
               | _ :: _ => Obj.update c (Files.rm_recursive p) es
               end))
            = Files.stat (d :: q) (Files.Dir es)) as H.
    { unfold Files.stat. simpl.
      destruct (String.eqb c d) eqn:Ecd.
      - apply String.eqb_eq in Ecd. subst d. simpl in Hpq.
        destruct p as [|x p']; [discriminate|].
        rewrite get_update_same.
        destruct (Obj.get c es) as [m|]; simpl; [|reflexivity].
        apply (IH q m Hpq).
      - rewrite String.eqb_sym in Ecd.
        destruct p as [|x p'].
        + now rewrite get_remove_other.
        + now rewrite get_update_other. }
    simpl. destruct p; exact H.
Qed.

(** After [rm -rf p], neither [p] nor a path below it is there. *)
Lemma exists_rm_recursive_below (p : Files.path) :
  forall (q : Files.path) (n : Files.node),
    p <> [] -> Files.isPrefix p q = true ->
    Files.exists_ q (Files.rm_recursive p n) = false.
Proof.
  induction p as [|c p IH]; intros q n Hp Hpq; [congruence|].
  destruct q as [|d q]; [discriminate|].
  simpl in Hpq. apply andb_true_iff in Hpq. destruct Hpq as [Hcd Hpq].
  apply String.eqb_eq in Hcd. subst d.
  destruct n as [d|es]; [reflexivity|].
  unfold Files.exists_. simpl.
  destruct p as [|x p'].
  - simpl. now rewrite get_remove_same.
  - simpl Files.find. rewrite get_update_same.
    destruct (Obj.get c es) as [m|]; simpl; [|reflexivity].
    apply (IH q m); [discriminate | exact Hpq].
Qed.

Lemma isPrefix_refl (p : Files.path) : Files.isPrefix p p = true.
Proof.
  induction p as [|c p IH]; simpl; [reflexivity|].
  now rewrite String.eqb_refl.
Qed.

Lemma isPrefix_app (p q : Files.path) : Files.isPrefix p (p ++ q) = true.
Proof.
  induction p as [|c p IH]; simpl; [reflexivity|].
  now rewrite String.eqb_refl.
Qed.

Lemma exists_rm_recursive_self (p : Files.path) (n : Files.node) :
  p <> [] -> Files.exists_ p (Files.rm_recursive p n) = false.
Proof.
  intros Hp. apply exists_rm_recursive_below; [exact Hp|apply isPrefix_refl].
Qed.

Lemma exists_stat (p : Files.path) (n n' : Files.node) :
  Files.stat p n' = Files.stat p n -> Files.exists_ p n' = Files.exists_ p n.
Proof.
  unfold Files.stat, Files.exists_.
  destruct (Files.find p n'), (Files.find p n); congruence.
Qed.

(** Putting a node at [b] changes nothing of what [stat] tells of a path
    that is not [b] or below it. *)
Lemma stat_put_other (b : Files.path) (x : Files.node) :
  forall (q : Files.path) (n n' : Files.node),
    Files.put b x n = inr n' ->
    Files.isPrefix b q = false ->
    Files.stat q n' = Files.stat q n.
Proof.
  induction b as [|c b IH]; intros q n n' Hput Hbq; [discriminate|].
  destruct n as [d|es]; [discriminate|].
  simpl in Hput.
  destruct q as [|d q].
  - destruct (Obj.get c es) as [m|].
    + destruct (Files.put b x m); [discriminate|].
      injection Hput as <-. reflexivity.
    + destruct b; [|discriminate]. injection Hput as <-. reflexivity.
  - simpl in Hbq. unfold Files.stat.
    destruct (String.eqb c d) eqn:Ecd.
    + apply String.eqb_eq in Ecd. subst d. simpl in Hbq.
      destruct (Obj.get c es) as [m|] eqn:Eget.
      * destruct (Files.put b x m) as [e|m'] eqn:Eput; [discriminate|].
        injection Hput as <-. simpl. rewrite get_set_same, Eget.
        apply (IH q m m' Eput Hbq).
      * destruct b; discriminate.
    + rewrite String.eqb_sym in Ecd.
      destruct (Obj.get c es) as [m|].
      * destruct (Files.put b x m); [discriminate|].
        injection Hput as <-. simpl. now rewrite get_set_other.
      * destruct b; [|discriminate]. injection Hput as <-. simpl.
        now rewrite get_set_other.
Qed.

Lemma length_append (s1 s2 : string) :
  String.length (s1 ++ s2) = String.length s1 + String.length s2.
Proof. induction s1; simpl; congruence. Qed.

Lemma append_longer (c suffix : string) :
  suffix <> "" -> String.eqb (c ++ suffix) c = false.
Proof.
  intros Hs. apply String.eqb_neq. intros H.
  apply (f_equal String.length) in H. rewrite length_append in H.
  destruct suffix; [congruence|]. simpl in H. lia.
Qed.

(** A path and the path with a suffix are not one below the other. *)
Lemma isPrefix_addSuffix_l (p : Files.path) (suffix : string) :
  suffix <> "" -> Files.isPrefix (Files.addSuffix p suffix) p = false.
Proof.
  intros Hs. induction p as [|c p IH]; [reflexivity|].
  destruct p as [|x p'].
  - simpl. now rewrite append_longer.
  - transitivity
      (String.eqb c c
       && Files.isPrefix (Files.addSuffix (x :: p') suffix) (x :: p'));
      [reflexivity|].
    rewrite IH. apply andb_false_r.
Qed.

Lemma isPrefix_addSuffix_r (p : Files.path) (suffix : string) :
  suffix <> "" -> p <> [] ->
  Files.isPrefix p (Files.addSuffix p suffix) = false.
Proof.
  intros Hs Hp. induction p as [|c p IH]; [congruence|].
  destruct p as [|x p'].
  - simpl. rewrite String.eqb_sym, append_longer by exact Hs. reflexivity.
  - transitivity
      (String.eqb c c
       && Files.isPrefix (x :: p') (Files.addSuffix (x :: p') suffix));
      [reflexivity|].
    rewrite IH by discriminate. apply andb_false_r.
Qed.

Lemma put_below (c : string) (b : Files.path) (x m m' : Files.node)
    (es : list (string * Files.node)) :
  Obj.get c es = Some m ->
  Files.put b x m = inr m' ->
  Files.put (c :: b) x (Files.Dir es) = inr (Files.Dir (Obj.set c m' es)).
Proof. intros Hget Hput. simpl. now rewrite Hget, Hput. Qed.

(** Renaming what is at [a] to a name beside it that is not taken
    succeeds. *)
Lemma put_beside (suffix : string) (a : Files.path) :
  forall (n src : Files.node),
    suffix <> "" -> a <> [] ->
    Files.find a n = inr src ->
    Files.exists_ (Files.addSuffix a suffix) n = false ->
    Files.find (Files.addSuffix a suffix) n = inl Files.ENOENT
    /\ exists n',
         Files.put (Files.addSuffix a suffix) src (Files.rm_recursive a n)
         = inr n'.
Proof.
  induction a as [|c a IH]; intros n src Hs Ha Hfind Hfree; [congruence|].
  destruct n as [d|es]; [discriminate|].
  simpl in Hfind.
  destruct (Obj.get c es) as [m|] eqn:Hget; [|discriminate].
  destruct a as [|x a'].
  - simpl in Hfind. injection Hfind as ->.
    unfold Files.exists_ in Hfree. simpl in *.
    destruct (Obj.get (c ++ suffix) es) as [m'|] eqn:Hget'; [discriminate|].
    split; [reflexivity|].
    rewrite get_remove_other, Hget' by now apply append_longer.
    eexists. reflexivity.
  - assert (Files.addSuffix (c :: x :: a') suffix
            = c :: Files.addSuffix (x :: a') suffix) as Heq by reflexivity.
    rewrite Heq in *. clear Heq.
    unfold Files.exists_ in Hfree. cbn [Files.find] in Hfree |- *.
    rewrite Hget in Hfree |- *.
    destruct (IH m src Hs ltac:(discriminate) Hfind) as [Hnone [m' Hput]].
    { unfold Files.exists_. exact Hfree. }
    split; [exact Hnone|].
    change (Files.rm_recursive (c :: x :: a') (Files.Dir es))
      with (Files.Dir (Obj.update c (Files.rm_recursive (x :: a')) es)).
    eexists.
    apply put_below with (m := Files.rm_recursive (x :: a') m);
      [|exact Hput].
    rewrite get_update_same, Hget. reflexivity.
Qed.

Lemma rename_beside (suffix : string) (a : Files.path) (n : Files.node) :
  suffix <> "" -> a <> [] ->
  Files.exists_ a n = true ->
  Files.exists_ (Files.addSuffix a suffix) n = false ->
  exists n', Files.rename a (Files.addSuffix a suffix) n = inr n'.
Proof.
  intros Hs Ha Hex Hfree. unfold Files.rename.
  unfold Files.exists_ in Hex.
  destruct (Files.find a n) as [e|src] eqn:Hfind; [discriminate|].
  rewrite isPrefix_addSuffix_r by assumption.
  destruct (put_beside suffix a n src Hs Ha Hfind Hfree) as [Hnone [n' Hput]].
  rewrite Hnone. exists n'. destruct src; exact Hput.
Qed.

(** After a successful rename to another name, the old name is gone. *)
Lemma exists_rename_source (a b : Files.path) (n n' : Files.node) :
  Files.rename a b n = inr n' ->
  Files.isPrefix b a = false ->
  Files.exists_ a n' = false.
Proof.
  unfold Files.rename. intros H Hba.
  destruct (Files.find a n) as [e|src]; [discriminate|].
  destruct (Files.isPrefix a b) eqn:Hab.
  - rewrite Hba in H. discriminate.
  - assert (Files.put b src (Files.rm_recursive a n) = inr n') as Hput.
    { destruct (Files.find b n) as [[]|[d|[|kv es]]], src; try discriminate;
        exact H. }
    rewrite (exists_stat a (Files.rm_recursive a n) n').
    + apply exists_rm_recursive_self. intros ->. discriminate.
    + apply (stat_put_other b src a _ _ Hput Hba).
Qed.

(** ** [updateDependencies] without dependencies *)

Ltac unfold_monad :=
  cbv beta iota zeta delta
    [bind ret throw tryCatch emit getFs setFs liftErrno when andM orM notM
     files_exists files_stat_isDirectory files_readFile files_rm_recursive
     files_rename files_mkdir_p files_writeFile files_copyFile
     files_findPathsWithColon buildmessage_error fs trace].

Lemma temp_suffix_not_empty (E : env) :
  ("-temp-" ++ randomToken E)%string <> "".
Proof. discriminate. Qed.

(** C4: without dependencies ([npmDependencies] falsey or empty),
    [updateDependencies] renames the directory to its name followed by
    [-temp-] and a random token. When the rename succeeds, it deletes the
    renamed directory, and nothing under the real name, and returns
    [false]; neither name is there afterwards. When the rename fails with
    ENOENT it returns [false] and the disk is as it was. Any other error
    of the rename is thrown on, the disk being as it was. The rename
    succeeds when the directory is there and the temporary name is not
    taken. *)
Theorem updateDependencies_without_dependencies (E : env)
    (packageName : string) (packageNpmDir : Files.path)
    (npmDependencies : option manifest) (quiet : bool) (w : world) :
  npmDependencies = None \/ npmDependencies = Some [] ->
  let temp :=
    Files.addSuffix packageNpmDir ("-temp-" ++ randomToken E)%string in
  (packageNpmDir <> [] ->
   Files.exists_ packageNpmDir (fs w) = true ->
   Files.exists_ temp (fs w) = false ->
   exists renamed, Files.rename packageNpmDir temp (fs w) = inr renamed)
  /\ match Files.rename packageNpmDir temp (fs w) with
  | inr renamed =>
      updateDependencies E packageName packageNpmDir npmDependencies quiet w
      = (inr false,
         {| fs := Files.rm_recursive temp renamed;
            trace := trace w ++ [Rename packageNpmDir temp; RmRecursive temp] |})
      /\ Files.exists_ packageNpmDir (Files.rm_recursive temp renamed) = false
      /\ Files.exists_ temp (Files.rm_recursive temp renamed) = false
  | inl Files.ENOENT =>
      updateDependencies E packageName packageNpmDir npmDependencies quiet w
      = (inr false,
         {| fs := fs w; trace := trace w ++ [Rename packageNpmDir temp] |})
  | inl code =>
      updateDependencies E packageName packageNpmDir npmDependencies quiet w
      = (inl (FsError code),
         {| fs := fs w; trace := trace w ++ [Rename packageNpmDir temp] |})
  end.
Proof.
  intros Hdeps temp. destruct w as [root log]. cbn [fs trace].
  split.
  { intros Hdir Hex Hfree.
    apply rename_beside; [apply temp_suffix_not_empty|assumption ..]. }
  assert (updateDependencies E packageName packageNpmDir npmDependencies
            quiet {| fs := root; trace := log |}
          = match Files.rename packageNpmDir temp root with
            | inr renamed =>
                (inr false,
                 {| fs := Files.rm_recursive temp renamed;
                    trace := log
                             ++ [Rename packageNpmDir temp; RmRecursive temp] |})
            | inl Files.ENOENT =>
                (inr false,
                 {| fs := root; trace := log ++ [Rename packageNpmDir temp] |})
            | inl code =>
                (inl (FsError code),
                 {| fs := root; trace := log ++ [Rename packageNpmDir temp] |})
            end) as Hrun.
  { destruct Hdeps as [-> | ->]; unfold updateDependencies;
      cbv beta iota zeta delta [orb _isEmpty]; unfold_monad; fold temp;
      (destruct (Files.rename packageNpmDir temp root) as [[]|renamed];
       [reflexivity .. |]; rewrite <- app_assoc; reflexivity). }
  destruct (Files.rename packageNpmDir temp root) as [code|renamed] eqn:Hren.
  - destruct code; exact Hrun.
  - split; [exact Hrun|].
    assert (Files.isPrefix temp packageNpmDir = false) as Htp
      by apply isPrefix_addSuffix_l, temp_suffix_not_empty.
    assert (temp <> []) as Htemp.
    { unfold temp. destruct packageNpmDir as [|c [|x p]]; discriminate. }
    split.
    + rewrite (exists_stat packageNpmDir renamed).
      * apply (exists_rename_source _ _ _ _ Hren Htp).
      * apply stat_rm_recursive_other, Htp.
    + apply exists_rm_recursive_self, Htemp.
Qed.

Lemma updateDependencies_without_dependencies_witness :
  updateDependencies Sample.sampleEnv "pkg" Sample.npmDir (Some []) false
    (Sample.start (Sample.installedDisk [(".node_version",
                                          Files.File Sample.stamp)]))
  = (inr false,
     {| fs := Sample.freshDisk;
        trace := [Rename ["pkg"; ".npm"] ["pkg"; ".npm-temp-x1y2z3"];
                  RmRecursive ["pkg"; ".npm-temp-x1y2z3"]] |})
  /\ Files.exists_ Sample.npmDir Sample.freshDisk = false
  /\ Files.exists_ ["pkg"; ".npm-temp-x1y2z3"] Sample.freshDisk = false.
Proof.
  exact (proj2
           (updateDependencies_without_dependencies Sample.sampleEnv "pkg"
              Sample.npmDir (Some []) false
              (Sample.start (Sample.installedDisk [(".node_version",
                                                    Files.File Sample.stamp)]))
              (or_intror eq_refl))).
Defined.

(** ** [updateDependencies] with dependencies *)

(** A first run: the directory is made, with the lock file, the stamp and
    the hidden copies. *)
Example first_run :
  updateDependencies Sample.sampleEnv "pkg" Sample.npmDir
    (Some Sample.gcdManifest) true (Sample.start Sample.freshDisk)
  = (inr true,
     {| fs :=
          Files.Dir
            [("pkg",
              Files.Dir
                [("package.js",
                  Files.File "Npm.depends({gcd: '0.0.0'});");
                 (".npm",
                  Files.Dir
                    [("node_modules",
                      Files.Dir
                        [("gcd",
                          Files.Dir [("package.json", Files.File "{}")]);
                         (".package.json",
                          Files.File ("{}" ++ Str.nl));
                         (".npm-shrinkwrap.json",
                          Files.File ("{}" ++ Str.nl));
                         (".node_version", Files.File Sample.stamp)]);
                     ("npm-shrinkwrap.json", Files.File ("{}" ++ Str.nl));
                     ("README", Files.File (readmeText));
                     (".gitignore",
                      Files.File ("node_modules" ++ Str.nl))])])];
        trace :=
          [MkdirP ["pkg"; ".npm"; "node_modules"];
           WriteFile ["pkg"; ".npm"; "package.json"] ("{}" ++ Str.nl);
           GetUrl "http://registry.npmjs.org";
           ExecFile ["usr"; "local"; "bin"; "npm"] ["ls"; "--json"]
             ["pkg"; ".npm"];
           ExecFile ["usr"; "local"; "bin"; "npm"] ["install"; "gcd@0.0.0"]
             ["pkg"; ".npm"];
           ExecFile ["usr"; "local"; "bin"; "npm"] ["shrinkwrap"]
             ["pkg"; ".npm"];
           WriteFile ["pkg"; ".npm"; "npm-shrinkwrap.json"] ("{}" ++ Str.nl);
           Rename ["pkg"; ".npm"; "package.json"]
             ["pkg"; ".npm"; "node_modules"; ".package.json"];
           CopyFile ["pkg"; ".npm"; "npm-shrinkwrap.json"]
             ["pkg"; ".npm"; "node_modules"; ".npm-shrinkwrap.json"];
           WriteFile ["pkg"; ".npm"; "README"] readmeText;
           WriteFile ["pkg"; ".npm"; "node_modules"; ".node_version"]
             Sample.stamp;
           WriteFile ["pkg"; ".npm"; ".gitignore"]
             ("node_modules" ++ Str.nl)] |}).
Proof. vm_compute. reflexivity. Qed.

(** C7: with dependencies, when the [.npm] directory is there and its
    [npm-shrinkwrap.json] is not, [updateDependencies] deletes the
    directory and then does what [createFreshNpmDirectory] does on the
    disk without the directory; [updateExistingNpmDirectory] is not run. *)
Theorem corrupted_directory_is_recreated (E : env) (packageName : string)
    (packageNpmDir : Files.path) (npmDependencies : manifest) (quiet : bool)
    (w : world) :
  npmDependencies <> [] ->
  packageNpmDir <> [] ->
  Files.exists_ packageNpmDir (fs w) = true ->
  Files.exists_ (packageNpmDir ++ ["npm-shrinkwrap.json"]) (fs w) = false ->
  let deleted :=
    {| fs := Files.rm_recursive packageNpmDir (fs w);
       trace := trace w ++ [RmRecursive packageNpmDir] |} in
  Files.exists_ packageNpmDir (fs deleted) = false
  /\ updateDependencies_body E packageName packageNpmDir npmDependencies
       quiet w
     = createFreshNpmDirectory E packageName packageNpmDir npmDependencies
         quiet deleted
  /\ updateDependencies E packageName packageNpmDir (Some npmDependencies)
       quiet w
     = tryCatch
         (createFreshNpmDirectory E packageName packageNpmDir npmDependencies
            quiet ;;
          ret true)
         updateDependencies_catch deleted.
Proof.
  intros Hdeps Hdir Hex Hsw deleted. destruct w as [root log].
  cbn [fs trace] in *.
  assert (Files.exists_ packageNpmDir (Files.rm_recursive packageNpmDir root)
          = false) as Hgone by apply exists_rm_recursive_self, Hdir.
  assert (updateDependencies_body E packageName packageNpmDir npmDependencies
            quiet {| fs := root; trace := log |}
          = createFreshNpmDirectory E packageName packageNpmDir
              npmDependencies quiet deleted) as Hbody.
  { unfold updateDependencies_body. unfold_monad.
    rewrite Hex, Hsw. cbn [negb]. rewrite Hgone. reflexivity. }
  split; [exact Hgone|]. split; [exact Hbody|].
  destruct npmDependencies as [|kv deps]; [congruence|].
  unfold updateDependencies. cbv beta iota zeta delta [orb _isEmpty].
  unfold tryCatch, bind at 1. rewrite Hbody. reflexivity.
Qed.

Lemma corrupted_directory_is_recreated_witness :
  Files.exists_ Sample.npmDir
    (Files.rm_recursive Sample.npmDir Sample.corruptedDisk) = false
  /\ updateDependencies_body Sample.sampleEnv "pkg" Sample.npmDir
       Sample.gcdManifest true (Sample.start Sample.corruptedDisk)
     = createFreshNpmDirectory Sample.sampleEnv "pkg" Sample.npmDir
         Sample.gcdManifest true
         {| fs := Sample.freshDisk; trace := [RmRecursive Sample.npmDir] |}
  /\ updateDependencies Sample.sampleEnv "pkg" Sample.npmDir
       (Some Sample.gcdManifest) true (Sample.start Sample.corruptedDisk)
     = tryCatch
         (createFreshNpmDirectory Sample.sampleEnv "pkg" Sample.npmDir
            Sample.gcdManifest true ;;
          ret true)
         updateDependencies_catch
         {| fs := Sample.freshDisk; trace := [RmRecursive Sample.npmDir] |}.
Proof.
  apply (corrupted_directory_is_recreated Sample.sampleEnv "pkg"
           Sample.npmDir Sample.gcdManifest true
           (Sample.start Sample.corruptedDisk)).
  - discriminate.
  - discriminate.
  - reflexivity.
  - reflexivity.
Defined.

(** ** The stamp of the version of Node *)

Definition nodeModules (packageNpmDir : Files.path) : Files.path :=
  packageNpmDir ++ ["node_modules"].

Definition nodeVersionFile (packageNpmDir : Files.path) : Files.path :=
  packageNpmDir ++ ["node_modules"; ".node_version"].

(** The world after [files.rm_recursive(nodeModulesDir)]. *)
Definition withoutNodeModules (packageNpmDir : Files.path) (w : world)
  : world :=
  {| fs := Files.rm_recursive (nodeModules packageNpmDir) (fs w);
     trace := trace w ++ [RmRecursive (nodeModules packageNpmDir)] |}.

Lemma nodeModules_not_root (packageNpmDir : Files.path) :
  nodeModules packageNpmDir <> [].
Proof. unfold nodeModules. destruct packageNpmDir; discriminate. Qed.

Lemma isPrefix_sibling (p : Files.path) (x y : string) :
  String.eqb x y = false -> Files.isPrefix (p ++ [x]) (p ++ [y]) = false.
Proof.
  intros Hxy. induction p as [|c p IH]; simpl.
  - now rewrite Hxy.
  - now rewrite String.eqb_refl.
Qed.

(** What the step on the version of Node does, by what the stamp file
    holds. *)
Lemma updateExisting_nodeVersion_run (E : env) (packageNpmDir : Files.path)
    (w : world) :
  Files.exists_ (nodeModules packageNpmDir) (fs w) = true ->
  updateExisting_nodeVersion E packageNpmDir w
  = match Files.readFile (nodeVersionFile packageNpmDir) (fs w) with
    | inr oldNodeVersion =>
        if String.eqb oldNodeVersion (currentNodeCompatibilityVersion E)
        then (inr tt, w)
        else (inr tt, withoutNodeModules packageNpmDir w)
    | inl Files.ENOENT =>
        if String.eqb "v0.8.24" (currentNodeCompatibilityVersion E)
        then (inr tt, w)
        else (inr tt, withoutNodeModules packageNpmDir w)
    | inl code => (inl (FsError code), w)
    end.
Proof.
  intros Hnm. destruct w as [root log].
  unfold updateExisting_nodeVersion, withoutNodeModules, nodeModules,
    nodeVersionFile in *.
  cbn [fs trace] in *. unfold_monad. rewrite Hnm.
  destruct (Files.readFile (packageNpmDir ++ ["node_modules"; ".node_version"])
              root) as [[]|old]; try reflexivity.
  - destruct (String.eqb "v0.8.24" (currentNodeCompatibilityVersion E));
      reflexivity.
  - destruct (String.eqb old (currentNodeCompatibilityVersion E));
      reflexivity.
Qed.

Lemma updateExisting_hiddenCopies_absent (E : env)
    (packageNpmDir : Files.path) (w : world) :
  Files.exists_ (nodeModules packageNpmDir) (fs w) = false ->
  updateExisting_hiddenCopies packageNpmDir w = (inr tt, w).
Proof.
  intros Hnm. destruct w as [root log].
  unfold updateExisting_hiddenCopies, nodeModules in *.
  cbn [fs trace] in *. unfold_monad. rewrite Hnm. reflexivity.
Qed.

(** C8 fails as stated: the markers of the manifest and of the lock that
    a run leaves, [.package.json] and [.npm-shrinkwrap.json], are inside
    [node_modules], and they go with it when the stamp is not the current
    compatibility version. *)
Lemma node_version_change_deletes_hidden_copies :
  Files.exists_ ["pkg"; ".npm"; "node_modules"; ".package.json"]
    (Sample.installedDisk Sample.olderStamp) = true
  /\ Files.exists_ ["pkg"; ".npm"; "node_modules"; ".npm-shrinkwrap.json"]
       (Sample.installedDisk Sample.olderStamp) = true
  /\ fst (updateExisting_nodeVersion Sample.sampleEnv Sample.npmDir
            (Sample.start (Sample.installedDisk Sample.olderStamp)))
     = inr tt
  /\ Files.exists_ ["pkg"; ".npm"; "node_modules"; ".package.json"]
       (fs (snd (updateExisting_nodeVersion Sample.sampleEnv Sample.npmDir
                   (Sample.start (Sample.installedDisk Sample.olderStamp)))))
     = false
  /\ Files.exists_ ["pkg"; ".npm"; "node_modules"; ".npm-shrinkwrap.json"]
       (fs (snd (updateExisting_nodeVersion Sample.sampleEnv Sample.npmDir
                   (Sample.start (Sample.installedDisk Sample.olderStamp)))))
     = false.
Proof. repeat split. Qed.

(** C8, amended: in [updateExistingNpmDirectory], when the stamp that
    [node_modules/.node_version] holds is not the current compatibility
    version, the step deletes [node_modules] and nothing else:
    [node_modules] and every path below it, the hidden copies
    [.package.json] and [.npm-shrinkwrap.json] among them, are not there
    afterwards, and every path that is not [node_modules] or below it is
    as it was (there or not, file or directory, with the same contents),
    among them the lock file [npm-shrinkwrap.json] of the directory. The
    check on the hidden copies that follows deletes nothing more. *)
Theorem node_version_change_deletes_node_modules_only (E : env)
    (packageNpmDir : Files.path) (w : world) (oldNodeVersion : string) :
  Files.exists_ (nodeModules packageNpmDir) (fs w) = true ->
  Files.readFile (nodeVersionFile packageNpmDir) (fs w)
  = inr oldNodeVersion ->
  oldNodeVersion <> currentNodeCompatibilityVersion E ->
  let w' := withoutNodeModules packageNpmDir w in
  updateExisting_nodeVersion E packageNpmDir w = (inr tt, w')
  /\ trace w' = trace w ++ [RmRecursive (nodeModules packageNpmDir)]
  /\ (forall q : Files.path,
        Files.isPrefix (nodeModules packageNpmDir) q = true ->
        Files.exists_ q (fs w') = false)
  /\ (forall q : Files.path,
        Files.isPrefix (nodeModules packageNpmDir) q = false ->
        Files.stat q (fs w') = Files.stat q (fs w))
  /\ Files.stat (packageNpmDir ++ ["npm-shrinkwrap.json"]) (fs w')
     = Files.stat (packageNpmDir ++ ["npm-shrinkwrap.json"]) (fs w)
  /\ updateExisting_hiddenCopies packageNpmDir w' = (inr tt, w').
Proof.
  intros Hnm Hread Hold w'.
  assert (Files.exists_ (nodeModules packageNpmDir) (fs w') = false) as Hgone
    by apply exists_rm_recursive_self, nodeModules_not_root.
  assert (forall q : Files.path,
            Files.isPrefix (nodeModules packageNpmDir) q = false ->
            Files.stat q (fs w') = Files.stat q (fs w)) as Hframe
    by (intros q Hq; apply stat_rm_recursive_other, Hq).
  repeat split.
  - rewrite updateExisting_nodeVersion_run by exact Hnm. rewrite Hread.
    apply String.eqb_neq in Hold. rewrite Hold. reflexivity.
  - intros q Hq.
    apply exists_rm_recursive_below; [apply nodeModules_not_root|exact Hq].
  - exact Hframe.
  - apply Hframe. apply isPrefix_sibling. reflexivity.
  - apply (updateExisting_hiddenCopies_absent E), Hgone.
Qed.

Lemma node_version_change_deletes_node_modules_only_witness :
  updateExisting_nodeVersion Sample.sampleEnv Sample.npmDir
    (Sample.start (Sample.installedDisk
                     [(".node_version", Files.File ("v0.10.*" ++ Str.nl))]))
  = (inr tt,
     {| fs :=
          Files.Dir
            [("pkg",
              Files.Dir
                [("package.js", Files.File "Npm.depends({gcd: '0.0.0'});");
                 (".npm",
                  Files.Dir
                    [("npm-shrinkwrap.json", Files.File "{}");
                     ("README", Files.File "This directory");
                     (".gitignore", Files.File "node_modules")])])];
        trace := [RmRecursive ["pkg"; ".npm"; "node_modules"]] |}).
Proof.
  pose proof
    (node_version_change_deletes_node_modules_only Sample.sampleEnv
       Sample.npmDir
       (Sample.start (Sample.installedDisk Sample.olderStamp))
       ("v0.10.*" ++ Str.nl) eq_refl eq_refl ltac:(discriminate)) as H.
  destruct H as [H _]. exact H.
Defined.

(** The current compatibility version ends with a line feed: it never is
    the fallback. *)
Lemma currentNodeCompatibilityVersion_not_fallback (E : env) :
  currentNodeCompatibilityVersion E <> "v0.8.24".
Proof.
  unfold currentNodeCompatibilityVersion.
  generalize (Str.replaceLastNumber (processVersion E)). intros s H.
  do 7 (destruct s as [|? s]; [discriminate|]; simpl in H;
        injection H as _ H).
  destruct s; discriminate.
Qed.



(** ** Portable dependencies *)

(** Every path below the directory [dir], whose node is [n], a directory
    before what it holds. *)
Fixpoint walk (dir : Files.path) (n : Files.node) : list Files.path :=
  match n with
  | Files.File _ => []
  | Files.Dir es =>
      (fix go (es : list (string * Files.node)) : list Files.path :=
         match es with
         | [] => []
         | (name, item) :: rest =>
             (dir ++ [name]) :: walk (dir ++ [name]) item ++ go rest
         end) es
  end.

Fixpoint walkList (dir : Files.path) (es : list (string * Files.node))
  : list Files.path :=
  match es with
  | [] => []
  | (name, item) :: rest =>
      (dir ++ [name]) :: walk (dir ++ [name]) item ++ walkList dir rest
  end.

(** The callback of [_.find] over the entries of [dir]. *)
Fixpoint searchList (dir : Files.path) (es : list (string * Files.node))
  : option string * list Files.path :=
  match es with
  | [] => (None, [])
  | (itemName, itemNode) :: rest =>
      let item := dir ++ [itemName] in
      if Str.endsWith ".node" itemName then (Some itemName, [item])
      else
        match itemNode with
        | Files.Dir _ =>
            let sub := search item itemNode in
            if truthy (fst sub)
            then (Some itemName, item :: snd sub)
            else
              let r := searchList dir rest in
              (fst r, item :: snd sub ++ snd r)
        | Files.File _ =>
            let r := searchList dir rest in (fst r, item :: snd r)
        end
  end.

Lemma walk_Dir (dir : Files.path) (es : list (string * Files.node)) :
  walk dir (Files.Dir es) = walkList dir es.
Proof.
  simpl. induction es as [|[name item] rest IH]; simpl; [reflexivity|].
  now rewrite IH.
Qed.

Lemma search_Dir (dir : Files.path) (es : list (string * Files.node)) :
  search dir (Files.Dir es)
  = (if truthy (fst (searchList dir es)) then fst (searchList dir es)
     else None,
     snd (searchList dir es)).
Proof.
  assert (forall l,
    (fix find (es : list (string * Files.node))
       : option string * list Files.path :=
       match es with
       | [] => (None, [])
       | (itemName, itemNode) :: rest =>
           let item := dir ++ [itemName] in
           if Str.endsWith ".node" itemName then (Some itemName, [item])
           else
             match itemNode with
             | Files.Dir _ =>
                 let sub := search item itemNode in
                 if truthy (fst sub)
                 then (Some itemName, item :: snd sub)
                 else
                   let r := find rest in (fst r, item :: snd sub ++ snd r)
             | Files.File _ =>
                 let r := find rest in (fst r, item :: snd r)
             end
       end) l = searchList dir l) as H.
  { induction l as [|[name item] rest IH]; [reflexivity|].
    cbn [searchList]. rewrite <- IH. reflexivity. }
  cbn [search]. rewrite H. reflexivity.
Qed.

(** The name of the path ends in [.node]. *)
Definition isNodeFile (p : Files.path) : bool :=
  Str.endsWith ".node" (last p "").

(** The list up to its first element that satisfies [f], this element
    included. *)
Fixpoint takeUntil {A} (f : A -> bool) (l : list A) : list A :=
  match l with
  | [] => []
  | x :: l' => if f x then [x] else x :: takeUntil f l'
  end.

(** No file or directory has the empty name. *)
Fixpoint wellNamed (n : Files.node) : bool :=
  match n with
  | Files.File _ => true
  | Files.Dir es =>
      forallb (fun kv => negb (String.eqb (fst kv) "") && wellNamed (snd kv))
        es
  end.

Section NodeInduction.
Variable P : Files.node -> Prop.
Hypothesis file : forall d, P (Files.File d).
Hypothesis dir :
  forall es, Forall (fun kv => P (snd kv)) es -> P (Files.Dir es).

Fixpoint node_induction (n : Files.node) : P n :=
  match n with
  | Files.File d => file d
  | Files.Dir es =>
      dir es
        ((fix all (l : list (string * Files.node))
            : Forall (fun kv => P (snd kv)) l :=
            match l with
            | [] => Forall_nil _
            | kv :: l' => Forall_cons kv (node_induction (snd kv)) (all l')
            end) es)
  end.
End NodeInduction.

Lemma takeUntil_app {A} (f : A -> bool) (a b : list A) :
  takeUntil f (a ++ b)
  = if existsb f a then takeUntil f a else a ++ takeUntil f b.
Proof.
  induction a as [|x a IH]; simpl; [reflexivity|].
  destruct (f x); simpl; [reflexivity|].
  rewrite IH. destruct (existsb f a); reflexivity.
Qed.

Lemma takeUntil_none {A} (f : A -> bool) (a : list A) :
  existsb f a = false -> takeUntil f a = a.
Proof.
  induction a as [|x a IH]; simpl; [reflexivity|].
  destruct (f x); simpl; [discriminate|].
  intros H. now rewrite IH.
Qed.

Lemma isNodeFile_item (dir : Files.path) (name : string) :
  isNodeFile (dir ++ [name]) = Str.endsWith ".node" name.
Proof. unfold isNodeFile. now rewrite last_last. Qed.

Lemma truthy_Some (name : string) :
  String.eqb name "" = false -> truthy (Some name) = true.
Proof. intros H. simpl. now rewrite H. Qed.

(** The search finds a name exactly when a name below ends in [.node], and
    it has looked at the paths up to the first such name. *)
Lemma search_walk (n : Files.node) :
  forall dir : Files.path,
    wellNamed n = true ->
    truthy (fst (search dir n)) = existsb isNodeFile (walk dir n)
    /\ snd (search dir n) = takeUntil isNodeFile (walk dir n).
Proof.
  induction n as [d|es IH] using node_induction; intros dir Hwn;
    [split; reflexivity|].
  rewrite search_Dir, walk_Dir. cbn [fst snd].
  assert (truthy (fst (searchList dir es))
          = existsb isNodeFile (walkList dir es)
          /\ snd (searchList dir es)
             = takeUntil isNodeFile (walkList dir es)) as [H1 H2].
  { simpl in Hwn.
    induction IH as [|[name item] rest Hitem Hrest IHrest];
      [split; reflexivity|].
    simpl in Hwn. apply andb_true_iff in Hwn. destruct Hwn as [Hname Hwn].
    apply andb_true_iff in Hname. destruct Hname as [Hname Hitemwn].
    apply negb_true_iff in Hname.
    destruct (IHrest Hwn) as [R1 R2].
    cbn [searchList walkList existsb takeUntil]. rewrite isNodeFile_item.
    destruct (Str.endsWith ".node" name) eqn:Hend.
    - cbn [fst snd]. split; [now apply truthy_Some|reflexivity].
    - rewrite existsb_app, takeUntil_app. cbn [orb].
      destruct item as [d|sub].
      + cbn [walk existsb app fst snd orb]. split; [exact R1|].
        now rewrite R2.
      + cbn [snd] in Hitem.
        destruct (Hitem (dir ++ [name]) Hitemwn) as [S1 S2].
        rewrite <- S1.
        destruct (truthy (fst (search (dir ++ [name]) (Files.Dir sub))))
          eqn:Hsub; cbn [fst snd orb].
        * split; [now apply truthy_Some | now rewrite S2].
        * split; [exact R1|]. rewrite S2, R2.
          rewrite takeUntil_none by (now rewrite <- S1). reflexivity. }
  split; [|exact H2].
  rewrite <- H1. destruct (truthy (fst (searchList dir es))) eqn:Ht;
    [exact Ht | reflexivity].
Qed.

(** C9: when [node_modules] is a directory, [dependenciesArePortable]
    returns [false] exactly when the name of some file or directory below
    [node_modules] ends in [.node]; it changes neither the disk nor the
    log; and its search goes through the paths depth first, a directory
    before what it holds, and looks at nothing after the first name that
    ends in [.node]. *)
Theorem dependenciesArePortable_scan (packageNpmDir : Files.path)
    (w : world) (es : list (string * Files.node)) :
  Files.find (nodeModules packageNpmDir) (fs w) = inr (Files.Dir es) ->
  wellNamed (Files.Dir es) = true ->
  dependenciesArePortable packageNpmDir w
  = (inr (negb (existsb isNodeFile
                  (walk (nodeModules packageNpmDir) (Files.Dir es)))),
     w)
  /\ snd (search (nodeModules packageNpmDir) (Files.Dir es))
     = takeUntil isNodeFile (walk (nodeModules packageNpmDir) (Files.Dir es)).
Proof.
  intros Hfind Hwn.
  destruct (search_walk (Files.Dir es) (nodeModules packageNpmDir) Hwn)
    as [H1 H2].
  split; [|exact H2].
  unfold dependenciesArePortable. destruct w as [root log].
  cbn [fs trace] in *. unfold_monad.
  change (packageNpmDir ++ ["node_modules"])
    with (nodeModules packageNpmDir).
  rewrite Hfind. rewrite H1. reflexivity.
Qed.

Definition nativeDisk : Files.node :=
  Files.Dir
    [("pkg",
      Files.Dir
        [(".npm",
          Files.Dir
            [("node_modules",
              Files.Dir
                [("fibers",
                  Files.Dir
                    [("package.json", Files.File "{}");
                     ("bin", Files.Dir [("fibers.node", Files.File "ELF")]);
                     ("fibers.js", Files.File "module.exports")]);
                 ("gcd", Files.Dir [("package.json", Files.File "{}")])])])])].

Lemma dependenciesArePortable_scan_witness :
  dependenciesArePortable Sample.npmDir (Sample.start nativeDisk)
  = (inr false, Sample.start nativeDisk)
  /\ snd (search (nodeModules Sample.npmDir)
            (Files.Dir
               [("fibers",
                 Files.Dir
                   [("package.json", Files.File "{}");
                    ("bin", Files.Dir [("fibers.node", Files.File "ELF")]);
                    ("fibers.js", Files.File "module.exports")]);
                ("gcd", Files.Dir [("package.json", Files.File "{}")])]))
     = [["pkg"; ".npm"; "node_modules"; "fibers"];
        ["pkg"; ".npm"; "node_modules"; "fibers"; "package.json"];
        ["pkg"; ".npm"; "node_modules"; "fibers"; "bin"];
        ["pkg"; ".npm"; "node_modules"; "fibers"; "bin"; "fibers.node"]].
Proof.
  exact (dependenciesArePortable_scan Sample.npmDir (Sample.start nativeDisk)
           _ eq_refl eq_refl).
Defined.

(** ** Running the pieces one after the other *)

Lemma bind_ok {A B} (m : M A) (k : A -> M B) (w w' : world) (a : A) :
  m w = (inr a, w') -> bind m k w = k a w'.
Proof. intros H. unfold bind. now rewrite H. Qed.

Lemma bind_fail {A B} (m : M A) (k : A -> M B) (w w' : world) (e : exn) :
  m w = (inl e, w') -> bind m k w = (inl e, w').
Proof. intros H. unfold bind. now rewrite H. Qed.

Lemma bind_inv {A B} (m : M A) (k : A -> M B) (w w' : world) (b : B) :
  bind m k w = (inr b, w') ->
  exists a w0, m w = (inr a, w0) /\ k a w0 = (inr b, w').
Proof.
  unfold bind. destruct (m w) as [[e|a] w0]; [discriminate|].
  intros H. now exists a, w0.
Qed.

(** With dependencies, [updateDependencies] returns [true] when the body
    of its [try] returns, [false] when the body throws [NpmFailure], and
    throws what the body throws otherwise. *)
Lemma updateDependencies_with_dependencies (E : env) (packageName : string)
    (packageNpmDir : Files.path) (npmDependencies : manifest) (quiet : bool)
    (w : world) :
  npmDependencies <> [] ->
  updateDependencies E packageName packageNpmDir (Some npmDependencies) quiet w
  = match updateDependencies_body E packageName packageNpmDir npmDependencies
            quiet w with
    | (inr _, w') => (inr true, w')
    | (inl NpmFailure, w') => (inr false, w')
    | (inl e, w') => (inl e, w')
    end.
Proof.
  intros Hdeps. destruct npmDependencies as [|kv deps]; [congruence|].
  unfold updateDependencies. cbv beta iota zeta delta [orb _isEmpty].
  unfold tryCatch, bind at 1.
  destruct (updateDependencies_body E packageName packageNpmDir (kv :: deps)
              quiet w) as [[[]|u] w']; reflexivity.
Qed.

Lemma updateDependencies_body_fresh (E : env) (packageName : string)
    (packageNpmDir : Files.path) (npmDependencies : manifest) (quiet : bool)
    (w : world) :
  Files.exists_ packageNpmDir (fs w) = false ->
  updateDependencies_body E packageName packageNpmDir npmDependencies quiet w
  = createFreshNpmDirectory E packageName packageNpmDir npmDependencies
      quiet w.
Proof.
  intros Hex. destruct w as [root log]. cbn [fs] in Hex.
  unfold updateDependencies_body. unfold_monad. rewrite Hex.
  cbv beta iota. rewrite Hex. reflexivity.
Qed.

Lemma updateDependencies_body_existing (E : env) (packageName : string)
    (packageNpmDir : Files.path) (npmDependencies : manifest) (quiet : bool)
    (w : world) :
  Files.exists_ packageNpmDir (fs w) = true ->
  Files.exists_ (packageNpmDir ++ ["npm-shrinkwrap.json"]) (fs w) = true ->
  updateDependencies_body E packageName packageNpmDir npmDependencies quiet w
  = updateExistingNpmDirectory E packageName packageNpmDir npmDependencies
      quiet w.
Proof.
  intros Hex Hsw. destruct w as [root log]. cbn [fs] in Hex, Hsw.
  unfold updateDependencies_body. unfold_monad. rewrite Hex, Hsw.
  cbn [negb]. rewrite Hex. reflexivity.
Qed.

(** ** File names with colons *)

(** The lines of the report in the words of the design document: the
    first ten paths, and the number of the others when there are more. *)
Definition reportLines (paths : list string) : list string :=
  firstn 10 paths
  ++ (if Nat.leb (length paths) 10 then []
      else [("... " ++ Str.ofNat (length paths - 10)
             ++ " paths omitted.")%string]).

(** The world after the report on the paths. *)
Definition reported (paths : list string) (w : world) : world :=
  {| fs := fs w;
     trace := trace w ++ [BuildmessageError (Text (colonReport paths))] |}.

(** The paths below [node_modules], whose node is [n], that hold a
    colon. *)
Definition pathsWithColons (n : Files.node) : list string :=
  filter (Str.contains ":"%char) (Files.pathsBelow "" n).

Lemma checkColons_run (E : env) (packageNpmDir : Files.path) (w : world)
    (n : Files.node) :
  Files.find (nodeModules packageNpmDir) (fs w) = inr n ->
  installNpmModules_checkColons E packageNpmDir w
  = if String.eqb (processPlatform E) "win32" then (inr tt, w)
    else
      match pathsWithColons n with
      | [] => (inr tt, w)
      | _ :: _ => (inl NpmFailure, reported (pathsWithColons n) w)
      end.
Proof.
  intros Hfind. destruct w as [root log]. cbn [fs] in Hfind.
  unfold installNpmModules_checkColons, reported, pathsWithColons.
  destruct (String.eqb (processPlatform E) "win32"); [reflexivity|].
  cbn [negb]. unfold_monad. unfold Files.findPathsWithColon.
  change (packageNpmDir ++ ["node_modules"])
    with (nodeModules packageNpmDir).
  rewrite Hfind.
  destruct (filter (Str.contains ":"%char) (Files.pathsBelow "" n));
    reflexivity.
Qed.

Lemma checkColons_win32 (E : env) (packageNpmDir : Files.path) (w : world) :
  processPlatform E = "win32" ->
  installNpmModules_checkColons E packageNpmDir w = (inr tt, w).
Proof.
  intros H. unfold installNpmModules_checkColons. rewrite H. reflexivity.
Qed.

Lemma colonReport_lines (paths : list string) :
  colonReport paths
  = (colonReportHeader ++ Str.join Str.nl (reportLines paths))%string.
Proof.
  unfold colonReport, reportLines.
  destruct (Nat.ltb_spec 10 (length paths)) as [H|H];
    destruct (Nat.leb_spec (length paths) 10) as [H'|H']; try lia.
  - reflexivity.
  - now rewrite app_nil_r.
Qed.

Example report_with_overflow :
  colonReport ["a:1"; "a:2"; "a:3"; "a:4"; "a:5"; "a:6"; "a:7"; "a:8"; "a:9";
               "a:10"; "a:11"; "a:12"]
  = (colonReportHeader
     ++ Str.join Str.nl
          ["a:1"; "a:2"; "a:3"; "a:4"; "a:5"; "a:6"; "a:7"; "a:8"; "a:9";
           "a:10"; "... 2 paths omitted."])%string.
Proof. reflexivity. Qed.

(** C6: the check of the file names is made exactly when
    [process.platform] is not [win32]: on [win32], [installNpmModules]
    goes on after [npm install] whatever the names are; elsewhere it goes
    on when no path below [node_modules] holds a colon, and when some do
    it reports them and throws [NpmFailure], so that [updateDependencies]
    returns [false], on a fresh directory as on one that was there. The
    report lists the first ten paths at most and, when there are more, the
    number of the others. *)
Theorem colon_check (E : env) (packageName : string)
    (packageNpmDir : Files.path) (npmDependencies : manifest) (quiet : bool)
    (w w1 : world) (n : Files.node) :
  Files.find (nodeModules packageNpmDir) (fs w1) = inr n ->
  let paths := pathsWithColons n in
  (processPlatform E = "win32" ->
   forall w2, installNpmModules_checkColons E packageNpmDir w2 = (inr tt, w2))
  /\ (processPlatform E <> "win32" ->
      installNpmModules_checkColons E packageNpmDir w1
      = match paths with
        | [] => (inr tt, w1)
        | _ :: _ => (inl NpmFailure, reported paths w1)
        end)
  /\ colonReport paths
     = (colonReportHeader ++ Str.join Str.nl (reportLines paths))%string
  /\ length (firstn 10 paths) <= 10
  /\ (10 < length paths ->
      length (firstn 10 paths) + (length paths - 10) = length paths)
  /\ (npmDependencies <> [] ->
      processPlatform E <> "win32" ->
      paths <> [] ->
      Files.exists_ packageNpmDir (fs w) = false ->
      (when (negb quiet) (logUpdateDependencies packageName npmDependencies) ;;
       installNpmModules_install E npmDependencies packageName packageNpmDir)
        w
      = (inr tt, w1) ->
      updateDependencies E packageName packageNpmDir (Some npmDependencies)
        quiet w
      = (inr false, reported paths w1))
  /\ (npmDependencies <> [] ->
      processPlatform E <> "win32" ->
      paths <> [] ->
      Files.exists_ packageNpmDir (fs w) = true ->
      Files.exists_ (packageNpmDir ++ ["npm-shrinkwrap.json"]) (fs w) = true ->
      (updateExisting_sanity packageNpmDir ;;
       updateExisting_nodeVersion E packageNpmDir ;;
       updateExisting_hiddenCopies packageNpmDir ;;
       installNpmModules_install E npmDependencies packageName packageNpmDir)
        w
      = (inr tt, w1) ->
      updateDependencies E packageName packageNpmDir (Some npmDependencies)
        quiet w
      = (inr false, reported paths w1)).
Proof.
  intros Hfind paths.
  assert (processPlatform E <> "win32" -> paths <> [] ->
          installNpmModules_checkColons E packageNpmDir w1
          = (inl NpmFailure, reported paths w1)) as Hfail.
  { intros Hp Hpaths. rewrite (checkColons_run E _ _ n Hfind).
    apply String.eqb_neq in Hp. rewrite Hp. fold paths.
    destruct paths; [congruence | reflexivity]. }
  split; [intros Hp w2; now apply checkColons_win32|].
  split.
  { intros Hp. rewrite (checkColons_run E _ _ n Hfind).
    apply String.eqb_neq in Hp. now rewrite Hp. }
  split; [apply colonReport_lines|].
  split; [apply firstn_le_length|].
  split.
  { intros Hlen. rewrite length_firstn. lia. }
  split.
  - intros Hdeps Hp Hpaths Hex Hpre.
    rewrite updateDependencies_with_dependencies by exact Hdeps.
    rewrite updateDependencies_body_fresh by exact Hex.
    unfold createFreshNpmDirectory, installNpmModules.
    apply bind_inv in Hpre. destruct Hpre as (u & w0 & Hlog & Hinst).
    rewrite (bind_ok _ _ _ _ _ Hlog).
    rewrite (bind_fail _ _ _ (reported paths w1) NpmFailure);
      [reflexivity|].
    rewrite (bind_ok _ _ _ _ _ Hinst). now apply Hfail.
  - intros Hdeps Hp Hpaths Hex Hsw Hpre.
    rewrite updateDependencies_with_dependencies by exact Hdeps.
    rewrite updateDependencies_body_existing by assumption.
    unfold updateExistingNpmDirectory, installNpmModules.
    apply bind_inv in Hpre. destruct Hpre as (u1 & wa & Hsan & Hpre).
    apply bind_inv in Hpre. destruct Hpre as (u2 & wb & Hnv & Hpre).
    apply bind_inv in Hpre. destruct Hpre as (u3 & wc & Hhc & Hinst).
    rewrite (bind_ok _ _ _ _ _ Hsan).
    rewrite (bind_ok _ _ _ _ _ Hnv).
    rewrite (bind_ok _ _ _ _ _ Hhc).
    unfold files_exists at 1. unfold getFs, bind at 1, bind at 1, ret at 1.
    rewrite (bind_fail _ _ _ (reported paths w1) NpmFailure);
      [reflexivity|].
    rewrite (bind_ok _ _ _ _ _ Hinst). now apply Hfail.
Qed.

(** The world after [npm install] left a file with a colon in a fresh
    directory. *)
Definition colonWorld : world :=
  {| fs :=
       Files.Dir
         [("pkg",
           Files.Dir
             [("package.js", Files.File "Npm.depends({gcd: '0.0.0'});");
              (".npm",
               Files.Dir
                 [("node_modules",
                   Files.Dir [("gcd", Files.Dir [("a:b.js", Files.File "")])]);
                  ("package.json", Files.File ("{}" ++ Str.nl))])])];
     trace :=
       [MkdirP ["pkg"; ".npm"; "node_modules"];
        WriteFile ["pkg"; ".npm"; "package.json"] ("{}" ++ Str.nl);
        GetUrl "http://registry.npmjs.org";
        ExecFile ["usr"; "local"; "bin"; "npm"] ["ls"; "--json"]
          ["pkg"; ".npm"];
        ExecFile ["usr"; "local"; "bin"; "npm"] ["install"; "gcd@0.0.0"]
          ["pkg"; ".npm"]] |}.

Lemma colon_check_witness :
  updateDependencies (Sample.colonEnv "freebsd") "pkg" Sample.npmDir
    (Some Sample.gcdManifest) true (Sample.start Sample.freshDisk)
  = (inr false, reported ["gcd/a:b.js"] colonWorld)
  /\ installNpmModules_checkColons (Sample.colonEnv "win32") Sample.npmDir
       colonWorld
     = (inr tt, colonWorld).
Proof.
  split.
  - destruct (colon_check (Sample.colonEnv "freebsd") "pkg" Sample.npmDir
                Sample.gcdManifest true (Sample.start Sample.freshDisk)
                colonWorld
                (Files.Dir [("gcd", Files.Dir [("a:b.js", Files.File "")])])
                eq_refl)
      as (_ & _ & _ & _ & _ & H & _).
    apply H.
    + discriminate.
    + discriminate.
    + discriminate.
    + reflexivity.
    + reflexivity.
  - destruct (colon_check (Sample.colonEnv "win32") "pkg" Sample.npmDir
                Sample.gcdManifest true (Sample.start Sample.freshDisk)
                colonWorld
                (Files.Dir [("gcd", Files.Dir [("a:b.js", Files.File "")])])
                eq_refl)
      as (H & _).
    apply H. reflexivity.
Defined.

(** ** When npm cannot do its work *)

(** When the body of the [try] throws [NpmFailure], whatever the cause,
    [updateDependencies] returns [false], in the world as the body left
    it. *)
Lemma updateDependencies_recovers (E : env) (packageName : string)
    (packageNpmDir : Files.path) (npmDependencies : manifest) (quiet : bool)
    (w w' : world) :
  npmDependencies <> [] ->
  updateDependencies_body E packageName packageNpmDir npmDependencies quiet w
  = (inl NpmFailure, w') ->
  updateDependencies E packageName packageNpmDir (Some npmDependencies) quiet w
  = (inr false, w').
Proof.
  intros Hdeps Hbody.
  rewrite updateDependencies_with_dependencies by exact Hdeps.
  now rewrite Hbody.
Qed.

(** C5 does not hold of the code: without a network, on a directory whose
    modules were built with another version of Node,
    [updateDependencies] returns [false] after it deleted [node_modules]
    with the installed package and wrote [package.json]; and on a package
    without a [.npm] directory it returns [false] after it made the
    directory. Nothing is rolled back. *)
Theorem failure_leaves_directory_changed :
  (let w :=
     Sample.start (Sample.installedDisk Sample.olderStamp) in
   let r :=
     updateDependencies Sample.offlineEnv "pkg" Sample.npmDir
       (Some Sample.gcdManifest) true w in
   fst r = inr false
   /\ Files.exists_ ["pkg"; ".npm"; "node_modules"; "gcd"; "package.json"]
        (fs w) = true
   /\ Files.exists_ ["pkg"; ".npm"; "node_modules"; "gcd"; "package.json"]
        (fs (snd r)) = false
   /\ Files.exists_ ["pkg"; ".npm"; "package.json"] (fs w) = false
   /\ Files.exists_ ["pkg"; ".npm"; "package.json"] (fs (snd r)) = true
   /\ trace (snd r)
      = [RmRecursive ["pkg"; ".npm"; "node_modules"];
         MkdirP ["pkg"; ".npm"; "node_modules"];
         WriteFile ["pkg"; ".npm"; "package.json"] ("{}" ++ Str.nl);
         GetUrl "http://registry.npmjs.org";
         BuildmessageError
           (Text "Can't install npm dependencies. Are you connected to the internet?")])
  /\ (let w := Sample.start Sample.freshDisk in
      let r :=
        updateDependencies Sample.offlineEnv "pkg" Sample.npmDir
          (Some Sample.gcdManifest) true w in
      fst r = inr false
      /\ Files.exists_ Sample.npmDir (fs w) = false
      /\ Files.exists_ Sample.npmDir (fs (snd r)) = true).
Proof. vm_compute. repeat split. Qed.

(** * More of the module *)

(** ** The compatibility version *)

Lemma allDigits_with_dot (a b : string) :
  Str.allDigits (a ++ String "."%char b) = false.
Proof.
  induction a as [|c a IH]; simpl; [reflexivity|].
  rewrite IH. apply andb_false_r.
Qed.

Lemma string_app_assoc (a b c : string) :
  ((a ++ b) ++ c = a ++ b ++ c)%string.
Proof. induction a as [|x a IH]; simpl; congruence. Qed.

(** A version that ends in a dot and a number has the number replaced. *)
Lemma replaceLastNumber_patch (p d : string) :
  d <> "" -> Str.allDigits d = true ->
  Str.replaceLastNumber (p ++ String "."%char d) = (p ++ ".*")%string.
Proof.
  intros Hd Hdigits. induction p as [|c p IH]; simpl.
  - apply String.eqb_neq in Hd. rewrite Hd, Hdigits. reflexivity.
  - rewrite allDigits_with_dot, andb_false_r, IH. reflexivity.
Qed.

(** X1: two versions of Node that differ in their last number only (two
    patch releases) have the same compatibility version, the common part
    followed by a star and a line feed; so under the one of them
    [updateExistingNpmDirectory] keeps a [node_modules] that was stamped
    under the other. *)
Theorem patch_release_keeps_node_modules (E1 E2 : env) (p d1 d2 : string)
    (packageNpmDir : Files.path) (w : world) :
  d1 <> "" -> Str.allDigits d1 = true ->
  d2 <> "" -> Str.allDigits d2 = true ->
  processVersion E1 = (p ++ String "."%char d1)%string ->
  processVersion E2 = (p ++ String "."%char d2)%string ->
  currentNodeCompatibilityVersion E1 = (p ++ ".*" ++ Str.nl)%string
  /\ currentNodeCompatibilityVersion E2 = currentNodeCompatibilityVersion E1
  /\ (Files.exists_ (nodeModules packageNpmDir) (fs w) = true ->
      Files.readFile (nodeVersionFile packageNpmDir) (fs w)
      = inr (currentNodeCompatibilityVersion E1) ->
      updateExisting_nodeVersion E2 packageNpmDir w = (inr tt, w)).
Proof.
  intros Hd1 Ha1 Hd2 Ha2 H1 H2.
  assert (currentNodeCompatibilityVersion E1 = (p ++ ".*" ++ Str.nl)%string)
    as Hc1.
  { unfold currentNodeCompatibilityVersion. rewrite H1.
    rewrite replaceLastNumber_patch by assumption.
    apply string_app_assoc. }
  assert (currentNodeCompatibilityVersion E2 = (p ++ ".*" ++ Str.nl)%string)
    as Hc2.
  { unfold currentNodeCompatibilityVersion. rewrite H2.
    rewrite replaceLastNumber_patch by assumption.
    apply string_app_assoc. }
  split; [exact Hc1|]. split; [congruence|].
  intros Hnm Hread.
  rewrite updateExisting_nodeVersion_run by exact Hnm.
  rewrite Hread, Hc1, <- Hc2, String.eqb_refl. reflexivity.
Qed.

Definition patchedEnv : env := {|
  isUrlWithSha := Sample.urlWithSha;
  randomToken := "x1y2z3";
  colonConvert := fun s => s;
  processVersion := "v4.4.12";
  processPlatform := "freebsd";
  osPlatform := "freebsd";
  printNpmCalls := false;
  getCurrentNodeBinDir := ["usr"; "local"; "bin"];
  getUrl := fun _ => true;
  execFile := Sample.workingExec;
  JSON_parse := fun _ => Some Sample.emptyTree;
  JSON_stringify := fun _ => "{}"
|}.

Lemma patch_release_keeps_node_modules_witness :
  currentNodeCompatibilityVersion patchedEnv = Sample.stamp
  /\ updateExisting_nodeVersion patchedEnv Sample.npmDir
       (Sample.start
          (Sample.installedDisk [(".node_version", Files.File Sample.stamp)]))
     = (inr tt,
        Sample.start
          (Sample.installedDisk [(".node_version", Files.File Sample.stamp)])).
Proof.
  destruct (patch_release_keeps_node_modules Sample.sampleEnv patchedEnv
              "v4.4" "7" "12" Sample.npmDir
              (Sample.start
                 (Sample.installedDisk
                    [(".node_version", Files.File Sample.stamp)])))
    as (H1 & H2 & H3); try reflexivity; try discriminate.
  split.
  - rewrite H2. exact H1.
  - apply H3; reflexivity.
Defined.

(** ** Minimizing what is minimized *)

Definition stringField (k : string) (props : list (string * jsval))
  : option string :=
  match Obj.get k props with
  | Some (JString s) => Some s
  | _ => None
  end.

(** The object [v] read as a node of a dependency tree, as
    [minimizeDependencyTree] reads its argument: the strings under
    [version], [from] and [resolved], and the object under
    [dependencies]. *)
Fixpoint asTree (v : jsval) : npmModule :=
  match v with
  | JObject props =>
      mkModule (stringField "version" props) (stringField "from" props)
        (stringField "resolved" props) []
        ((fix scan (ps : list (string * jsval))
            : option (list (string * npmModule)) :=
            match ps with
            | [] => None
            | (k, x) :: rest =>
                if String.eqb "dependencies" k then
                  match x with
                  | JObject deps =>
                      Some
                        ((fix each (ds : list (string * jsval))
                            : list (string * npmModule) :=
                            match ds with
                            | [] => []
                            | (name, d) :: ds' => (name, asTree d) :: each ds'
                            end) deps)
                  | _ => None
                  end
                else scan rest
            end) props)
  | _ => mkModule None None None [] None
  end.

Lemma each_map (g : npmModule -> jsval) (l : list (string * npmModule)) :
  (fix each (ds : list (string * jsval)) : list (string * npmModule) :=
     match ds with
     | [] => []
     | (name, d) :: ds' => (name, asTree d) :: each ds'
     end) (map (fun kv => (fst kv, g (snd kv))) l)
  = map (fun kv => (fst kv, asTree (g (snd kv)))) l.
Proof.
  induction l as [|[name x] l IH]; [reflexivity|].
  cbn [map fst snd]. now rewrite IH.
Qed.

Lemma asTree_specMinimize (E : env) (m : npmModule) :
  asTree (specMinimize E m)
  = mkModule (specCanonicalVersion E m) None None []
      (match dependencies m with
       | None => None
       | Some deps =>
           Some (map (fun kv => (fst kv, asTree (specMinimize E (snd kv))))
                   (Obj.assignable deps))
       end).
Proof.
  destruct m as [v f r o d]. cbn [specMinimize dependencies].
  assert (forall x : option string,
            stringField "version" (("version", ofOption x) :: nil) = x /\
            forall y, stringField "version"
                        [("version", ofOption x); ("dependencies", y)] = x)
    as Hv by (intros [s|]; split; reflexivity).
  destruct d as [deps|]; cbn [asTree].
  - rewrite (proj2 (Hv _)). cbn [stringField Obj.get String.eqb Ascii.eqb
                                 Bool.eqb]. simpl String.eqb.
    rewrite (assignable_map (specMinimize E)).
    now rewrite (each_map (specMinimize E)).
  - rewrite (proj1 (Hv _)). reflexivity.
Qed.

Lemma Forall_assignable {A} (P : string * A -> Prop) (l : list (string * A)) :
  Forall P l -> Forall P (Obj.assignable l).
Proof.
  intros H. apply Forall_forall. intros x Hx.
  apply filter_In in Hx. destruct Hx as [Hx _].
  revert x Hx. now apply Forall_forall.
Qed.

Lemma forallb_assignable {A} (p : string * A -> bool) (l : list (string * A)) :
  forallb p l = true -> forallb p (Obj.assignable l) = true.
Proof.
  intros H. apply forallb_forall. intros x Hx.
  apply filter_In in Hx. destruct Hx as [Hx _].
  revert x Hx. now apply forallb_forall.
Qed.

Lemma wellFormed_readBack (E : env) (deps : list (string * npmModule)) :
  distinct (Obj.keys deps) = true ->
  Forall (fun kv => wellFormed (asTree (specMinimize E (snd kv))) = true)
    deps ->
  wellFormed
    (mkModule None None None []
       (Some (map (fun kv => (fst kv, asTree (specMinimize E (snd kv))))
                (Obj.assignable deps)))) = true.
Proof.
  intros Hd Hall. cbn [wellFormed dependencies].
  rewrite (keys_map_values (fun x => asTree (specMinimize E x))).
  rewrite (distinct_assignable deps Hd). cbn [andb].
  apply Forall_assignable in Hall.
  induction Hall as [|kv l Hkv Hl IHl]; [reflexivity|].
  cbn [map forallb fst snd]. now rewrite Hkv, IHl.
Qed.

Lemma wellFormed_asTree_specMinimize (E : env) (m : npmModule) :
  wellFormed m = true -> wellFormed (asTree (specMinimize E m)) = true.
Proof.
  induction m as [v f r o d IH] using npmModule_induction.
  intros Hwf. rewrite asTree_specMinimize.
  destruct d as [deps|]; [|reflexivity].
  cbn [dependencies wellFormed allDependencies] in *.
  apply andb_true_iff in Hwf. destruct Hwf as [Hd Hwf].
  apply (wellFormed_readBack E deps Hd).
  rewrite forallb_forall in Hwf. rewrite Forall_forall in *.
  intros x Hx. apply (IH x Hx), Hwf, Hx.
Qed.

(** Minimizing the sub-dependencies that were read back gives the
    minimized sub-dependencies again. *)
Lemma specMinimize_readBack (E : env) (deps : list (string * npmModule)) :
  Forall (fun kv => specMinimize E (asTree (specMinimize E (snd kv)))
                    = specMinimize E (snd kv)) deps ->
  Obj.assignable
    (map (fun kv => (fst kv, specMinimize E (snd kv)))
       (map (fun kv => (fst kv, asTree (specMinimize E (snd kv))))
          (Obj.assignable deps)))
  = Obj.assignable (map (fun kv => (fst kv, specMinimize E (snd kv))) deps).
Proof.
  intros Hall.
  rewrite (assignable_map (specMinimize E)).
  rewrite (assignable_map (fun x => asTree (specMinimize E x))
             (Obj.assignable deps)).
  rewrite assignable_idempotent.
  rewrite (assignable_map (specMinimize E) deps).
  apply Forall_assignable in Hall.
  induction Hall as [|kv l Hkv Hl IHl]; [reflexivity|].
  cbn [map fst snd]. now rewrite Hkv, IHl.
Qed.

Lemma specMinimize_asTree (E : env) (m : npmModule) :
  isUrlWithSha E None = false ->
  specMinimize E (asTree (specMinimize E m)) = specMinimize E m.
Proof.
  intros Hnone. induction m as [v f r o d IH] using npmModule_induction.
  rewrite asTree_specMinimize.
  cbn [specMinimize dependencies].
  assert (forall x ds,
            specCanonicalVersion E (mkModule x None None [] ds) = x) as Hcv.
  { intros x ds. unfold specCanonicalVersion, nonDefaultResolved.
    cbn [resolved from version]. now rewrite Hnone. }
  rewrite Hcv. destruct d as [deps|]; [|reflexivity].
  cbn [allDependencies] in IH.
  now rewrite (specMinimize_readBack E deps IH).
Qed.

(** X2: when [utils.isUrlWithSha(undefined)] is false,
    [minimizeDependencyTree] applied to the tree it made gives this tree
    again: a lock file that is minimized is not changed when it is
    minimized once more. *)
Theorem minimizeDependencyTree_idempotent (E : env) (tree : npmModule) :
  isUrlWithSha E None = false ->
  wellFormed tree = true ->
  minimizeDependencyTree E (asTree (minimizeDependencyTree E tree))
  = minimizeDependencyTree E tree.
Proof.
  intros Hnone Hwf.
  rewrite (minimizeDependencyTree_spec E tree Hwf).
  set (deps := match dependencies tree with
               | None => []
               | Some deps => deps
               end).
  assert (distinct (Obj.keys deps) = true
          /\ forallb (fun kv => wellFormed (snd kv)) deps = true)
    as [Hd Hall].
  { subst deps. destruct tree as [v f r o [deps|]];
      cbn [dependencies wellFormed] in *; [|split; reflexivity].
    now apply andb_true_iff in Hwf. }
  assert (asTree
            (JObject
               [("dependencies",
                 JObject (map (fun kv => (fst kv, specMinimize E (snd kv)))
                            (Obj.assignable deps)))])
          = mkModule None None None []
              (Some (map (fun kv => (fst kv, asTree (specMinimize E (snd kv))))
                       (Obj.assignable deps)))) as Has.
  { cbn [asTree stringField Obj.get]. simpl String.eqb.
    now rewrite (each_map (specMinimize E)). }
  rewrite Has. rewrite minimizeDependencyTree_spec.
  - cbn [dependencies].
    rewrite <- (assignable_map (specMinimize E)).
    rewrite specMinimize_readBack.
    + now rewrite (assignable_map (specMinimize E)).
    + apply Forall_forall. intros x _. now apply specMinimize_asTree.
  - apply (wellFormed_readBack E deps Hd).
    rewrite forallb_forall in Hall. apply Forall_forall. intros x Hx.
    apply wellFormed_asTree_specMinimize, Hall, Hx.
Qed.

Lemma minimizeDependencyTree_idempotent_witness :
  minimizeDependencyTree Sample.sampleEnv
    (asTree (minimizeDependencyTree Sample.sampleEnv sockjsTree))
  = minimizeDependencyTree Sample.sampleEnv sockjsTree.
Proof.
  apply (minimizeDependencyTree_idempotent Sample.sampleEnv sockjsTree);
    reflexivity.
Defined.

(** ** What running npm gives *)

(** The program that [runNpmCommand] runs. *)
Definition npmPath (E : env) : Files.path :=
  if String.eqb (osPlatform E) "win32"
  then getCurrentNodeBinDir E ++ ["npm.cmd"]
  else getCurrentNodeBinDir E ++ ["npm"].

(** The result that [runNpmCommand] makes of what [execFile] reports. *)
Definition resultOf (r : execResult) : npmResult :=
  {| success := match err r with Some _ => false | None => true end;
     error := match err r with
              | Some msg => (msg ++ exec_stderr r)%string
              | None => exec_stderr r
              end;
     stdout := exec_stdout r;
     stderr := exec_stderr r |}.

(** What a run of npm adds to the log. *)
Definition npmEvents (E : env) (args : list string) (cwd : Files.path)
    (r : execResult) : list event :=
  (if printNpmCalls E
   then [ProcessStdout
           ("cd " ++ Files.toString cwd ++ " && " ++ Files.toString (npmPath E)
            ++ " " ++ Str.join " " args ++ " ..." ++ Str.nl)%string]
   else [])
  ++ [ExecFile (npmPath E) args cwd]
  ++ (if printNpmCalls E
      then [ProcessStdout
              (match err r with
               | Some _ => "failed" ++ Str.nl
               | None => "done" ++ Str.nl
               end)%string]
      else []).

(** The world after npm ran with [args] in [cwd]. *)
Definition afterNpm (E : env) (args : list string) (cwd : Files.path)
    (w : world) : world :=
  {| fs := snd (execFile E (npmPath E) args cwd (fs w));
     trace := trace w
              ++ npmEvents E args cwd
                   (fst (execFile E (npmPath E) args cwd (fs w))) |}.

Definition ranNpm (E : env) (args : list string) (cwd : Files.path)
    (w : world) : npmResult :=
  resultOf (fst (execFile E (npmPath E) args cwd (fs w))).

Lemma runNpmCommand_run (E : env) (args : list string) (cwd : Files.path)
    (w : world) :
  runNpmCommand E args cwd w
  = (inr (ranNpm E args cwd w), afterNpm E args cwd w).
Proof.
  destruct w as [root log].
  unfold runNpmCommand, ranNpm, afterNpm, npmEvents, resultOf, npmPath.
  cbn [fs trace]. unfold_monad.
  destruct (printNpmCalls E); cbn [app fst snd]; unfold_monad.
  - rewrite <- !app_assoc. reflexivity.
  - reflexivity.
Qed.

Definition isExecFile (e : event) : bool :=
  match e with
  | ExecFile _ _ _ => true
  | _ => false
  end.

Definition isWriteFile (e : event) : bool :=
  match e with
  | WriteFile _ _ => true
  | _ => false
  end.

Lemma npmEvents_exec (E : env) (args : list string) (cwd : Files.path)
    (r : execResult) :
  filter isExecFile (npmEvents E args cwd r) = [ExecFile (npmPath E) args cwd]
  /\ filter isWriteFile (npmEvents E args cwd r) = [].
Proof. unfold npmEvents. destruct (printNpmCalls E); split; reflexivity. Qed.

(** The world with one more report to [buildmessage]. *)
Definition withError (text : string) (w : world) : world :=
  {| fs := fs w; trace := trace w ++ [BuildmessageError (Text text)] |}.

(** X4: [getInstalledDependenciesTree] returns the tree that [npm ls
    --json] printed whenever the output parses, also when npm reported an
    error, and then reports nothing. When the output does not parse, it
    reports the error of npm and throws [NpmFailure] if npm failed, and
    throws the [SyntaxError] on if npm succeeded. *)
Theorem getInstalledDependenciesTree_errors (E : env) (dir : Files.path)
    (w : world) :
  (forall tree,
     JSON_parse E (stdout (ranNpm E ["ls"; "--json"] dir w)) = Some tree ->
     getInstalledDependenciesTree E dir w
     = (inr tree, afterNpm E ["ls"; "--json"] dir w))
  /\ (JSON_parse E (stdout (ranNpm E ["ls"; "--json"] dir w)) = None ->
      success (ranNpm E ["ls"; "--json"] dir w) = false ->
      getInstalledDependenciesTree E dir w
      = (inl NpmFailure,
         withError
           ("couldn't read npm version lock information: "
            ++ error (ranNpm E ["ls"; "--json"] dir w))
           (afterNpm E ["ls"; "--json"] dir w)))
  /\ (JSON_parse E (stdout (ranNpm E ["ls"; "--json"] dir w)) = None ->
      success (ranNpm E ["ls"; "--json"] dir w) = true ->
      getInstalledDependenciesTree E dir w
      = (inl SyntaxError, afterNpm E ["ls"; "--json"] dir w)).
Proof.
  unfold getInstalledDependenciesTree.
  rewrite (bind_ok _ _ _ _ _ (runNpmCommand_run E ["ls"; "--json"] dir w)).
  split; [|split].
  - intros tree ->. reflexivity.
  - intros -> ->. reflexivity.
  - intros -> ->. reflexivity.
Qed.

(** An npm that fails and prints a tree all the same. *)
Definition complainingExec (program : Files.path) (args : list string)
    (cwd : Files.path) (n : Files.node) : execResult * Files.node :=
  ({| err := Some "Command failed. ";
      exec_stdout := "{}";
      exec_stderr := "npm ERR! code 1" |}, n).

Definition complainingEnv : env := {|
  isUrlWithSha := Sample.urlWithSha;
  randomToken := "x1y2z3";
  colonConvert := fun s => s;
  processVersion := "v4.4.7";
  processPlatform := "freebsd";
  osPlatform := "freebsd";
  printNpmCalls := true;
  getCurrentNodeBinDir := ["usr"; "local"; "bin"];
  getUrl := fun _ => true;
  execFile := complainingExec;
  JSON_parse := fun s => if String.eqb s "{}" then Some sockjsTree else None;
  JSON_stringify := fun _ => "{}"
|}.

Lemma getInstalledDependenciesTree_errors_witness :
  getInstalledDependenciesTree complainingEnv Sample.npmDir
    (Sample.start Sample.freshDisk)
  = (inr sockjsTree,
     {| fs := Sample.freshDisk;
        trace :=
          [ProcessStdout
             ("cd pkg/.npm && usr/local/bin/npm ls --json ..." ++ Str.nl);
           ExecFile ["usr"; "local"; "bin"; "npm"] ["ls"; "--json"]
             ["pkg"; ".npm"];
           ProcessStdout ("failed" ++ Str.nl)] |}).
Proof.
  apply (getInstalledDependenciesTree_errors complainingEnv Sample.npmDir
           (Sample.start Sample.freshDisk)).
  reflexivity.
Defined.

Definition lockFile (dir : Files.path) : Files.path :=
  dir ++ ["npm-shrinkwrap.json"].

(** X5: [shrinkwrap] writes the lock file only when [npm shrinkwrap]
    succeeded and left a lock file that parses: it then replaces the file
    by its minimized tree. When npm failed, it reports the error and
    throws [NpmFailure]. When npm succeeded and the lock file cannot be
    read or does not parse, it throws the error of the reading or the
    [SyntaxError], which [updateDependencies] does not catch. *)
Theorem shrinkwrap_failures (E : env) (dir : Files.path) (w : world) :
  (success (ranNpm E ["shrinkwrap"] dir w) = false ->
   shrinkwrap E dir w
   = (inl NpmFailure,
      withError
        ("couldn't run `npm shrinkwrap`: "
         ++ error (ranNpm E ["shrinkwrap"] dir w))
        (afterNpm E ["shrinkwrap"] dir w)))
  /\ (success (ranNpm E ["shrinkwrap"] dir w) = true ->
      forall code,
        Files.readFile (lockFile dir) (fs (afterNpm E ["shrinkwrap"] dir w))
        = inl code ->
        shrinkwrap E dir w
        = (inl (FsError code), afterNpm E ["shrinkwrap"] dir w))
  /\ (success (ranNpm E ["shrinkwrap"] dir w) = true ->
      forall text,
        Files.readFile (lockFile dir) (fs (afterNpm E ["shrinkwrap"] dir w))
        = inr text ->
        JSON_parse E text = None ->
        shrinkwrap E dir w
        = (inl SyntaxError, afterNpm E ["shrinkwrap"] dir w))
  /\ (success (ranNpm E ["shrinkwrap"] dir w) = true ->
      forall text tree,
        Files.readFile (lockFile dir) (fs (afterNpm E ["shrinkwrap"] dir w))
        = inr text ->
        JSON_parse E text = Some tree ->
        shrinkwrap E dir w
        = files_writeFile (lockFile dir)
            (JSON_stringify E (minimizeDependencyTree E tree) ++ Str.nl)
            (afterNpm E ["shrinkwrap"] dir w)).
Proof.
  unfold shrinkwrap.
  rewrite (bind_ok _ _ _ _ _ (runNpmCommand_run E ["shrinkwrap"] dir w)).
  generalize (ranNpm E ["shrinkwrap"] dir w) as r.
  generalize (afterNpm E ["shrinkwrap"] dir w) as w1.
  intros [root log] r. unfold lockFile. cbn [fs].
  split; [intros ->; reflexivity|].
  split; [|split].
  - intros -> code Hread. cbn [negb].
    unfold minimizeShrinkwrap, getShrinkwrappedDependenciesTree.
    unfold_monad. rewrite Hread. reflexivity.
  - intros -> text Hread Hparse. cbn [negb].
    unfold minimizeShrinkwrap, getShrinkwrappedDependenciesTree.
    unfold_monad. rewrite Hread. cbv beta iota. rewrite Hparse. reflexivity.
  - intros -> text tree Hread Hparse. cbn [negb].
    unfold minimizeShrinkwrap, getShrinkwrappedDependenciesTree.
    unfold_monad. rewrite Hread. cbv beta iota. rewrite Hparse. reflexivity.
Qed.

Lemma shrinkwrap_failures_witness :
  shrinkwrap complainingEnv Sample.npmDir (Sample.start Sample.freshDisk)
  = (inl NpmFailure,
     {| fs := Sample.freshDisk;
        trace :=
          [ProcessStdout
             ("cd pkg/.npm && usr/local/bin/npm shrinkwrap ..." ++ Str.nl);
           ExecFile ["usr"; "local"; "bin"; "npm"] ["shrinkwrap"]
             ["pkg"; ".npm"];
           ProcessStdout ("failed" ++ Str.nl);
           BuildmessageError
             (Text "couldn't run `npm shrinkwrap`: Command failed. npm ERR! code 1")] |}).
Proof.
  apply (shrinkwrap_failures complainingEnv Sample.npmDir
           (Sample.start Sample.freshDisk)).
  reflexivity.
Defined.

(** X6: without a network, [installNpmModules] runs no npm: it makes
    [node_modules], writes [package.json], finds the registry out of
    reach, reports it and throws [NpmFailure]; when [package.json] cannot
    be written it throws the error of the writing. *)
Theorem installNpmModules_offline (E : env) (npmDependencies : manifest)
    (packageName : string) (packageNpmDir : Files.path) (w : world)
    (packageJson : string) :
  getUrl E "http://registry.npmjs.org" = false ->
  packageJson
  = (JSON_stringify E
       (JObject
          [("name",
            JString ("packages-for-meteor-" ++ colonConvert E packageName));
           ("version", JString "0.0.0");
           ("dependencies",
            JObject (map (fun kv => (fst kv, JString (snd kv)))
                       npmDependencies))])
     ++ Str.nl)%string ->
  installNpmModules E npmDependencies packageName packageNpmDir w
  = match Files.writeFile (packageNpmDir ++ ["package.json"]) packageJson
            (Files.mkdir_p (nodeModules packageNpmDir) (fs w)) with
    | inr written =>
        (inl NpmFailure,
         {| fs := written;
            trace :=
              trace w
              ++ [MkdirP (nodeModules packageNpmDir);
                  WriteFile (packageNpmDir ++ ["package.json"]) packageJson;
                  GetUrl "http://registry.npmjs.org";
                  BuildmessageError
                    (Text "Can't install npm dependencies. Are you connected to the internet?")] |})
    | inl code =>
        (inl (FsError code),
         {| fs := Files.mkdir_p (nodeModules packageNpmDir) (fs w);
            trace :=
              trace w
              ++ [MkdirP (nodeModules packageNpmDir);
                  WriteFile (packageNpmDir ++ ["package.json"]) packageJson] |})
    end.
Proof.
  intros Hurl ->. destruct w as [root log]. cbn [fs trace].
  unfold installNpmModules, installNpmModules_install, constructPackageJson,
    ensureConnected, nodeModules.
  unfold_monad. rewrite Hurl.
  destruct (Files.writeFile _ _ _) as [code|written]; cbv beta iota.
  - rewrite <- app_assoc. reflexivity.
  - rewrite <- !app_assoc. reflexivity.
Qed.

Lemma installNpmModules_offline_witness :
  installNpmModules Sample.offlineEnv Sample.gcdManifest "pkg" Sample.npmDir
    (Sample.start Sample.freshDisk)
  = (inl NpmFailure,
     {| fs :=
          Files.Dir
            [("pkg",
              Files.Dir
                [("package.js", Files.File "Npm.depends({gcd: '0.0.0'});");
                 (".npm",
                  Files.Dir
                    [("node_modules", Files.Dir []);
                     ("package.json", Files.File ("{}" ++ Str.nl))])])];
        trace :=
          [MkdirP ["pkg"; ".npm"; "node_modules"];
           WriteFile ["pkg"; ".npm"; "package.json"] ("{}" ++ Str.nl);
           GetUrl "http://registry.npmjs.org";
           BuildmessageError
             (Text "Can't install npm dependencies. Are you connected to the internet?")] |}).
Proof.
  exact (installNpmModules_offline Sample.offlineEnv Sample.gcdManifest "pkg"
           Sample.npmDir (Sample.start Sample.freshDisk) ("{}" ++ Str.nl)
           eq_refl eq_refl).
Defined.

(** ** What a run that succeeds leaves *)

Lemma find_put_same (p : Files.path) (x : Files.node) :
  forall n n', Files.put p x n = inr n' -> Files.find p n' = inr x.
Proof.
  induction p as [|c p IH]; intros n n' Hput.
  - simpl in Hput. injection Hput as <-. reflexivity.
  - destruct n as [d|es]; [discriminate|]. simpl in Hput.
    destruct (Obj.get c es) as [m|].
    + destruct (Files.put p x m) as [e|m'] eqn:Hm; [discriminate|].
      injection Hput as <-. simpl. rewrite get_set_same. now apply (IH m).
    + destruct p; [|discriminate]. injection Hput as <-. simpl.
      now rewrite get_set_same.
Qed.

Lemma isPrefix_app_common (d a b : Files.path) :
  Files.isPrefix (d ++ a) (d ++ b) = Files.isPrefix a b.
Proof.
  induction d as [|c d IH]; simpl; [reflexivity|].
  now rewrite String.eqb_refl.
Qed.

Lemma readFile_stat (q : Files.path) (n n' : Files.node) :
  Files.stat q n' = Files.stat q n -> Files.readFile q n' = Files.readFile q n.
Proof.
  unfold Files.stat, Files.readFile.
  destruct (Files.find q n') as [e'|[d'|es']],
           (Files.find q n) as [e|[d|es]]; simpl; congruence.
Qed.

Lemma writeFile_put (p : Files.path) (d : string) (n n' : Files.node) :
  Files.writeFile p d n = inr n' -> Files.put p (Files.File d) n = inr n'.
Proof.
  unfold Files.writeFile.
  destruct (Files.find p n) as [e|[x|es]]; [auto | auto | discriminate].
Qed.

Lemma readFile_writeFile_same (p : Files.path) (d : string)
    (n n' : Files.node) :
  Files.writeFile p d n = inr n' -> Files.readFile p n' = inr d.
Proof.
  intros H. apply writeFile_put in H. unfold Files.readFile.
  now rewrite (find_put_same _ _ _ _ H).
Qed.

Lemma stat_writeFile_other (p q : Files.path) (d : string)
    (n n' : Files.node) :
  Files.writeFile p d n = inr n' -> Files.isPrefix p q = false ->
  Files.stat q n' = Files.stat q n.
Proof.
  intros H. apply writeFile_put in H. now apply stat_put_other with (x := Files.File d).
Qed.

Lemma rename_cases (a b : Files.path) (n n' : Files.node) :
  Files.rename a b n = inr n' ->
  (Files.isPrefix a b = true /\ Files.isPrefix b a = true /\ n' = n
   /\ Files.exists_ a n = true)
  \/ (Files.isPrefix a b = false
      /\ exists src,
           Files.find a n = inr src
           /\ Files.put b src (Files.rm_recursive a n) = inr n').
Proof.
  unfold Files.rename, Files.exists_. intros H.
  destruct (Files.find a n) as [e|src]; [discriminate|].
  destruct (Files.isPrefix a b) eqn:Hab.
  - destruct (Files.isPrefix b a) eqn:Hba; [|discriminate].
    injection H as <-. left. auto.
  - right. split; [reflexivity|]. exists src. split; [reflexivity|].
    destruct (Files.find b n) as [[]|[d|[|kv es]]], src; try discriminate;
      exact H.
Qed.

Lemma stat_rename_other (a b q : Files.path) (n n' : Files.node) :
  Files.rename a b n = inr n' ->
  Files.isPrefix a q = false -> Files.isPrefix b q = false ->
  Files.stat q n' = Files.stat q n.
Proof.
  intros H Ha Hb.
  destruct (rename_cases _ _ _ _ H) as [(_ & _ & -> & _)|(_ & src & _ & Hput)];
    [reflexivity|].
  rewrite (stat_put_other _ _ _ _ _ Hput Hb).
  now apply stat_rm_recursive_other.
Qed.

Lemma exists_rename_target (a b : Files.path) (n n' : Files.node) :
  Files.rename a b n = inr n' -> Files.exists_ b n' = true.
Proof.
  intros H.
  destruct (rename_cases _ _ _ _ H) as [(Hab & Hba & -> & Hex)|(_ & src & _ & Hput)].
  - assert (a = b) as <-; [|exact Hex].
    clear -Hab Hba. revert b Hab Hba.
    induction a as [|c a IH]; intros [|d b] Hab Hba; try discriminate;
      [reflexivity|].
    simpl in *. apply andb_true_iff in Hab. destruct Hab as [Hcd Hab].
    apply andb_true_iff in Hba. destruct Hba as [_ Hba].
    apply String.eqb_eq in Hcd. subst d. f_equal. now apply IH.
  - unfold Files.exists_. now rewrite (find_put_same _ _ _ _ Hput).
Qed.


(** What has something below it is a directory. *)
Lemma stat_parent_directory (p : Files.path) (c : string) (q : Files.path) :
  forall n,
    Files.exists_ (p ++ c :: q) n = true ->
    Files.stat p n = inr Files.IsDirectory.
Proof.
  unfold Files.exists_, Files.stat.
  induction p as [|x p IH]; intros n H.
  - destruct n as [d|es]; [discriminate | reflexivity].
  - destruct n as [d|es]; [discriminate|]. simpl in *.
    destruct (Obj.get x es) as [m|]; [now apply IH | discriminate].
Qed.


Lemma files_writeFile_inv (p : Files.path) (d : string) (w w' : world)
    (u : unit) :
  files_writeFile p d w = (inr u, w') ->
  Files.writeFile p d (fs w) = inr (fs w').
Proof.
  destruct w as [root log]. unfold files_writeFile. unfold_monad.
  destruct (Files.writeFile p d root) as [e|n]; [discriminate|].
  intros H. injection H as _ H. subst w'. reflexivity.
Qed.

Lemma files_rename_inv (a b : Files.path) (w w' : world) (u : unit) :
  files_rename a b w = (inr u, w') ->
  Files.rename a b (fs w) = inr (fs w').
Proof.
  destruct w as [root log]. unfold files_rename. unfold_monad.
  destruct (Files.rename a b root) as [e|n]; [discriminate|].
  intros H. injection H as _ H. subst w'. reflexivity.
Qed.

Lemma files_copyFile_inv (a b : Files.path) (w w' : world) (u : unit) :
  files_copyFile a b w = (inr u, w') ->
  exists d, Files.readFile a (fs w) = inr d
            /\ Files.writeFile b d (fs w) = inr (fs w').
Proof.
  destruct w as [root log]. unfold files_copyFile. unfold_monad.
  unfold Files.copyFile.
  destruct (Files.readFile a root) as [e|d]; [discriminate|].
  destruct (Files.writeFile b d root) as [e|n] eqn:Hw; [discriminate|].
  intros H. injection H as _ H. subst w'. exists d. auto.
Qed.

Lemma stat_writeFile_beside (dir ps qs : Files.path) (d : string)
    (n n' : Files.node) :
  Files.writeFile (dir ++ ps) d n = inr n' ->
  Files.isPrefix ps qs = false ->
  Files.stat (dir ++ qs) n' = Files.stat (dir ++ qs) n.
Proof.
  intros H Hp. apply (stat_writeFile_other _ _ _ _ _ H).
  now rewrite isPrefix_app_common.
Qed.

Lemma stat_rename_beside (dir xs ys qs : Files.path) (n n' : Files.node) :
  Files.rename (dir ++ xs) (dir ++ ys) n = inr n' ->
  Files.isPrefix xs qs = false -> Files.isPrefix ys qs = false ->
  Files.stat (dir ++ qs) n' = Files.stat (dir ++ qs) n.
Proof.
  intros H Hx Hy. apply (stat_rename_other _ _ _ _ _ H);
    now rewrite isPrefix_app_common.
Qed.

Definition hiddenPackageJson (dir : Files.path) : Files.path :=
  dir ++ ["node_modules"; ".package.json"].

Definition hiddenLockFile (dir : Files.path) : Files.path :=
  dir ++ ["node_modules"; ".npm-shrinkwrap.json"].

(** The [.npm] directory [dir] is as [completeNpmDirectory] leaves it on
    the disk [n]. *)
Definition finished (E : env) (dir : Files.path) (n : Files.node) : Prop :=
  Files.readFile (nodeVersionFile dir) n
  = inr (currentNodeCompatibilityVersion E)
  /\ Files.readFile (dir ++ [".gitignore"]) n
     = inr ("node_modules" ++ Str.nl)%string
  /\ Files.readFile (dir ++ ["README"]) n = inr readmeText
  /\ (exists lock,
        Files.readFile (lockFile dir) n = inr lock
        /\ Files.readFile (hiddenLockFile dir) n = inr lock)
  /\ Files.exists_ (hiddenPackageJson dir) n = true
  /\ Files.exists_ (dir ++ ["package.json"]) n = false.

(** Reads a path of the goal on the disk before the writing [H]. *)
Ltac back_over H :=
  match type of H with
  | Files.writeFile (?dir ++ ?ps) ?d ?n = inr ?n' =>
      match goal with
      | |- context [Files.readFile (dir ++ ?qs) n'] =>
          rewrite (readFile_stat _ _ _
                     (stat_writeFile_beside dir ps qs d n n' H eq_refl))
      | |- context [Files.exists_ (dir ++ ?qs) n'] =>
          rewrite (exists_stat _ _ _
                     (stat_writeFile_beside dir ps qs d n n' H eq_refl))
      end
  end.

Lemma completeNpmDirectory_finished (E : env) (packageName : string)
    (dir : Files.path) (npmDependencies : manifest) (w w' : world) (u : unit) :
  completeNpmDirectory E packageName dir npmDependencies w = (inr u, w') ->
  finished E dir (fs w').
Proof.
  unfold completeNpmDirectory. intros H.
  apply bind_inv in H. destruct H as (u1 & w1 & _ & H).
  apply bind_inv in H. destruct H as (u2 & w2 & Hren & H).
  apply bind_inv in H. destruct H as (u3 & w3 & Hcp & H).
  apply bind_inv in H. destruct H as (u4 & w4 & Hrd & H).
  apply bind_inv in H. destruct H as (u5 & w5 & Hnv & Hgi).
  apply files_rename_inv in Hren.
  apply files_copyFile_inv in Hcp. destruct Hcp as (lock & Hlock & Hcp).
  apply files_writeFile_inv in Hrd.
  apply files_writeFile_inv in Hnv.
  apply files_writeFile_inv in Hgi.
  unfold finished, nodeVersionFile, lockFile, hiddenLockFile,
    hiddenPackageJson.
  repeat split.
  - back_over Hgi.
    apply (readFile_writeFile_same _ _ _ _ Hnv).
  - apply (readFile_writeFile_same _ _ _ _ Hgi).
  - back_over Hgi.
    back_over Hnv.
    apply (readFile_writeFile_same _ _ _ _ Hrd).
  - exists lock. split.
    + back_over Hgi.
      back_over Hnv.
      back_over Hrd.
      back_over Hcp.
      exact Hlock.
    + back_over Hgi.
      back_over Hnv.
      back_over Hrd.
      apply (readFile_writeFile_same _ _ _ _ Hcp).
  - back_over Hgi.
    back_over Hnv.
    back_over Hrd.
    back_over Hcp.
    apply (exists_rename_target _ _ _ _ Hren).
  - back_over Hgi.
    back_over Hnv.
    back_over Hrd.
    back_over Hcp.
    apply (exists_rename_source _ _ _ _ Hren).
    now rewrite isPrefix_app_common.
Qed.

Lemma body_ends_with_completeNpmDirectory (E : env) (packageName : string)
    (dir : Files.path) (npmDependencies : manifest) (quiet : bool)
    (w w' : world) (u : unit) :
  updateDependencies_body E packageName dir npmDependencies quiet w
  = (inr u, w') ->
  exists w0,
    completeNpmDirectory E packageName dir npmDependencies w0 = (inr u, w').
Proof.
  unfold updateDependencies_body. intros H.
  apply bind_inv in H. destruct H as (c & wa & _ & H).
  apply bind_inv in H. destruct H as (u1 & wb & _ & H).
  apply bind_inv in H. destruct H as (there & wc & _ & H).
  destruct there.
  - unfold updateExistingNpmDirectory in H.
    apply bind_inv in H. destruct H as (? & ? & _ & H).
    apply bind_inv in H. destruct H as (? & ? & _ & H).
    apply bind_inv in H. destruct H as (? & ? & _ & H).
    apply bind_inv in H. destruct H as (? & ? & _ & H).
    apply bind_inv in H. destruct H as (? & ? & _ & H).
    apply bind_inv in H. destruct H as (? & w0 & _ & H).
    now exists w0.
  - unfold createFreshNpmDirectory in H.
    apply bind_inv in H. destruct H as (? & ? & _ & H).
    apply bind_inv in H. destruct H as (? & w0 & _ & H).
    now exists w0.
Qed.

Lemma updateDependencies_true (E : env) (packageName : string)
    (dir : Files.path) (npmDependencies : option manifest) (quiet : bool)
    (w w' : world) :
  updateDependencies E packageName dir npmDependencies quiet w
  = (inr true, w') ->
  finished E dir (fs w').
Proof.
  intros H.
  assert (exists deps, npmDependencies = Some deps /\ deps <> [])
    as (deps & -> & Hdeps).
  { destruct npmDependencies as [[|kv deps]|].
    - exfalso. revert H. destruct w as [root log]. unfold updateDependencies.
      cbv beta iota zeta delta [orb _isEmpty]. unfold_monad.
      destruct (Files.rename _ _ root) as [[]|n]; discriminate.
    - exists (kv :: deps). split; [reflexivity | discriminate].
    - exfalso. revert H. destruct w as [root log]. unfold updateDependencies.
      cbv beta iota zeta delta [orb _isEmpty]. unfold_monad.
      destruct (Files.rename _ _ root) as [[]|n]; discriminate. }
  rewrite updateDependencies_with_dependencies in H by exact Hdeps.
  destruct (updateDependencies_body E packageName dir deps quiet w)
    as [[e|u] w1] eqn:Hbody.
  - destruct e; discriminate.
  - injection H as <-.
    destruct (body_ends_with_completeNpmDirectory _ _ _ _ _ _ _ _ Hbody)
      as (w0 & Hc).
    apply (completeNpmDirectory_finished _ _ _ _ _ _ _ Hc).
Qed.

(** X7: when [updateDependencies] returns [true], the directory holds the
    stamp of the current compatibility version in
    [node_modules/.node_version], the [README], a [.gitignore] with the
    line [node_modules], a lock file [npm-shrinkwrap.json] and a copy of
    it that reads the same in [node_modules/.npm-shrinkwrap.json], and
    [node_modules/.package.json]; [package.json] itself is not there any
    more. *)
Theorem updateDependencies_true_leaves (E : env) (packageName : string)
    (dir : Files.path) (npmDependencies : option manifest) (quiet : bool)
    (w w' : world) :
  updateDependencies E packageName dir npmDependencies quiet w
  = (inr true, w') ->
  Files.readFile (dir ++ ["node_modules"; ".node_version"]) (fs w')
  = inr (currentNodeCompatibilityVersion E)
  /\ Files.readFile (dir ++ [".gitignore"]) (fs w')
     = inr ("node_modules" ++ Str.nl)%string
  /\ Files.readFile (dir ++ ["README"]) (fs w') = inr readmeText
  /\ (exists lock,
        Files.readFile (dir ++ ["npm-shrinkwrap.json"]) (fs w') = inr lock
        /\ Files.readFile (dir ++ ["node_modules"; ".npm-shrinkwrap.json"])
             (fs w') = inr lock)
  /\ Files.exists_ (dir ++ ["node_modules"; ".package.json"]) (fs w') = true
  /\ Files.exists_ (dir ++ ["package.json"]) (fs w') = false.
Proof. intros H. exact (updateDependencies_true _ _ _ _ _ _ _ H). Qed.

Lemma updateDependencies_true_leaves_witness :
  Files.readFile ["pkg"; ".npm"; "node_modules"; ".node_version"]
    (fs (snd (updateDependencies Sample.sampleEnv "pkg" Sample.npmDir
                (Some Sample.gcdManifest) true
                (Sample.start Sample.freshDisk))))
  = inr Sample.stamp.
Proof.
  refine (proj1
            (updateDependencies_true_leaves Sample.sampleEnv "pkg"
               Sample.npmDir (Some Sample.gcdManifest) true
               (Sample.start Sample.freshDisk)
               (snd (updateDependencies Sample.sampleEnv "pkg" Sample.npmDir
                       (Some Sample.gcdManifest) true
                       (Sample.start Sample.freshDisk))) _)).
  vm_compute. reflexivity.
Defined.




(** ** The errors that are never thrown *)

(** The computation throws no [Error]: the two errors of a corrupted
    directory are the only ones of the module. *)
Definition neverCorrupted {A} (m : M A) : Prop :=
  forall w e w', m w = (inl e, w') -> forall msg, e <> Error msg.

Lemma nc_ret {A} (a : A) : neverCorrupted (ret a).
Proof. intros w e w' H. discriminate. Qed.

Lemma nc_throw {A} (e : exn) :
  (forall msg, e <> Error msg) -> neverCorrupted (@throw A e).
Proof. intros He w e' w' H. injection H as <- _. exact He. Qed.

Lemma nc_bind {A B} (m : M A) (k : A -> M B) :
  neverCorrupted m -> (forall a, neverCorrupted (k a)) ->
  neverCorrupted (bind m k).
Proof.
  intros Hm Hk w e w' H. unfold bind in H.
  destruct (m w) as [[e0|a] w0] eqn:Hmw.
  - injection H as <- <-. apply (Hm _ _ _ Hmw).
  - apply (Hk a _ _ _ H).
Qed.

Lemma nc_tryCatch {A} (m : M A) (h : exn -> M A) :
  neverCorrupted m ->
  (forall e, (forall msg, e <> Error msg) -> neverCorrupted (h e)) ->
  neverCorrupted (tryCatch m h).
Proof.
  intros Hm Hh w e w' H. unfold tryCatch in H.
  destruct (m w) as [[e0|a] w0] eqn:Hmw; [|discriminate].
  apply (Hh e0 (Hm _ _ _ Hmw) _ _ _ H).
Qed.

Lemma nc_emit (e : event) : neverCorrupted (emit e).
Proof. intros w e' w' H. discriminate. Qed.

Lemma nc_getFs : neverCorrupted getFs.
Proof. intros w e' w' H. discriminate. Qed.

Lemma nc_setFs (n : Files.node) : neverCorrupted (setFs n).
Proof. intros w e' w' H. discriminate. Qed.

Lemma nc_liftErrno {A} (r : Files.errno + A) : neverCorrupted (liftErrno r).
Proof.
  destruct r as [code|a]; [|apply nc_ret].
  apply nc_throw. discriminate.
Qed.

Lemma nc_runNpmCommand (E : env) (args : list string) (cwd : Files.path) :
  neverCorrupted (runNpmCommand E args cwd).
Proof. intros w e w' H. rewrite runNpmCommand_run in H. discriminate. Qed.

Ltac nc :=
  repeat first
    [ apply nc_ret
    | apply nc_emit
    | apply nc_getFs
    | apply nc_setFs
    | apply nc_liftErrno
    | apply nc_runNpmCommand
    | apply nc_throw; discriminate
    | apply nc_bind; [|intros ?]
    | match goal with
      | |- neverCorrupted (when ?b _) => destruct b; unfold when
      | |- neverCorrupted (if ?b then _ else _) => destruct b
      | |- neverCorrupted (match ?x with _ => _ end) => destruct x
      end ].

Lemma nc_files_exists (p : Files.path) : neverCorrupted (files_exists p).
Proof. unfold files_exists. nc. Qed.

Lemma nc_files_readFile (p : Files.path) : neverCorrupted (files_readFile p).
Proof. unfold files_readFile. nc. Qed.

Lemma nc_files_rm_recursive (p : Files.path) :
  neverCorrupted (files_rm_recursive p).
Proof. unfold files_rm_recursive. nc. Qed.

Lemma nc_files_rename (a b : Files.path) : neverCorrupted (files_rename a b).
Proof. unfold files_rename. nc. Qed.

Lemma nc_files_mkdir_p (p : Files.path) : neverCorrupted (files_mkdir_p p).
Proof. unfold files_mkdir_p. nc. Qed.

Lemma nc_files_writeFile (p : Files.path) (d : string) :
  neverCorrupted (files_writeFile p d).
Proof. unfold files_writeFile. nc. Qed.

Lemma nc_files_copyFile (a b : Files.path) :
  neverCorrupted (files_copyFile a b).
Proof. unfold files_copyFile. nc. Qed.

Lemma nc_installNpmModules (E : env) (npmDependencies : manifest)
    (packageName : string) (dir : Files.path) :
  neverCorrupted (installNpmModules E npmDependencies packageName dir).
Proof.
  unfold installNpmModules, installNpmModules_install,
    installNpmModules_checkColons, constructPackageJson, ensureConnected,
    getInstalledDependencies, getInstalledDependenciesTree,
    files_findPathsWithColon, buildmessage_error.
  nc.
Qed.

Lemma nc_completeNpmDirectory (E : env) (packageName : string)
    (dir : Files.path) (npmDependencies : manifest) :
  neverCorrupted (completeNpmDirectory E packageName dir npmDependencies).
Proof.
  unfold completeNpmDirectory, shrinkwrap, minimizeShrinkwrap,
    getShrinkwrappedDependenciesTree, createReadme, createNodeVersion,
    createGitIgnore, buildmessage_error.
  nc.
Qed.

Lemma nc_createFreshNpmDirectory (E : env) (packageName : string)
    (dir : Files.path) (npmDependencies : manifest) (quiet : bool) :
  neverCorrupted
    (createFreshNpmDirectory E packageName dir npmDependencies quiet).
Proof.
  unfold createFreshNpmDirectory, logUpdateDependencies.
  apply nc_bind; [nc|intros _].
  apply nc_bind; [apply nc_installNpmModules|intros _].
  apply nc_completeNpmDirectory.
Qed.

Lemma nc_afterSanity (E : env) (packageName : string) (dir : Files.path)
    (npmDependencies : manifest) :
  neverCorrupted
    (updateExisting_nodeVersion E dir ;;
     updateExisting_hiddenCopies dir ;;
     nodeModulesDirExisted <- files_exists (dir ++ ["node_modules"]) ;;
     installNpmModules E npmDependencies packageName dir ;;
     (if nodeModulesDirExisted then
        pruneResult <- runNpmCommand E ["prune"] dir ;;
        when (negb (success pruneResult))
          (buildmessage_error (Result pruneResult)) ;;
        dedupeResult <- runNpmCommand E ["dedupe"] dir ;;
        when (negb (success dedupeResult))
          (buildmessage_error (Result dedupeResult))
      else ret tt) ;;
     completeNpmDirectory E packageName dir npmDependencies).
Proof.
  apply nc_bind; [|intros _].
  { unfold updateExisting_nodeVersion.
    apply nc_bind; [apply nc_files_exists|intros there].
    destruct there; [|apply nc_ret].
    apply nc_bind.
    - apply nc_tryCatch; [apply nc_files_readFile|].
      intros e He. destruct e as [|[]| |]; try (apply nc_throw; exact He).
      apply nc_ret.
    - intros old. destruct (negb _); [apply nc_files_rm_recursive|apply nc_ret]. }
  apply nc_bind; [|intros _].
  { unfold updateExisting_hiddenCopies, andM, orM, notM.
    nc; first [ apply nc_files_exists | apply nc_files_rm_recursive ]. }
  apply nc_bind; [apply nc_files_exists|intros existed].
  apply nc_bind; [apply nc_installNpmModules|intros _].
  apply nc_bind; [|intros _; apply nc_completeNpmDirectory].
  unfold buildmessage_error. nc.
Qed.

Lemma updateExisting_sanity_passes (dir : Files.path) (w : world) :
  Files.exists_ (lockFile dir) (fs w) = true ->
  updateExisting_sanity dir w = (inr tt, w).
Proof.
  intros Hlock. unfold lockFile in Hlock.
  pose proof (stat_parent_directory _ _ _ _ Hlock) as Hdir.
  destruct w as [root log]. cbn [fs] in *.
  unfold updateExisting_sanity. unfold_monad.
  rewrite Hdir. cbv beta iota. cbn [negb]. cbv beta iota.
  rewrite Hlock. reflexivity.
Qed.

Lemma updateDependencies_body_corrupted (E : env) (packageName : string)
    (dir : Files.path) (npmDependencies : manifest) (quiet : bool)
    (w : world) :
  dir <> [] ->
  Files.exists_ dir (fs w) = true ->
  Files.exists_ (lockFile dir) (fs w) = false ->
  updateDependencies_body E packageName dir npmDependencies quiet w
  = createFreshNpmDirectory E packageName dir npmDependencies quiet
      {| fs := Files.rm_recursive dir (fs w);
         trace := trace w ++ [RmRecursive dir] |}.
Proof.
  intros Hdir Hex Hlock. destruct w as [root log]. unfold lockFile in Hlock.
  cbn [fs trace] in *. unfold updateDependencies_body. unfold_monad.
  rewrite Hex, Hlock. cbn [negb].
  rewrite exists_rm_recursive_self by exact Hdir. reflexivity.
Qed.

Lemma nc_updateDependencies_body (E : env) (packageName : string)
    (dir : Files.path) (npmDependencies : manifest) (quiet : bool) :
  dir <> [] ->
  neverCorrupted
    (updateDependencies_body E packageName dir npmDependencies quiet).
Proof.
  intros Hdir w e w' H.
  destruct (Files.exists_ dir (fs w)) eqn:Hex.
  - destruct (Files.exists_ (lockFile dir) (fs w)) eqn:Hlock.
    + rewrite updateDependencies_body_existing in H by assumption.
      unfold updateExistingNpmDirectory in H.
      rewrite (bind_ok _ _ _ _ _ (updateExisting_sanity_passes dir w Hlock))
        in H.
      apply (nc_afterSanity E packageName dir npmDependencies _ _ _ H).
    + rewrite updateDependencies_body_corrupted in H by assumption.
      apply (nc_createFreshNpmDirectory _ _ _ _ _ _ _ _ H).
  - rewrite updateDependencies_body_fresh in H by assumption.
    apply (nc_createFreshNpmDirectory _ _ _ _ _ _ _ _ H).
Qed.

(** X9: [updateDependencies], for a directory that is not the root, never
    throws one of the two errors [Corrupted .npm directory] of
    [updateExistingNpmDirectory]: when the directory has its lock file it
    is a directory, so that the checks pass; and what stands at the place
    of the directory without a lock file, be it a plain file, is deleted
    and made anew. *)
Theorem updateDependencies_never_reports_corruption (E : env)
    (packageName : string) (dir : Files.path)
    (npmDependencies : option manifest) (quiet : bool) (w w' : world)
    (e : exn) :
  dir <> [] ->
  updateDependencies E packageName dir npmDependencies quiet w = (inl e, w') ->
  forall msg, e <> Error msg.
Proof.
  intros Hdir H.
  assert (neverCorrupted
            (updateDependencies E packageName dir npmDependencies quiet))
    as Hnc; [|exact (Hnc _ _ _ H)].
  clear H. unfold updateDependencies.
  destruct (_ || _).
  - apply nc_bind.
    + apply nc_tryCatch.
      * apply nc_bind; [apply nc_files_rename|intros _; apply nc_ret].
      * intros e0 He0. destruct e0 as [|[]| |];
          try (apply nc_throw; exact He0). apply nc_ret.
    + intros renamed. destruct renamed; [|apply nc_ret].
      apply nc_bind; [apply nc_files_rm_recursive|intros _; apply nc_ret].
  - apply nc_tryCatch.
    + apply nc_bind; [now apply nc_updateDependencies_body|].
      intros _. apply nc_ret.
    + intros e0 He0. destruct e0; try (apply nc_throw; exact He0).
      apply nc_ret.
Qed.

(** A plain file stands where the [.npm] directory should be. *)
Definition fileInPlace : Files.node :=
  Files.Dir
    [("pkg",
      Files.Dir [("package.js", Files.File "Npm.depends({gcd: '0.0.0'});");
                 (".npm", Files.File "not a directory")])].

(** An npm whose [shrinkwrap] writes no lock file. *)
Definition forgetfulExec (program : Files.path) (args : list string)
    (cwd : Files.path) (n : Files.node) : execResult * Files.node :=
  ({| err := None; exec_stdout := "{}"; exec_stderr := "" |}, n).

Definition forgetfulEnv : env := {|
  isUrlWithSha := Sample.urlWithSha;
  randomToken := "x1y2z3";
  colonConvert := fun s => s;
  processVersion := "v4.4.7";
  processPlatform := "freebsd";
  osPlatform := "freebsd";
  printNpmCalls := false;
  getCurrentNodeBinDir := ["usr"; "local"; "bin"];
  getUrl := fun _ => true;
  execFile := forgetfulExec;
  JSON_parse := fun _ => Some Sample.emptyTree;
  JSON_stringify := fun _ => "{}"
|}.

Lemma updateDependencies_never_reports_corruption_witness :
  fst (updateDependencies forgetfulEnv "pkg" Sample.npmDir
         (Some Sample.gcdManifest) true (Sample.start fileInPlace))
  = inl (FsError Files.ENOENT)
  /\ FsError Files.ENOENT
     <> Error "Corrupted .npm directory -- should be a directory: pkg/.npm".
Proof.
  split; [reflexivity|].
  refine (updateDependencies_never_reports_corruption forgetfulEnv "pkg"
            Sample.npmDir (Some Sample.gcdManifest) true
            (Sample.start fileInPlace)
            (snd (updateDependencies forgetfulEnv "pkg" Sample.npmDir
                    (Some Sample.gcdManifest) true
                    (Sample.start fileInPlace)))
            (FsError Files.ENOENT) _ _ _).
  - discriminate.
  - vm_compute. reflexivity.
Defined.

(** ** The hidden copies, and pruning *)

(** X10: the check on the hidden copies never throws. It deletes
    [node_modules] exactly when [node_modules] is there and
    [.package.json] or [.npm-shrinkwrap.json] is not in it, and then every
    path that is not [node_modules] or below it is as it was; otherwise it
    changes nothing. *)
Theorem hidden_copies_check (dir : Files.path) (w : world) :
  updateExisting_hiddenCopies dir w
  = (inr tt,
     if Files.exists_ (nodeModules dir) (fs w)
        && (negb (Files.exists_ (hiddenPackageJson dir) (fs w))
            || negb (Files.exists_ (hiddenLockFile dir) (fs w)))
     then withoutNodeModules dir w
     else w)
  /\ Files.exists_ (nodeModules dir) (fs (withoutNodeModules dir w)) = false
  /\ forall q : Files.path,
       Files.isPrefix (nodeModules dir) q = false ->
       Files.stat q (fs (withoutNodeModules dir w)) = Files.stat q (fs w).
Proof.
  split; [|split].
  - destruct w as [root log].
    unfold updateExisting_hiddenCopies, withoutNodeModules, nodeModules,
      hiddenPackageJson, hiddenLockFile.
    cbn [fs trace]. unfold_monad.
    replace ((dir ++ ["node_modules"]) ++ [".package.json"])
      with (dir ++ ["node_modules"; ".package.json"])
      by (now rewrite <- app_assoc).
    replace ((dir ++ ["node_modules"]) ++ [".npm-shrinkwrap.json"])
      with (dir ++ ["node_modules"; ".npm-shrinkwrap.json"])
      by (now rewrite <- app_assoc).
    destruct (Files.exists_ (dir ++ ["node_modules"]) root);
      [|reflexivity].
    cbv beta iota.
    destruct (Files.exists_ (dir ++ ["node_modules"; ".package.json"]) root);
      [|reflexivity].
    cbn [negb orb andb]. cbv beta iota.
    destruct (Files.exists_ (dir ++ ["node_modules"; ".npm-shrinkwrap.json"])
                root); reflexivity.
  - apply exists_rm_recursive_self, nodeModules_not_root.
  - intros q Hq. now apply stat_rm_recursive_other.
Qed.

(** The world after the report of a failed run of npm. *)
Definition reportFailure (r : npmResult) (w : world) : world :=
  if success r then w
  else {| fs := fs w; trace := trace w ++ [BuildmessageError (Result r)] |}.

(** The world after [npm prune] and [npm dedupe], with their failures
    reported. *)
Definition afterCleanup (E : env) (dir : Files.path) (w : world) : world :=
  let pruned :=
    reportFailure (ranNpm E ["prune"] dir w) (afterNpm E ["prune"] dir w) in
  reportFailure (ranNpm E ["dedupe"] dir pruned)
    (afterNpm E ["dedupe"] dir pruned).

Lemma when_report (r : npmResult) (w : world) :
  when (negb (success r)) (buildmessage_error (Result r)) w
  = (inr tt, reportFailure r w).
Proof.
  unfold reportFailure. destruct (success r); [reflexivity|].
  destruct w. reflexivity.
Qed.

(** X11: in [updateExistingNpmDirectory], a failure of [npm prune] or of
    [npm dedupe] is reported and stops nothing: when the checks and
    [installNpmModules] went well, [completeNpmDirectory] runs on the disk
    that prune and then dedupe left. Both are run when [node_modules] was
    there before the install, and none is when it was not. *)
Theorem cleanup_failures_are_not_fatal (E : env) (packageName : string)
    (dir : Files.path) (npmDependencies : manifest) (quiet : bool)
    (w w0 w1 : world) :
  (updateExisting_sanity dir ;;
   updateExisting_nodeVersion E dir ;;
   updateExisting_hiddenCopies dir) w = (inr tt, w0) ->
  installNpmModules E npmDependencies packageName dir w0 = (inr tt, w1) ->
  updateExistingNpmDirectory E packageName dir npmDependencies quiet w
  = completeNpmDirectory E packageName dir npmDependencies
      (if Files.exists_ (nodeModules dir) (fs w0)
       then afterCleanup E dir w1
       else w1)
  /\ fs (afterCleanup E dir w1)
     = snd (execFile E (npmPath E) ["dedupe"] dir
              (snd (execFile E (npmPath E) ["prune"] dir (fs w1))))
  /\ filter isExecFile (trace (afterCleanup E dir w1))
     = filter isExecFile (trace w1)
       ++ [ExecFile (npmPath E) ["prune"] dir;
           ExecFile (npmPath E) ["dedupe"] dir].
Proof.
  intros Hpre Hinst. split; [|split].
  - unfold updateExistingNpmDirectory.
    apply bind_inv in Hpre. destruct Hpre as ([] & wa & Hs & Hpre).
    apply bind_inv in Hpre. destruct Hpre as ([] & wb & Hn & Hh).
    rewrite (bind_ok _ _ _ _ _ Hs), (bind_ok _ _ _ _ _ Hn),
      (bind_ok _ _ _ _ _ Hh).
    assert (files_exists (dir ++ ["node_modules"]) w0
            = (inr (Files.exists_ (nodeModules dir) (fs w0)), w0)) as Hex
      by (destruct w0; reflexivity).
    rewrite (bind_ok _ _ _ _ _ Hex), (bind_ok _ _ _ _ _ Hinst).
    destruct (Files.exists_ (nodeModules dir) (fs w0)).
    + erewrite bind_ok; [reflexivity|].
      rewrite (bind_ok _ _ _ _ _ (runNpmCommand_run E ["prune"] dir w1)).
      rewrite (bind_ok _ _ _ _ _ (when_report _ _)).
      rewrite (bind_ok _ _ _ _ _ (runNpmCommand_run E ["dedupe"] dir _)).
      apply when_report.
    + reflexivity.
  - unfold afterCleanup, reportFailure.
    destruct (success (ranNpm E ["prune"] dir w1));
      destruct (success (ranNpm E ["dedupe"] dir _)); reflexivity.
  - unfold afterCleanup, reportFailure, afterNpm.
    destruct (success (ranNpm E ["prune"] dir w1)); cbn [fs trace];
      destruct (success (ranNpm E ["dedupe"] dir _)); cbn [fs trace];
      rewrite ?filter_app, !(proj1 (npmEvents_exec E _ _ _));
      cbn [filter isExecFile]; rewrite <- ?app_assoc, ?app_nil_r;
      reflexivity.
Qed.

(** An npm whose [prune] fails. *)
Definition pruneFailsExec (program : Files.path) (args : list string)
    (cwd : Files.path) (n : Files.node) : execResult * Files.node :=
  match args with
  | "prune" :: _ =>
      ({| err := Some "Command failed. ";
          exec_stdout := "";
          exec_stderr := "npm ERR! code 1" |}, n)
  | _ => Sample.workingExec program args cwd n
  end.

Definition pruneFailsEnv : env := {|
  isUrlWithSha := Sample.urlWithSha;
  randomToken := "x1y2z3";
  colonConvert := fun s => s;
  processVersion := "v4.4.7";
  processPlatform := "freebsd";
  osPlatform := "freebsd";
  printNpmCalls := false;
  getCurrentNodeBinDir := ["usr"; "local"; "bin"];
  getUrl := fun _ => true;
  execFile := pruneFailsExec;
  JSON_parse := fun _ => Some Sample.emptyTree;
  JSON_stringify := fun _ => "{}"
|}.

Definition stampedWorld : world :=
  Sample.start (Sample.installedDisk [(".node_version",
                                       Files.File Sample.stamp)]).

Lemma cleanup_failures_are_not_fatal_witness :
  fst (updateExistingNpmDirectory pruneFailsEnv "pkg" Sample.npmDir
         Sample.gcdManifest true stampedWorld)
  = inr tt
  /\ filter isExecFile
       (trace (afterCleanup pruneFailsEnv Sample.npmDir
                 (snd (installNpmModules pruneFailsEnv Sample.gcdManifest
                         "pkg" Sample.npmDir stampedWorld))))
     = [ExecFile ["usr"; "local"; "bin"; "npm"] ["ls"; "--json"]
          ["pkg"; ".npm"];
        ExecFile ["usr"; "local"; "bin"; "npm"] ["install"; "gcd@0.0.0"]
          ["pkg"; ".npm"];
        ExecFile ["usr"; "local"; "bin"; "npm"] ["prune"] ["pkg"; ".npm"];
        ExecFile ["usr"; "local"; "bin"; "npm"] ["dedupe"] ["pkg"; ".npm"]].
Proof.
  destruct (cleanup_failures_are_not_fatal pruneFailsEnv "pkg" Sample.npmDir
              Sample.gcdManifest true stampedWorld stampedWorld
              (snd (installNpmModules pruneFailsEnv Sample.gcdManifest "pkg"
                      Sample.npmDir stampedWorld)))
    as (H1 & _ & H3).
  - reflexivity.
  - vm_compute. reflexivity.
  - split.
    + rewrite H1. vm_compute. reflexivity.
    + rewrite H3. vm_compute. reflexivity.
Defined.

(** ** [dependenciesArePortable] without [node_modules] *)

(** X12: [dependenciesArePortable] gives no answer for a directory without
    [node_modules]: it throws the error of reading the directory (ENOENT
    when it is not there, ENOTDIR when it is a plain file). For an empty
    [node_modules] it returns [true]. In no case does it change the
    disk. *)
Theorem dependenciesArePortable_without_node_modules (dir : Files.path)
    (w : world) :
  (forall code,
     Files.find (nodeModules dir) (fs w) = inl code ->
     dependenciesArePortable dir w = (inl (FsError code), w))
  /\ (forall data,
        Files.find (nodeModules dir) (fs w) = inr (Files.File data) ->
        dependenciesArePortable dir w = (inl (FsError Files.ENOTDIR), w))
  /\ (Files.find (nodeModules dir) (fs w) = inr (Files.Dir []) ->
      dependenciesArePortable dir w = (inr true, w)).
Proof.
  destruct w as [root log]. unfold dependenciesArePortable, nodeModules.
  cbn [fs]. unfold_monad.
  split; [|split].
  - intros code ->. reflexivity.
  - intros data ->. reflexivity.
  - intros ->. reflexivity.
Qed.

Lemma dependenciesArePortable_without_node_modules_witness :
  dependenciesArePortable Sample.npmDir (Sample.start Sample.freshDisk)
  = (inl (FsError Files.ENOENT), Sample.start Sample.freshDisk)
  /\ dependenciesArePortable Sample.npmDir
       (Sample.start Sample.corruptedDisk)
     = (inr true, Sample.start Sample.corruptedDisk).
Proof.
  split.
  - apply (dependenciesArePortable_without_node_modules Sample.npmDir
             (Sample.start Sample.freshDisk)).
    reflexivity.
  - apply (dependenciesArePortable_without_node_modules Sample.npmDir
             (Sample.start Sample.corruptedDisk)).
    reflexivity.
Defined.

(** ** When [npm install] fails *)

(** No character of the string is white space. *)
Fixpoint isWord (s : string) : bool :=
  match s with
  | EmptyString => true
  | String c s' => negb (Str.isSpace c) && isWord s'
  end.

Lemma startsWith_drop (lit s : string) :
  Str.startsWith lit s = true ->
  s = (lit ++ Str.drop (String.length lit) s)%string.
Proof.
  revert s. induction lit as [|c lit IH]; intros s H.
  - destruct s; reflexivity.
  - destruct s as [|d s]; [discriminate|]. simpl in H.
    apply andb_true_iff in H. destruct H as [Hc H].
    apply Ascii.eqb_eq in Hc. subst d. simpl. f_equal. now apply IH.
Qed.

Lemma lazyMore_sound (lit s g : string) :
  Str.lazyMore lit s = Some g ->
  isWord g = true /\ exists post, s = (g ++ lit ++ post)%string.
Proof.
  revert g. induction s as [|c s IH]; intros g H.
  - simpl in H. destruct (Str.startsWith lit "") eqn:Hs; [|discriminate].
    injection H as <-. split; [reflexivity|].
    exists (Str.drop (String.length lit) ""). now apply startsWith_drop.
  - cbn [Str.lazyMore] in H.
    destruct (Str.startsWith lit (String c s)) eqn:Hs.
    + injection H as <-. split; [reflexivity|].
      exists (Str.drop (String.length lit) (String c s)).
      now apply startsWith_drop.
    + destruct (Str.isSpace c) eqn:Hc; [discriminate|].
      destruct (Str.lazyMore lit s) as [g'|]; [|discriminate].
      injection H as <-. destruct (IH g' eq_refl) as [Hw [post ->]].
      split; [simpl; now rewrite Hc|]. now exists post.
Qed.

Lemma execMissingPattern_sound (s name : string) :
  Str.execMissingPattern s = Some name ->
  name <> ""
  /\ isWord name = true
  /\ exists pre post,
       s = (pre ++ "404 '" ++ name ++ "' is not in the npm registry"
            ++ post)%string.
Proof.
  induction s as [|c s IH]; intros H; [discriminate|].
  cbn [Str.execMissingPattern] in H.
  destruct (Str.startsWith "404 '" (String c s)) eqn:Hs.
  - destruct (Str.lazyNonSpace "' is not in the npm registry"
                (Str.drop 5 (String c s))) as [g|] eqn:Hg.
    + injection H as <-. unfold Str.lazyNonSpace in Hg.
      destruct (Str.drop 5 (String c s)) as [|d rest] eqn:Hdrop;
        [discriminate|].
      destruct (Str.isSpace d) eqn:Hd; [discriminate|].
      destruct (Str.lazyMore "' is not in the npm registry" rest) as [g'|]
        eqn:Hmore; [|discriminate].
      injection Hg as <-.
      destruct (lazyMore_sound _ _ _ Hmore) as [Hw [post Hrest]].
      split; [discriminate|]. split; [simpl; now rewrite Hd|].
      exists "", post. apply startsWith_drop in Hs.
      change (String.length "404 '") with 5 in Hs.
      rewrite Hdrop, Hrest in Hs. exact Hs.
    + destruct (IH H) as (Hn & Hw & pre & post & ->).
      split; [exact Hn|]. split; [exact Hw|].
      now exists (String c pre), post.
  - destruct (IH H) as (Hn & Hw & pre & post & ->).
    split; [exact Hn|]. split; [exact Hw|].
    now exists (String c pre), post.
Qed.

(** Lines 437-450 of [installNpmModules]: the report on a failed
    [npm install]. *)
Definition installErrorText (r : npmResult) : string :=
  match Str.execMissingPattern (stderr r) with
  | Some name => ("there is no npm package named '" ++ name ++ "'")%string
  | None =>
      match Str.execBadVersionPattern (stderr r) with
      | Some (name, vers) =>
          (name ++ " version " ++ vers
           ++ " is not available in the npm registry")%string
      | None => error r
      end
  end.

(** X14: when [npm install] fails, [installNpmModules] reports one error
    and throws [NpmFailure], without a look at the file names. When the
    error output of npm says [404 'name' is not in the npm registry] for a
    word [name], the report is that there is no npm package of this name,
    whatever else the output holds; the name reported is a word without
    white space that the output quotes in this way. *)
Theorem npm_install_failure (E : env) (npmDependencies : manifest)
    (packageName : string) (dir : Files.path) (w w1 : world)
    (installed : list (string * option string)) :
  (files_mkdir_p (dir ++ ["node_modules"]) ;;
   constructPackageJson E packageName dir npmDependencies ;;
   ensureConnected E ;;
   getInstalledDependencies E dir) w = (inr installed, w1) ->
  success (ranNpm E (installArgs E npmDependencies installed) dir w1)
  = false ->
  installNpmModules E npmDependencies packageName dir w
  = (inl NpmFailure,
     withError
       (installErrorText
          (ranNpm E (installArgs E npmDependencies installed) dir w1))
       (afterNpm E (installArgs E npmDependencies installed) dir w1))
  /\ forall name,
       Str.execMissingPattern
         (stderr (ranNpm E (installArgs E npmDependencies installed) dir w1))
       = Some name ->
       installErrorText
         (ranNpm E (installArgs E npmDependencies installed) dir w1)
       = ("there is no npm package named '" ++ name ++ "'")%string
       /\ name <> ""
       /\ isWord name = true
       /\ exists pre post,
            stderr (ranNpm E (installArgs E npmDependencies installed) dir w1)
            = (pre ++ "404 '" ++ name ++ "' is not in the npm registry"
               ++ post)%string.
Proof.
  intros Hpre Hfail. split.
  - unfold installNpmModules, installNpmModules_install.
    apply bind_inv in Hpre. destruct Hpre as ([] & wa & Hm & Hpre).
    apply bind_inv in Hpre. destruct Hpre as ([] & wb & Hc & Hpre).
    apply bind_inv in Hpre. destruct Hpre as ([] & wc & Hn & Hls).
    apply bind_fail.
    rewrite (bind_ok _ _ _ _ _ Hm), (bind_ok _ _ _ _ _ Hc),
      (bind_ok _ _ _ _ _ Hn), (bind_ok _ _ _ _ _ Hls).
    cbv zeta.
    rewrite (bind_ok _ _ _ _ _ (runNpmCommand_run E _ dir w1)).
    rewrite Hfail. cbn [negb]. unfold installErrorText, withError.
    destruct (afterNpm E (installArgs E npmDependencies installed) dir w1)
      as [root log].
    destruct (Str.execMissingPattern _) as [name|];
      [reflexivity|].
    destruct (Str.execBadVersionPattern _) as [[name vers]|]; reflexivity.
  - intros name Hname. unfold installErrorText. rewrite Hname.
    split; [reflexivity|]. now apply execMissingPattern_sound.
Qed.

(** An npm whose [install] finds no package. *)
Definition missingExec (program : Files.path) (args : list string)
    (cwd : Files.path) (n : Files.node) : execResult * Files.node :=
  match args with
  | "install" :: _ =>
      ({| err := Some "Command failed. ";
          exec_stdout := "";
          exec_stderr :=
            "npm ERR! 404 'gcd' is not in the npm registry." |}, n)
  | _ => Sample.workingExec program args cwd n
  end.

Definition missingEnv : env := {|
  isUrlWithSha := Sample.urlWithSha;
  randomToken := "x1y2z3";
  colonConvert := fun s => s;
  processVersion := "v4.4.7";
  processPlatform := "freebsd";
  osPlatform := "freebsd";
  printNpmCalls := false;
  getCurrentNodeBinDir := ["usr"; "local"; "bin"];
  getUrl := fun _ => true;
  execFile := missingExec;
  JSON_parse := fun _ => Some Sample.emptyTree;
  JSON_stringify := fun _ => "{}"
|}.

Definition beforeInstall : world :=
  snd ((files_mkdir_p (Sample.npmDir ++ ["node_modules"]) ;;
        constructPackageJson missingEnv "pkg" Sample.npmDir
          Sample.gcdManifest ;;
        ensureConnected missingEnv ;;
        getInstalledDependencies missingEnv Sample.npmDir)
         (Sample.start Sample.freshDisk)).

Lemma npm_install_failure_witness :
  installNpmModules missingEnv Sample.gcdManifest "pkg" Sample.npmDir
    (Sample.start Sample.freshDisk)
  = (inl NpmFailure,
     withError "there is no npm package named 'gcd'"
       (afterNpm missingEnv ["install"; "gcd@0.0.0"] Sample.npmDir
          beforeInstall)).
Proof.
  refine (proj1
            (npm_install_failure missingEnv Sample.gcdManifest "pkg"
               Sample.npmDir (Sample.start Sample.freshDisk) beforeInstall
               [] _ _)).
  - vm_compute. reflexivity.
  - reflexivity.
Defined.

(** ** The programs that a run starts *)

(** The programs run so far. *)
Definition programsRun (w : world) : list event :=
  filter isExecFile (trace w).

(** The computation runs no program, whatever its outcome. *)
Definition silent {A} (m : M A) : Prop :=
  forall w r w', m w = (r, w') -> programsRun w' = programsRun w.

Lemma silent_ret {A} (a : A) : silent (ret a).
Proof. intros w r w' H. injection H as _ <-. reflexivity. Qed.

Lemma silent_throw {A} (e : exn) : silent (@throw A e).
Proof. intros w r w' H. injection H as _ <-. reflexivity. Qed.

Lemma silent_bind {A B} (m : M A) (k : A -> M B) :
  silent m -> (forall a, silent (k a)) -> silent (bind m k).
Proof.
  intros Hm Hk w r w' H. unfold bind in H.
  destruct (m w) as [[e|a] w0] eqn:Hmw.
  - injection H as _ <-. apply (Hm _ _ _ Hmw).
  - rewrite (Hk a _ _ _ H). apply (Hm _ _ _ Hmw).
Qed.

Lemma silent_tryCatch {A} (m : M A) (h : exn -> M A) :
  silent m -> (forall e, silent (h e)) -> silent (tryCatch m h).
Proof.
  intros Hm Hh w r w' H. unfold tryCatch in H.
  destruct (m w) as [[e|a] w0] eqn:Hmw.
  - rewrite (Hh e _ _ _ H). apply (Hm _ _ _ Hmw).
  - injection H as _ <-. apply (Hm _ _ _ Hmw).
Qed.

Lemma silent_emit (e : event) : isExecFile e = false -> silent (emit e).
Proof.
  intros He w r w' H. injection H as _ <-. unfold programsRun.
  cbn [trace]. rewrite filter_app. cbn [filter]. rewrite He.
  apply app_nil_r.
Qed.

Lemma silent_getFs : silent getFs.
Proof. intros w r w' H. injection H as _ <-. reflexivity. Qed.

Lemma silent_setFs (n : Files.node) : silent (setFs n).
Proof. intros w r w' H. injection H as _ <-. reflexivity. Qed.

Lemma silent_liftErrno {A} (r : Files.errno + A) : silent (liftErrno r).
Proof. destruct r; [apply silent_throw | apply silent_ret]. Qed.

Ltac hush :=
  repeat first
    [ apply silent_ret
    | apply silent_throw
    | apply silent_getFs
    | apply silent_setFs
    | apply silent_liftErrno
    | apply silent_emit; reflexivity
    | apply silent_bind; [|intros ?]
    | apply silent_tryCatch; [|intros ?]
    | match goal with
      | |- silent (when ?b _) => destruct b; unfold when
      | |- silent (if ?b then _ else _) => destruct b
      | |- silent (match ?x with _ => _ end) => destruct x
      end ].

Lemma silent_checks (E : env) (dir : Files.path) :
  silent (updateExisting_sanity dir ;;
          updateExisting_nodeVersion E dir ;;
          updateExisting_hiddenCopies dir).
Proof.
  unfold updateExisting_sanity, updateExisting_nodeVersion,
    updateExisting_hiddenCopies, andM, orM, notM, files_exists,
    files_stat_isDirectory, files_readFile, files_rm_recursive.
  hush.
Qed.

Lemma silent_before_ls (E : env) (packageName : string) (dir : Files.path)
    (npmDependencies : manifest) :
  silent (files_mkdir_p (dir ++ ["node_modules"]) ;;
          constructPackageJson E packageName dir npmDependencies ;;
          ensureConnected E).
Proof.
  unfold files_mkdir_p, constructPackageJson, ensureConnected,
    files_writeFile, buildmessage_error.
  hush.
Qed.

Lemma silent_checkColons (E : env) (dir : Files.path) :
  silent (installNpmModules_checkColons E dir).
Proof.
  unfold installNpmModules_checkColons, files_findPathsWithColon,
    buildmessage_error.
  hush.
Qed.

Lemma silent_minimizeShrinkwrap (E : env) (dir : Files.path) :
  silent (minimizeShrinkwrap E dir).
Proof.
  unfold minimizeShrinkwrap, getShrinkwrappedDependenciesTree,
    files_readFile, files_writeFile.
  hush.
Qed.

Lemma silent_after_shrinkwrap (E : env) (dir : Files.path) :
  silent (files_rename (dir ++ ["package.json"])
            (dir ++ ["node_modules"; ".package.json"]) ;;
          files_copyFile (dir ++ ["npm-shrinkwrap.json"])
            (dir ++ ["node_modules"; ".npm-shrinkwrap.json"]) ;;
          createReadme dir ;;
          createNodeVersion E dir ;;
          createGitIgnore dir).
Proof.
  unfold files_rename, files_copyFile, createReadme, createNodeVersion,
    createGitIgnore, files_writeFile.
  hush.
Qed.

Definition npmRun (E : env) (args : list string) (dir : Files.path) : event :=
  ExecFile (npmPath E) args dir.

Lemma programsRun_afterNpm (E : env) (args : list string) (dir : Files.path)
    (w : world) :
  programsRun (afterNpm E args dir w) = programsRun w ++ [npmRun E args dir].
Proof.
  unfold programsRun, afterNpm. cbn [trace]. rewrite filter_app.
  now rewrite (proj1 (npmEvents_exec E args dir _)).
Qed.

(** ** The run of [npm install] *)

Lemma getInstalledDependencies_run (E : env) (dir : Files.path) (w : world)
    (tree : npmModule) :
  JSON_parse E (stdout (ranNpm E ["ls"; "--json"] dir w)) = Some tree ->
  getInstalledDependencies E dir w
  = (inr (treeToDependencies E tree), afterNpm E ["ls"; "--json"] dir w).
Proof.
  intros Hparse. unfold getInstalledDependencies, getInstalledDependenciesTree.
  rewrite (bind_ok _ _ w (afterNpm E ["ls"; "--json"] dir w) tree);
    [reflexivity|].
  rewrite (bind_ok _ _ _ _ _ (runNpmCommand_run E ["ls"; "--json"] dir w)).
  now rewrite Hparse.
Qed.

(** What [installNpmModules] does up to the end of [npm install], once
    the registry answered and [npm ls] printed [tree]. *)
Lemma installNpmModules_install_run (E : env) (npmDependencies : manifest)
    (packageName : string) (dir : Files.path) (w w1 : world)
    (tree : npmModule) :
  (files_mkdir_p (dir ++ ["node_modules"]) ;;
   constructPackageJson E packageName dir npmDependencies ;;
   ensureConnected E) w = (inr tt, w1) ->
  JSON_parse E (stdout (ranNpm E ["ls"; "--json"] dir w1)) = Some tree ->
  installNpmModules_install E npmDependencies packageName dir w
  = if success
         (ranNpm E (installArgs E npmDependencies (treeToDependencies E tree))
            dir (afterNpm E ["ls"; "--json"] dir w1))
    then
      (inr tt,
       afterNpm E (installArgs E npmDependencies (treeToDependencies E tree))
         dir (afterNpm E ["ls"; "--json"] dir w1))
    else
      (inl NpmFailure,
       withError
         (installErrorText
            (ranNpm E
               (installArgs E npmDependencies (treeToDependencies E tree))
               dir (afterNpm E ["ls"; "--json"] dir w1)))
         (afterNpm E (installArgs E npmDependencies (treeToDependencies E tree))
            dir (afterNpm E ["ls"; "--json"] dir w1))).
Proof.
  intros Hpre Hparse. unfold installNpmModules_install.
  apply bind_inv in Hpre. destruct Hpre as ([] & wa & Hm & Hpre).
  apply bind_inv in Hpre. destruct Hpre as ([] & wb & Hc & Hn).
  rewrite (bind_ok _ _ _ _ _ Hm), (bind_ok _ _ _ _ _ Hc),
    (bind_ok _ _ _ _ _ Hn).
  rewrite (bind_ok _ _ _ _ _ (getInstalledDependencies_run E dir w1 tree Hparse)).
  cbv zeta.
  set (args := installArgs E npmDependencies (treeToDependencies E tree)).
  set (w2 := afterNpm E ["ls"; "--json"] dir w1).
  rewrite (bind_ok _ _ _ _ _ (runNpmCommand_run E args dir w2)).
  destruct (success (ranNpm E args dir w2)); cbn [negb]; [reflexivity|].
  unfold installErrorText, withError.
  destruct (afterNpm E args dir w2) as [root log].
  destruct (Str.execMissingPattern _) as [name|]; [reflexivity|].
  destruct (Str.execBadVersionPattern _) as [[name vers]|]; reflexivity.
Qed.

Lemma installNpmModules_run (E : env) (npmDependencies : manifest)
    (packageName : string) (dir : Files.path) (w w1 : world)
    (tree : npmModule) :
  (files_mkdir_p (dir ++ ["node_modules"]) ;;
   constructPackageJson E packageName dir npmDependencies ;;
   ensureConnected E) w = (inr tt, w1) ->
  JSON_parse E (stdout (ranNpm E ["ls"; "--json"] dir w1)) = Some tree ->
  installNpmModules E npmDependencies packageName dir w
  = if success
         (ranNpm E (installArgs E npmDependencies (treeToDependencies E tree))
            dir (afterNpm E ["ls"; "--json"] dir w1))
    then
      installNpmModules_checkColons E dir
        (afterNpm E (installArgs E npmDependencies (treeToDependencies E tree))
           dir (afterNpm E ["ls"; "--json"] dir w1))
    else
      (inl NpmFailure,
       withError
         (installErrorText
            (ranNpm E
               (installArgs E npmDependencies (treeToDependencies E tree))
               dir (afterNpm E ["ls"; "--json"] dir w1)))
         (afterNpm E (installArgs E npmDependencies (treeToDependencies E tree))
            dir (afterNpm E ["ls"; "--json"] dir w1))).
Proof.
  intros Hpre Hparse. unfold installNpmModules, bind at 1.
  rewrite (installNpmModules_install_run E npmDependencies packageName dir
             w w1 tree Hpre Hparse).
  now destruct (success _).
Qed.

(** A package of the manifest named [__proto__] differs, whatever is
    installed. *)
Lemma differs_proto (E : env) (tree : npmModule) (spec : string) :
  differs E tree ("__proto__", spec) = true.
Proof. reflexivity. Qed.

Lemma strictEq_true (a : option string) (v : string) :
  strictEq a (Some v) = true <-> a = Some v.
Proof.
  destruct a as [x|]; simpl; [|split; discriminate].
  rewrite String.eqb_eq. split; congruence.
Qed.

(** The package of the manifest does not differ exactly when it has
    another name than [__proto__] and the tree has it with a canonical
    version that is its specifier. *)
Lemma differs_false (E : env) (tree : npmModule) (name spec : string) :
  differs E tree (name, spec) = false
  <-> name <> "__proto__"
      /\ exists node,
           Obj.get name (match dependencies tree with
                         | None => []
                         | Some deps => deps
                         end) = Some node
           /\ canonicalVersion E node = Some spec.
Proof.
  unfold differs, installedCanonicalVersion, Obj.isProto. cbn [fst snd].
  rewrite negb_false_iff, strictEq_true.
  destruct (String.eqb name "__proto__") eqn:Hname.
  - apply String.eqb_eq in Hname. split; [discriminate|].
    intros [H _]. contradiction.
  - apply String.eqb_neq in Hname.
    destruct (dependencies tree) as [deps|].
    + destruct (Obj.get name deps) as [node|].
      * split.
        -- intros H. split; [exact Hname|]. now exists node.
        -- intros [_ (node' & [= <-] & H)]. exact H.
      * split; [discriminate|]. intros [_ (node' & H & _)]. discriminate.
    + split; [discriminate|]. intros [_ (node' & H & _)]. discriminate.
Qed.

(** A tree installed with the package [gcd] resolved outside the default
    registry, and an npm that prints it. *)
Definition gitTree : npmModule :=
  mkModule (Some "0.0.0") None None [] (Some [("gcd", gitNode)]).

Definition listingEnv (tree : npmModule) : env := {|
  isUrlWithSha := Sample.urlWithSha;
  randomToken := "x1y2z3";
  colonConvert := fun s => s;
  processVersion := "v4.4.7";
  processPlatform := "freebsd";
  osPlatform := "freebsd";
  printNpmCalls := false;
  getCurrentNodeBinDir := ["usr"; "local"; "bin"];
  getUrl := fun _ => true;
  execFile := Sample.workingExec;
  JSON_parse := fun _ => Some tree;
  JSON_stringify := fun _ => "{}"
|}.

(** C3 fails as stated: the Canonical Version of the design document
    looks at the resolved location first, and [canonicalVersion], which is
    what [installNpmModules] compares with the manifest, does not. For
    [gcd] installed from a location outside the default registry with the
    version 1.0.0 and the manifest gcd: 1.0.0, the Canonical Version (the
    location) is not the specifier, so that the argument gcd@1.0.0 is
    asked for; [installNpmModules] runs [npm install] without it. *)
Lemma install_arguments_ignore_resolved :
  specDiffers (listingEnv gitTree) gitTree ("gcd", "1.0.0") = true
  /\ installArgs (listingEnv gitTree) [("gcd", "1.0.0")]
       (treeToDependencies (listingEnv gitTree) gitTree)
     = ["install"]
  /\ filter isExecFile
       (trace (snd (installNpmModules (listingEnv gitTree) [("gcd", "1.0.0")]
                      "pkg" Sample.npmDir (Sample.start Sample.freshDisk))))
     = [ExecFile ["usr"; "local"; "bin"; "npm"] ["ls"; "--json"]
          ["pkg"; ".npm"];
        ExecFile ["usr"; "local"; "bin"; "npm"] ["install"] ["pkg"; ".npm"]].
Proof. split; [|split]; vm_compute; reflexivity. Qed.

(** C3, amended: once [node_modules] and [package.json] are written and
    the registry answered, [installNpmModules] runs [npm install] with the
    word [install] followed by one argument for each package of the
    manifest, in order, whose installed canonical version is not the
    specifier of the manifest, and by nothing for the other packages. The
    installed canonical version is that of [canonicalVersion] (the [from]
    specifier when it is a URL with a hash, the plain version otherwise;
    the resolved location is not looked at) on the node of the tree that
    [npm ls --json] printed; there is none when the package is not
    installed, and none under the name [__proto__], so that a package of
    this name is always passed. The argument is the specifier itself when
    it is a URL with a hash and [name@specifier] otherwise. When npm fails
    the error is reported and [NpmFailure] thrown; otherwise the check of
    the file names follows. For the manifest a: 1.0.0, b: 2.0.0 with a
    1.0.0 installed, the packages to install are b@2.0.0 alone. *)
Theorem install_arguments (E : env) (npmDependencies : manifest)
    (packageName : string) (dir : Files.path) (w w1 : world)
    (tree : npmModule) :
  (files_mkdir_p (dir ++ ["node_modules"]) ;;
   constructPackageJson E packageName dir npmDependencies ;;
   ensureConnected E) w = (inr tt, w1) ->
  JSON_parse E (stdout (ranNpm E ["ls"; "--json"] dir w1)) = Some tree ->
  distinct (Obj.keys (match dependencies tree with
                      | None => []
                      | Some deps => deps
                      end)) = true ->
  installNpmModules E npmDependencies packageName dir w
  = (if success
          (ranNpm E (installCommand E tree npmDependencies) dir
             (afterNpm E ["ls"; "--json"] dir w1))
     then
       installNpmModules_checkColons E dir
         (afterNpm E (installCommand E tree npmDependencies) dir
            (afterNpm E ["ls"; "--json"] dir w1))
     else
       (inl NpmFailure,
        withError
          (installErrorText
             (ranNpm E (installCommand E tree npmDependencies) dir
                (afterNpm E ["ls"; "--json"] dir w1)))
          (afterNpm E (installCommand E tree npmDependencies) dir
             (afterNpm E ["ls"; "--json"] dir w1))))
  /\ installCommand E tree npmDependencies
     = "install"
       :: map (specInstallArg E) (filter (differs E tree) npmDependencies)
  /\ (forall spec,
        In ("__proto__", spec) npmDependencies ->
        In (specInstallArg E ("__proto__", spec))
          (installCommand E tree npmDependencies))
  /\ installArgs Sample.sampleEnv [("a", "1.0.0"); ("b", "2.0.0")]
       (treeToDependencies Sample.sampleEnv installedA)
     = ["install"; "b@2.0.0"].
Proof.
  intros Hpre Hparse Hd. split; [|split; [|split]].
  - rewrite <- (installArgs_filter E npmDependencies tree Hd).
    exact (installNpmModules_run E npmDependencies packageName dir w w1 tree
             Hpre Hparse).
  - reflexivity.
  - intros spec Hin. unfold installCommand. right.
    apply (in_map (specInstallArg E)). apply filter_In.
    split; [exact Hin | apply differs_proto].
  - reflexivity.
Qed.

(** The world in which [npm ls] runs, for a package without [.npm]. *)
Definition listing (E : env) (npmDependencies : manifest) : world :=
  snd ((files_mkdir_p (Sample.npmDir ++ ["node_modules"]) ;;
        constructPackageJson E "pkg" Sample.npmDir npmDependencies ;;
        ensureConnected E)
         (Sample.start Sample.freshDisk)).

Lemma install_arguments_witness :
  installNpmModules (listingEnv installedA) [("a", "1.0.0"); ("b", "2.0.0")]
    "pkg" Sample.npmDir (Sample.start Sample.freshDisk)
  = installNpmModules_checkColons (listingEnv installedA) Sample.npmDir
      (afterNpm (listingEnv installedA) ["install"; "b@2.0.0"] Sample.npmDir
         (afterNpm (listingEnv installedA) ["ls"; "--json"] Sample.npmDir
            (listing (listingEnv installedA)
               [("a", "1.0.0"); ("b", "2.0.0")]))).
Proof.
  destruct (install_arguments (listingEnv installedA)
              [("a", "1.0.0"); ("b", "2.0.0")] "pkg" Sample.npmDir
              (Sample.start Sample.freshDisk)
              (listing (listingEnv installedA)
                 [("a", "1.0.0"); ("b", "2.0.0")])
              installedA)
    as [H _]; [vm_compute; reflexivity | reflexivity | reflexivity |].
  rewrite H. reflexivity.
Defined.

(** ** Nothing to install *)

Lemma programsRun_withError (text : string) (w : world) :
  programsRun (withError text w) = programsRun w.
Proof.
  unfold programsRun, withError. cbn [trace]. rewrite filter_app.
  apply app_nil_r.
Qed.

(** The programs that [installNpmModules] runs, whatever its outcome, once
    the registry answered and [npm ls] printed [tree]. *)
Lemma installNpmModules_programs (E : env) (npmDependencies : manifest)
    (packageName : string) (dir : Files.path) (w w1 : world)
    (tree : npmModule) :
  (files_mkdir_p (dir ++ ["node_modules"]) ;;
   constructPackageJson E packageName dir npmDependencies ;;
   ensureConnected E) w = (inr tt, w1) ->
  JSON_parse E (stdout (ranNpm E ["ls"; "--json"] dir w1)) = Some tree ->
  programsRun (snd (installNpmModules E npmDependencies packageName dir w))
  = programsRun w
    ++ [npmRun E ["ls"; "--json"] dir;
        npmRun E (installArgs E npmDependencies (treeToDependencies E tree))
          dir].
Proof.
  intros Hpre Hparse.
  rewrite (installNpmModules_run E npmDependencies packageName dir w w1 tree
             Hpre Hparse).
  assert (programsRun w1 = programsRun w) as Hquiet
    by exact (silent_before_ls E packageName dir npmDependencies w (inr tt)
                w1 Hpre).
  set (args := installArgs E npmDependencies (treeToDependencies E tree)).
  set (w2 := afterNpm E ["ls"; "--json"] dir w1).
  assert (programsRun (afterNpm E args dir w2)
          = programsRun w
            ++ [npmRun E ["ls"; "--json"] dir; npmRun E args dir]) as Hruns.
  { subst w2. rewrite !programsRun_afterNpm, Hquiet.
    now rewrite <- app_assoc. }
  destruct (success (ranNpm E args dir w2)).
  - destruct (installNpmModules_checkColons E dir (afterNpm E args dir w2))
      as [r w'] eqn:Hcheck.
    cbn [snd]. rewrite (silent_checkColons E dir _ _ _ Hcheck). exact Hruns.
  - cbn [snd]. rewrite programsRun_withError. exact Hruns.
Qed.

Lemma filter_none {A} (c : A -> bool) (l : list A) :
  (forall x, In x l -> c x = false) -> filter c l = [].
Proof.
  induction l as [|x l IH]; intros H; [reflexivity|].
  cbn [filter]. rewrite (H x (or_introl eq_refl)).
  apply IH. intros y Hy. apply H. now right.
Qed.

(** X13: [installNpmModules] runs [npm install] whether or not a package
    is to be installed. Its arguments are the word [install] alone exactly
    when every package of the manifest has another name than [__proto__]
    and is in the tree that [npm ls --json] printed with a canonical
    version that is its specifier; and there are never more arguments than
    packages in the manifest, the word [install] apart. *)
Theorem nothing_to_install (E : env) (npmDependencies : manifest)
    (packageName : string) (dir : Files.path) (w w1 : world)
    (tree : npmModule) :
  (files_mkdir_p (dir ++ ["node_modules"]) ;;
   constructPackageJson E packageName dir npmDependencies ;;
   ensureConnected E) w = (inr tt, w1) ->
  JSON_parse E (stdout (ranNpm E ["ls"; "--json"] dir w1)) = Some tree ->
  distinct (Obj.keys (match dependencies tree with
                      | None => []
                      | Some deps => deps
                      end)) = true ->
  exists packages,
    filter isExecFile
      (trace (snd (installNpmModules E npmDependencies packageName dir w)))
    = filter isExecFile (trace w)
      ++ [ExecFile (npmPath E) ["ls"; "--json"] dir;
          ExecFile (npmPath E) ("install" :: packages) dir]
    /\ (packages = []
        <-> forall name spec,
              In (name, spec) npmDependencies ->
              name <> "__proto__"
              /\ exists node,
                   Obj.get name (match dependencies tree with
                                 | None => []
                                 | Some deps => deps
                                 end) = Some node
                   /\ canonicalVersion E node = Some spec)
    /\ length packages <= length npmDependencies.
Proof.
  intros Hpre Hparse Hd.
  exists (map (specInstallArg E) (filter (differs E tree) npmDependencies)).
  split; [|split].
  - pose proof (installNpmModules_programs E npmDependencies packageName dir
                  w w1 tree Hpre Hparse) as H.
    rewrite (installArgs_filter E npmDependencies tree Hd) in H.
    exact H.
  - split.
    + intros H name spec Hin. apply map_eq_nil in H.
      apply differs_false.
      destruct (differs E tree (name, spec)) eqn:Hdf; [|reflexivity].
      assert (In (name, spec) (filter (differs E tree) npmDependencies))
        as Hf by (apply filter_In; auto).
      rewrite H in Hf. destruct Hf.
    + intros H. rewrite filter_none; [reflexivity|].
      intros [name spec] Hin. apply differs_false, H, Hin.
  - rewrite length_map. apply filter_length_le.
Qed.

Lemma nothing_to_install_witness :
  exists packages,
    filter isExecFile
      (trace (snd (installNpmModules (listingEnv installedA) [("a", "1.0.0")]
                     "pkg" Sample.npmDir (Sample.start Sample.freshDisk))))
    = filter isExecFile (trace (Sample.start Sample.freshDisk))
      ++ [ExecFile (npmPath (listingEnv installedA)) ["ls"; "--json"]
            Sample.npmDir;
          ExecFile (npmPath (listingEnv installedA)) ("install" :: packages)
            Sample.npmDir]
    /\ length packages <= 1.
Proof.
  destruct (nothing_to_install (listingEnv installedA) [("a", "1.0.0")]
              "pkg" Sample.npmDir (Sample.start Sample.freshDisk)
              (listing (listingEnv installedA) [("a", "1.0.0")]) installedA)
    as (packages & Hruns & _ & Hlen);
    [vm_compute; reflexivity | reflexivity | reflexivity |].
  exists packages. split; [exact Hruns | exact Hlen].
Defined.

(** ** The runs of npm in an update *)

(** The text of [package.json]. *)
Definition packageJson (E : env) (packageName : string)
    (npmDependencies : manifest) : string :=
  (JSON_stringify E
     (JObject
        [("name",
          JString ("packages-for-meteor-" ++ colonConvert E packageName));
         ("version", JString "0.0.0");
         ("dependencies",
          JObject (map (fun kv => (fst kv, JString (snd kv)))
                     npmDependencies))])
   ++ Str.nl)%string.

(** The tree that [npm ls --json] prints on the disk [n], when what it
    prints parses. *)
Definition listedTree (E : env) (dir : Files.path) (n : Files.node)
  : option npmModule :=
  JSON_parse E
    (exec_stdout (fst (execFile E (npmPath E) ["ls"; "--json"] dir n))).

(** A run of [installNpmModules] that returns has written [package.json]
    beside a [node_modules] that is there, found a tree in what [npm ls]
    printed on this disk, and run [npm install] with the arguments
    computed from this tree. *)
Lemma installNpmModules_runs (E : env) (npmDependencies : manifest)
    (packageName : string) (dir : Files.path) (w w' : world) (u : unit) :
  installNpmModules E npmDependencies packageName dir w = (inr u, w') ->
  exists written tree,
    Files.writeFile (dir ++ ["package.json"])
      (packageJson E packageName npmDependencies)
      (Files.mkdir_p (nodeModules dir) (fs w)) = inr written
    /\ listedTree E dir written = Some tree
    /\ programsRun w'
       = programsRun w
         ++ [npmRun E ["ls"; "--json"] dir;
             npmRun E
               (installArgs E npmDependencies (treeToDependencies E tree))
               dir].
Proof.
  intros H.
  assert (exists w1,
            (files_mkdir_p (dir ++ ["node_modules"]) ;;
             constructPackageJson E packageName dir npmDependencies ;;
             ensureConnected E) w = (inr tt, w1)
            /\ Files.writeFile (dir ++ ["package.json"])
                 (packageJson E packageName npmDependencies)
                 (Files.mkdir_p (nodeModules dir) (fs w)) = inr (fs w1)
            /\ exists tree,
                 JSON_parse E (stdout (ranNpm E ["ls"; "--json"] dir w1))
                 = Some tree) as (w1 & Hpre & Hwritten & tree & Hparse).
  { unfold installNpmModules, installNpmModules_install in H.
    apply bind_inv in H. destruct H as (u1 & wz & H & _).
    apply bind_inv in H. destruct H as ([] & wa & Ha & H).
    apply bind_inv in H. destruct H as ([] & wb & Hb & H).
    apply bind_inv in H. destruct H as ([] & wc & Hc & H).
    apply bind_inv in H. destruct H as (installed & wd & Hls & _).
    exists wc. split; [|split].
    - now rewrite (bind_ok _ _ _ _ _ Ha), (bind_ok _ _ _ _ _ Hb).
    - assert (fs wc = fs wb) as ->.
      { revert Hc. unfold ensureConnected. destruct wb as [root log].
        unfold_monad. destruct (getUrl E _); [|discriminate].
        intros [= <-]. reflexivity. }
      assert (fs wa = Files.mkdir_p (nodeModules dir) (fs w)) as <-.
      { revert Ha. destruct w as [root log]. unfold files_mkdir_p, nodeModules.
        unfold_monad. intros [= <-]. reflexivity. }
      exact (files_writeFile_inv _ _ _ _ _ Hb).
    - unfold getInstalledDependencies, getInstalledDependenciesTree in Hls.
      apply bind_inv in Hls. destruct Hls as (tree & wd' & Hls & _).
      rewrite (bind_ok _ _ _ _ _ (runNpmCommand_run E _ dir wc)) in Hls.
      destruct (JSON_parse E _) as [t|]; [now exists t|].
      destruct (negb _); discriminate. }
  exists (fs w1), tree. split; [exact Hwritten|]. split; [exact Hparse|].
  pose proof (installNpmModules_programs E npmDependencies packageName dir
                w w1 tree Hpre Hparse) as Hruns.
  now rewrite H in Hruns.
Qed.

Lemma completeNpmDirectory_runs (E : env) (packageName : string)
    (dir : Files.path) (npmDependencies : manifest) (w w' : world) (u : unit) :
  completeNpmDirectory E packageName dir npmDependencies w = (inr u, w') ->
  programsRun w' = programsRun w ++ [npmRun E ["shrinkwrap"] dir].
Proof.
  unfold completeNpmDirectory. intros H.
  apply bind_inv in H. destruct H as (u1 & w1 & Hsw & H).
  rewrite (silent_after_shrinkwrap E dir _ _ _ H). clear H.
  unfold shrinkwrap in Hsw.
  rewrite (bind_ok _ _ _ _ _ (runNpmCommand_run E _ dir w)) in Hsw.
  destruct (negb _).
  - apply bind_inv in Hsw. destruct Hsw as (? & ? & _ & H). discriminate.
  - rewrite (silent_minimizeShrinkwrap E dir _ _ _ Hsw).
    apply programsRun_afterNpm.
Qed.

Lemma cleanup_run (E : env) (dir : Files.path) (w : world) :
  (pruneResult <- runNpmCommand E ["prune"] dir ;;
   when (negb (success pruneResult))
     (buildmessage_error (Result pruneResult)) ;;
   dedupeResult <- runNpmCommand E ["dedupe"] dir ;;
   when (negb (success dedupeResult))
     (buildmessage_error (Result dedupeResult))) w
  = (inr tt, afterCleanup E dir w).
Proof.
  rewrite (bind_ok _ _ _ _ _ (runNpmCommand_run E ["prune"] dir w)).
  rewrite (bind_ok _ _ _ _ _ (when_report _ _)).
  rewrite (bind_ok _ _ _ _ _ (runNpmCommand_run E ["dedupe"] dir _)).
  apply when_report.
Qed.

Lemma programsRun_reportFailure (r : npmResult) (w : world) :
  programsRun (reportFailure r w) = programsRun w.
Proof.
  unfold reportFailure, programsRun. destruct (success r); [reflexivity|].
  cbn [trace]. rewrite filter_app. apply app_nil_r.
Qed.

Lemma programsRun_afterCleanup (E : env) (dir : Files.path) (w : world) :
  programsRun (afterCleanup E dir w)
  = programsRun w ++ [npmRun E ["prune"] dir; npmRun E ["dedupe"] dir].
Proof.
  unfold afterCleanup. cbv zeta.
  rewrite programsRun_reportFailure, programsRun_afterNpm.
  rewrite programsRun_reportFailure, programsRun_afterNpm.
  now rewrite <- app_assoc.
Qed.

Lemma createFreshNpmDirectory_runs (E : env) (packageName : string)
    (dir : Files.path) (npmDependencies : manifest) (quiet : bool)
    (w w' : world) (u : unit) :
  createFreshNpmDirectory E packageName dir npmDependencies quiet w
  = (inr u, w') ->
  exists written tree,
    Files.writeFile (dir ++ ["package.json"])
      (packageJson E packageName npmDependencies)
      (Files.mkdir_p (nodeModules dir) (fs w)) = inr written
    /\ listedTree E dir written = Some tree
    /\ programsRun w'
       = programsRun w
         ++ [npmRun E ["ls"; "--json"] dir;
             npmRun E
               (installArgs E npmDependencies (treeToDependencies E tree))
               dir;
             npmRun E ["shrinkwrap"] dir].
Proof.
  unfold createFreshNpmDirectory. intros H.
  apply bind_inv in H. destruct H as (? & w1 & Hlog & H).
  apply bind_inv in H. destruct H as (? & w2 & Hinst & Hc).
  assert (programsRun w1 = programsRun w /\ fs w1 = fs w) as [Hquiet Hfs].
  { revert Hlog. unfold logUpdateDependencies. destruct w as [root log].
    destruct quiet; unfold_monad; intros [= <- <-]; [split; reflexivity|].
    split; [|reflexivity]. unfold programsRun. cbn [trace].
    rewrite filter_app. apply app_nil_r. }
  destruct (installNpmModules_runs _ _ _ _ _ _ _ Hinst)
    as (written & tree & Hwritten & Htree & Hi).
  exists written, tree. rewrite <- Hfs.
  split; [exact Hwritten|]. split; [exact Htree|].
  rewrite (completeNpmDirectory_runs _ _ _ _ _ _ _ Hc), Hi, Hquiet.
  now rewrite <- app_assoc.
Qed.

Lemma updateExisting_sanity_disk (dir : Files.path) (w w' : world)
    (u : unit) :
  updateExisting_sanity dir w = (inr u, w') -> w' = w.
Proof.
  destruct w as [root log]. unfold updateExisting_sanity. unfold_monad.
  destruct (Files.stat dir root) as [e|[d|]]; cbv beta iota;
    try discriminate.
  cbn [negb]. cbv beta iota.
  destruct (Files.exists_ (dir ++ ["npm-shrinkwrap.json"]) root);
    cbn [negb]; [|discriminate].
  now intros [= <-].
Qed.

Lemma updateExisting_nodeVersion_disk (E : env) (dir : Files.path)
    (w w' : world) (u : unit) :
  updateExisting_nodeVersion E dir w = (inr u, w') ->
  w' = w \/ w' = withoutNodeModules dir w.
Proof.
  destruct (Files.exists_ (nodeModules dir) (fs w)) eqn:Hnm.
  - rewrite updateExisting_nodeVersion_run by exact Hnm.
    destruct (Files.readFile (nodeVersionFile dir) (fs w)) as [[]|old];
      try discriminate.
    + destruct (String.eqb "v0.8.24" (currentNodeCompatibilityVersion E));
        intros [= <-]; auto.
    + destruct (String.eqb old (currentNodeCompatibilityVersion E));
        intros [= <-]; auto.
  - destruct w as [root log]. unfold updateExisting_nodeVersion, nodeModules in *.
    cbn [fs] in Hnm. unfold_monad. rewrite Hnm. intros [= <-]. now left.
Qed.

Lemma updateExisting_hiddenCopies_disk (dir : Files.path) (w w' : world)
    (u : unit) :
  updateExisting_hiddenCopies dir w = (inr u, w') ->
  w' = w \/ w' = withoutNodeModules dir w.
Proof.
  destruct w as [root log].
  unfold updateExisting_hiddenCopies, withoutNodeModules, nodeModules.
  cbn [fs trace]. unfold_monad.
  destruct (Files.exists_ (dir ++ ["node_modules"]) root);
    [|intros [= <-]; now left].
  cbv beta iota.
  destruct (Files.exists_ ((dir ++ ["node_modules"]) ++ [".package.json"])
              root); cbn [negb]; cbv beta iota;
    [|intros [= <-]; now right].
  destruct (Files.exists_
              ((dir ++ ["node_modules"]) ++ [".npm-shrinkwrap.json"]) root);
    cbn [negb]; cbv beta iota; intros [= <-]; auto.
Qed.

(** The three checks of [updateExistingNpmDirectory] leave the disk as it
    was, or without [node_modules]. *)
Lemma checks_disk (E : env) (dir : Files.path) (w w' : world) :
  (updateExisting_sanity dir ;;
   updateExisting_nodeVersion E dir ;;
   updateExisting_hiddenCopies dir) w = (inr tt, w') ->
  fs w' = fs w \/ fs w' = Files.rm_recursive (nodeModules dir) (fs w).
Proof.
  intros H.
  apply bind_inv in H. destruct H as (? & wa & Hs & H).
  apply bind_inv in H. destruct H as (? & wb & Hn & Hh).
  apply updateExisting_sanity_disk in Hs. subst wa.
  apply updateExisting_nodeVersion_disk in Hn.
  destruct Hn as [-> | ->].
  - apply updateExisting_hiddenCopies_disk in Hh.
    destruct Hh as [-> | ->]; [now left | now right].
  - rewrite (updateExisting_hiddenCopies_absent E) in Hh.
    + injection Hh as <-. now right.
    + apply exists_rm_recursive_self, nodeModules_not_root.
Qed.

Lemma updateExistingNpmDirectory_runs (E : env) (packageName : string)
    (dir : Files.path) (npmDependencies : manifest) (quiet : bool)
    (w w' : world) (u : unit) :
  updateExistingNpmDirectory E packageName dir npmDependencies quiet w
  = (inr u, w') ->
  exists disk written tree cleanup,
    (disk = fs w \/ disk = Files.rm_recursive (nodeModules dir) (fs w))
    /\ Files.writeFile (dir ++ ["package.json"])
         (packageJson E packageName npmDependencies)
         (Files.mkdir_p (nodeModules dir) disk) = inr written
    /\ listedTree E dir written = Some tree
    /\ programsRun w'
       = programsRun w
         ++ [npmRun E ["ls"; "--json"] dir;
             npmRun E
               (installArgs E npmDependencies (treeToDependencies E tree))
               dir]
         ++ cleanup ++ [npmRun E ["shrinkwrap"] dir]
    /\ (cleanup = []
        \/ cleanup = [npmRun E ["prune"] dir; npmRun E ["dedupe"] dir]).
Proof.
  unfold updateExistingNpmDirectory. intros H.
  apply bind_inv in H. destruct H as ([] & wa & Hs & H).
  apply bind_inv in H. destruct H as ([] & wb & Hn & H).
  apply bind_inv in H. destruct H as ([] & w0 & Hh & H).
  assert ((updateExisting_sanity dir ;;
           updateExisting_nodeVersion E dir ;;
           updateExisting_hiddenCopies dir) w = (inr tt, w0)) as Hchecks
    by now rewrite (bind_ok _ _ _ _ _ Hs), (bind_ok _ _ _ _ _ Hn).
  pose proof (silent_checks E dir w (inr tt) w0 Hchecks) as Hquiet.
  pose proof (checks_disk E dir w w0 Hchecks) as Hdisk.
  apply bind_inv in H. destruct H as (existed & w0' & Hex & H).
  assert (w0' = w0) as -> by (destruct w0; now injection Hex as _ <-).
  apply bind_inv in H. destruct H as (? & w1 & Hinst & H).
  apply bind_inv in H. destruct H as (? & w2 & Hclean & Hc).
  destruct (installNpmModules_runs _ _ _ _ _ _ _ Hinst)
    as (written & tree & Hwritten & Htree & Hi).
  exists (fs w0), written, tree.
  rewrite (completeNpmDirectory_runs _ _ _ _ _ _ _ Hc).
  destruct existed.
  - rewrite cleanup_run in Hclean. injection Hclean as _ <-.
    exists [npmRun E ["prune"] dir; npmRun E ["dedupe"] dir].
    split; [exact Hdisk|]. split; [exact Hwritten|]. split; [exact Htree|].
    split; [|now right].
    rewrite programsRun_afterCleanup, Hi, Hquiet.
    now rewrite <- !app_assoc.
  - injection Hclean as _ <-. exists [].
    split; [exact Hdisk|]. split; [exact Hwritten|]. split; [exact Htree|].
    split; [|now left].
    rewrite Hi, Hquiet. now rewrite <- !app_assoc.
Qed.

Lemma updateDependencies_true_body (E : env) (packageName : string)
    (dir : Files.path) (npmDependencies : option manifest) (quiet : bool)
    (w w' : world) :
  updateDependencies E packageName dir npmDependencies quiet w
  = (inr true, w') ->
  exists deps,
    npmDependencies = Some deps
    /\ updateDependencies_body E packageName dir deps quiet w = (inr tt, w').
Proof.
  intros H.
  destruct npmDependencies as [[|kv deps]|].
  - exfalso. revert H. destruct w as [root log]. unfold updateDependencies.
    cbv beta iota zeta delta [orb _isEmpty]. unfold_monad.
    destruct (Files.rename _ _ root) as [[]|n]; discriminate.
  - exists (kv :: deps). split; [reflexivity|].
    rewrite updateDependencies_with_dependencies in H by discriminate.
    destruct (updateDependencies_body E packageName dir (kv :: deps) quiet w)
      as [[e|[]] w1].
    + destruct e; discriminate.
    + now injection H as <-.
  - exfalso. revert H. destruct w as [root log]. unfold updateDependencies.
    cbv beta iota zeta delta [orb _isEmpty]. unfold_monad.
    destruct (Files.rename _ _ root) as [[]|n]; discriminate.
Qed.

(** X15: when [updateDependencies] returns [true] for a directory that
    is not the root, npm has run three to five times, and nothing else
    has: [npm ls --json], then [npm install] with the arguments computed
    from the tree that this [npm ls] printed, then [npm prune] and [npm
    dedupe], both or none, then [npm shrinkwrap]. The [npm ls] ran on a
    disk with [package.json] written beside [node_modules], made from the
    disk of the call as it was when the directory was not there, from
    this disk without the directory when it was there without a lock
    file, and from this disk, with or without [node_modules], when it was
    there with a lock file (after the checks of an update).
    When the tree has each key once these arguments are [install] and the
    packages that differ. When the directory was not there before, prune
    and dedupe have not run. *)
Theorem npm_runs_of_an_update (E : env) (packageName : string)
    (dir : Files.path) (npmDependencies : manifest) (quiet : bool)
    (w w' : world) :
  dir <> [] ->
  updateDependencies E packageName dir (Some npmDependencies) quiet w
  = (inr true, w') ->
  exists disk written tree cleanup,
    (Files.exists_ dir (fs w) = false -> disk = fs w)
    /\ (Files.exists_ dir (fs w) = true ->
        Files.exists_ (lockFile dir) (fs w) = false ->
        disk = Files.rm_recursive dir (fs w))
    /\ (Files.exists_ dir (fs w) = true ->
        Files.exists_ (lockFile dir) (fs w) = true ->
        disk = fs w \/ disk = Files.rm_recursive (nodeModules dir) (fs w))
    /\ Files.writeFile (dir ++ ["package.json"])
         (packageJson E packageName npmDependencies)
         (Files.mkdir_p (nodeModules dir) disk) = inr written
    /\ JSON_parse E
         (exec_stdout
            (fst (execFile E (npmPath E) ["ls"; "--json"] dir written)))
       = Some tree
    /\ filter isExecFile (trace w')
       = filter isExecFile (trace w)
         ++ [ExecFile (npmPath E) ["ls"; "--json"] dir;
             ExecFile (npmPath E)
               (installArgs E npmDependencies (treeToDependencies E tree))
               dir]
         ++ cleanup ++ [ExecFile (npmPath E) ["shrinkwrap"] dir]
    /\ (distinct (Obj.keys (match dependencies tree with
                            | None => []
                            | Some deps => deps
                            end)) = true ->
        installArgs E npmDependencies (treeToDependencies E tree)
        = "install"
          :: map (specInstallArg E) (filter (differs E tree) npmDependencies))
    /\ (cleanup = []
        \/ cleanup = [ExecFile (npmPath E) ["prune"] dir;
                      ExecFile (npmPath E) ["dedupe"] dir])
    /\ (Files.exists_ dir (fs w) = false -> cleanup = []).
Proof.
  intros Hdir H. apply updateDependencies_true_body in H.
  destruct H as (deps & [= <-] & Hbody).
  assert (forall tree,
            distinct (Obj.keys (match dependencies tree with
                                | None => []
                                | Some deps => deps
                                end)) = true ->
            installArgs E npmDependencies (treeToDependencies E tree)
            = "install"
              :: map (specInstallArg E)
                   (filter (differs E tree) npmDependencies)) as Hargs
    by (intros tree; apply installArgs_filter).
  destruct (Files.exists_ dir (fs w)) eqn:Hex.
  - destruct (Files.exists_ (lockFile dir) (fs w)) eqn:Hlock.
    + rewrite updateDependencies_body_existing in Hbody
        by (exact Hex || exact Hlock).
      destruct (updateExistingNpmDirectory_runs _ _ _ _ _ _ _ _ Hbody)
        as (disk & written & tree & cleanup & Hdisk & Hwritten & Htree
            & Hruns & Hcleanup).
      exists disk, written, tree, cleanup.
      unfold programsRun, npmRun, listedTree in *.
      split; [discriminate|]. split; [discriminate|].
      split; [intros _ _; exact Hdisk|].
      split; [exact Hwritten|]. split; [exact Htree|].
      split; [exact Hruns|]. split; [apply Hargs|].
      split; [exact Hcleanup | discriminate].
    + rewrite updateDependencies_body_corrupted in Hbody
        by (exact Hdir || exact Hex || exact Hlock).
      destruct (createFreshNpmDirectory_runs _ _ _ _ _ _ _ _ Hbody)
        as (written & tree & Hwritten & Htree & Hruns).
      exists (Files.rm_recursive dir (fs w)), written, tree, [].
      unfold programsRun, npmRun, listedTree in *. cbn [fs trace] in *.
      rewrite filter_app in Hruns. cbn [filter isExecFile] in Hruns.
      rewrite app_nil_r in Hruns.
      split; [discriminate|]. split; [reflexivity|].
      split; [discriminate|].
      split; [exact Hwritten|]. split; [exact Htree|].
      split; [exact Hruns|]. split; [apply Hargs|].
      split; [now left | reflexivity].
  - rewrite updateDependencies_body_fresh in Hbody by exact Hex.
    destruct (createFreshNpmDirectory_runs _ _ _ _ _ _ _ _ Hbody)
      as (written & tree & Hwritten & Htree & Hruns).
    exists (fs w), written, tree, [].
    unfold programsRun, npmRun, listedTree in *.
    split; [reflexivity|]. split; [discriminate|]. split; [discriminate|].
    split; [exact Hwritten|]. split; [exact Htree|].
    split; [exact Hruns|]. split; [apply Hargs|].
    split; [now left | reflexivity].
Qed.

Lemma npm_runs_of_an_update_witness :
  exists disk written tree cleanup,
    disk = Sample.freshDisk
    /\ Files.writeFile (Sample.npmDir ++ ["package.json"])
         (packageJson Sample.sampleEnv "pkg" Sample.gcdManifest)
         (Files.mkdir_p (nodeModules Sample.npmDir) disk) = inr written
    /\ JSON_parse Sample.sampleEnv
         (exec_stdout
            (fst (execFile Sample.sampleEnv (npmPath Sample.sampleEnv)
                    ["ls"; "--json"] Sample.npmDir written)))
       = Some tree
    /\ filter isExecFile
         (trace (snd (updateDependencies Sample.sampleEnv "pkg" Sample.npmDir
                        (Some Sample.gcdManifest) true
                        (Sample.start Sample.freshDisk))))
       = [ExecFile (npmPath Sample.sampleEnv) ["ls"; "--json"] Sample.npmDir;
          ExecFile (npmPath Sample.sampleEnv)
            (installArgs Sample.sampleEnv Sample.gcdManifest
               (treeToDependencies Sample.sampleEnv tree))
            Sample.npmDir]
         ++ cleanup
         ++ [ExecFile (npmPath Sample.sampleEnv) ["shrinkwrap"] Sample.npmDir]
    /\ cleanup = [].
Proof.
  destruct (npm_runs_of_an_update Sample.sampleEnv "pkg" Sample.npmDir
              Sample.gcdManifest true (Sample.start Sample.freshDisk)
              (snd (updateDependencies Sample.sampleEnv "pkg" Sample.npmDir
                      (Some Sample.gcdManifest) true
                      (Sample.start Sample.freshDisk))))
    as (disk & written & tree & cleanup & Hdisk & _ & _ & Hwritten & Htree
        & Hruns & _ & _ & Hfresh);
    [discriminate | vm_compute; reflexivity |].
  exists disk, written, tree, cleanup.
  split; [apply Hdisk; reflexivity|]. split; [exact Hwritten|]. split; [exact Htree|].
  split; [exact Hruns|]. apply Hfresh. reflexivity.
Defined.

Lemma hidden_copies_check_witness :
  Files.stat ["pkg"; ".npm"; "npm-shrinkwrap.json"]
    (fs (withoutNodeModules Sample.npmDir stampedWorld))
  = Files.stat ["pkg"; ".npm"; "npm-shrinkwrap.json"] (fs stampedWorld).
Proof.
  apply (hidden_copies_check Sample.npmDir stampedWorld). reflexivity.
Defined.
